(** * kitn-ai/registry: delegation and streaming orchestration engine

    A shallow embedding of the parts of [packages/core] that the
    specification makes claims about:

    - [Usage]        [mergeUsage] of utils/ai-provider.ts
    - [Resilience]   [isRetryableError] and [withResilience] of utils/resilience.ts
    - [Requests]     the active request registry of utils/request-registry.ts
    - [Delegation]   [executeTask] of agents/execute-task.ts
    - [Compaction]   [compactConversation] of utils/compaction.ts and
                     [loadConversationWithCompaction] of utils/conversation-helpers.ts
    - [Orchestrator] the SSE and JSON handlers of agents/orchestrator.ts
                     together with [createSSEStream] of streaming/sse-writer.ts

    Where the source is found: [mergeUsage] in core/src/types.ts (second
    part, lines 153-175); resilience.ts and request-registry.ts under
    core/src/utils; [executeTask] in unnamed/part_012; the agent registry in
    core/src/registry/agent-registry.ts; compaction in
    core/src/utils/card-registry.ts (third part, lines 95-193) and
    [loadConversationWithCompaction] in core/src/utils/tool-examples.ts
    (lines 44-85); the in-memory conversation store in unnamed/part_015; the
    orchestrator in core/src/streaming/sse-writer.ts (lines 72-614), after
    [createSSEStream] (lines 1-71).

    Modelling conventions.  Token counts and millisecond durations are
    integer valued JavaScript numbers and are embedded as [Z]; the cost of a
    call is a fractional binary64 number and is embedded as a primitive
    [float], so that sums of costs round exactly as they do at run time.
    Strings are sequences of 8-bit characters.  A call to a collaborator
    that the core does not implement (the language model, a guard supplied
    by the host, the skill store) is an oracle whose answer is either a
    value or a thrown JavaScript value. *)

From Stdlib Require Import ZArith Floats Lia Ascii String.
From stdpp Require Import gmap strings list pretty.

Open Scope Z_scope.

(** ** Thrown values and results of fallible calls *)

(** A property read off an error object: [status] and [statusCode] are
    looked at only when they hold a number.  [PropOther] stands for every
    value that is neither nullish nor an integer number. *)
Inductive PropVal :=
| PropUndefined
| PropNumber (n : Z)
| PropOther.

Record JsError := {
  err_name : string;
  err_message : string;
  err_status : PropVal;
  err_statusCode : PropVal
}.

(** What a [catch (err: unknown)] clause can receive: an [Error] instance
    or any other value, the latter kept as its [String(err)] rendering. *)
Inductive Thrown :=
| ThrownError (e : JsError)
| ThrownOther (rendering : string).

Inductive Outcome (A : Type) :=
| Returned (a : A)
| Threw (t : Thrown).
Arguments Returned {A} a.
Arguments Threw {A} t.

(** [err instanceof Error ? err.message : String(err)] *)
Definition thrown_message (t : Thrown) : string :=
  match t with
  | ThrownError e => err_message e
  | ThrownOther s => s
  end.

(** [err instanceof Error ? err.name : undefined] *)
Definition thrown_name (t : Thrown) : option string :=
  match t with
  | ThrownError e => Some (err_name e)
  | ThrownOther _ => None
  end.

Definition mkError (name message : string) : JsError :=
  {| err_name := name; err_message := message;
     err_status := PropUndefined; err_statusCode := PropUndefined |}.

(** [[...new Set(xs)]]: duplicates dropped, first occurrences kept in order. *)
Fixpoint uniq_from (seen : list string) (xs : list string) : list string :=
  match xs with
  | [] => []
  | x :: rest =>
      if bool_decide (x ∈ seen) then uniq_from seen rest
      else x :: uniq_from (x :: seen) rest
  end.

Definition uniq (xs : list string) : list string := uniq_from [] xs.

(** [s.slice(0, n)] *)
Definition slice0 (n : nat) (s : string) : string := String.substring 0 n s.

(** [xs.join(sep)] *)
Definition join (sep : string) (xs : list string) : string := String.concat sep xs.

(** * Usage accounting (utils/ai-provider.ts) *)

Module Usage.

Record UsageInfo := {
  inputTokens : Z;
  outputTokens : Z;
  totalTokens : Z;
  cost : option float;
  durationMs : Z
}.

(** The accumulator [merged] before the loop. *)
Definition empty_usage : UsageInfo :=
  {| inputTokens := 0; outputTokens := 0; totalTokens := 0;
     cost := None; durationMs := 0 |}.

(** One iteration of [for (const u of usages)]. *)
Definition merge_step (merged u : UsageInfo) : UsageInfo :=
  {| inputTokens := inputTokens merged + inputTokens u;
     outputTokens := outputTokens merged + outputTokens u;
     totalTokens := totalTokens merged + totalTokens u;
     cost := match cost u with
             | Some c => Some (default 0%float (cost merged) + c)%float
             | None => cost merged
             end;
     durationMs := if durationMs merged <? durationMs u
                   then durationMs u else durationMs merged |}.

(** [mergeUsage(...usages)] *)
Definition mergeUsage (usages : list UsageInfo) : UsageInfo :=
  fold_left merge_step usages empty_usage.

(** [mergeUsage(a, b)], the binary operation. *)
Definition merge2 (a b : UsageInfo) : UsageInfo := mergeUsage [a; b].

(** [totalUsage.durationMs = Math.round(performance.now() - overallStart)] *)
Definition with_duration (u : UsageInfo) (elapsed : Z) : UsageInfo :=
  {| inputTokens := inputTokens u; outputTokens := outputTokens u;
     totalTokens := totalTokens u; cost := cost u; durationMs := elapsed |}.

(** The sums the specification speaks of, written independently of the loop. *)
Definition sumZ (xs : list Z) : Z := foldr Z.add 0 xs.
Definition maxZ (xs : list Z) : Z := foldr Z.max 0 xs.

(** Costs added left to right from [0], as the loop does; [None] when no
    operand carries a cost. *)
Definition sum_costs (cs : list (option float)) : option float :=
  match omap id cs with
  | [] => None
  | c :: rest => Some (fold_left PrimFloat.add rest (0 + c)%float)
  end.

(** *** Facts about binary64 addition *)

Lemma SFadd_comm prec emax x y : SFadd prec emax x y = SFadd prec emax y x.
Proof.
  destruct x as [sx|sx| |sx mx ex], y as [sy|sy| |sy my ey]; simpl;
    try reflexivity; try (destruct sx, sy; reflexivity).
  rewrite (Z.min_comm ey ex). f_equal. apply Z.add_comm.
Qed.

Lemma float_add_comm (x y : float) : (x + y)%float = (y + x)%float.
Proof. apply Prim2SF_inj. rewrite !add_spec. apply SFadd_comm. Qed.

(** *** The loop, field by field *)

Lemma fold_inputTokens l acc :
  inputTokens (fold_left merge_step l acc) = inputTokens acc + sumZ (map inputTokens l).
Proof.
  revert acc. induction l as [|u l IH]; intros acc; simpl.
  - lia.
  - rewrite IH. simpl. unfold sumZ. lia.
Qed.

Lemma fold_outputTokens l acc :
  outputTokens (fold_left merge_step l acc) = outputTokens acc + sumZ (map outputTokens l).
Proof.
  revert acc. induction l as [|u l IH]; intros acc; simpl.
  - lia.
  - rewrite IH. simpl. unfold sumZ. lia.
Qed.

Lemma fold_totalTokens l acc :
  totalTokens (fold_left merge_step l acc) = totalTokens acc + sumZ (map totalTokens l).
Proof.
  revert acc. induction l as [|u l IH]; intros acc; simpl.
  - lia.
  - rewrite IH. simpl. unfold sumZ. lia.
Qed.

Lemma fold_durationMs l acc :
  durationMs (fold_left merge_step l acc) = Z.max (durationMs acc) (foldr Z.max (durationMs acc) (map durationMs l)).
Proof.
  revert acc. induction l as [|u l IH]; intros acc; simpl.
  - lia.
  - rewrite IH. simpl.
    assert (Hmono : forall a b xs, a <= b -> foldr Z.max a xs <= foldr Z.max b xs).
    { intros a b xs Hab. induction xs as [|x xs IHx]; simpl; lia. }
    assert (Hge : forall a xs, a <= foldr Z.max a xs).
    { intros a xs. induction xs as [|x xs IHx]; simpl; lia. }
    assert (Hmax : forall a b xs, a <= b -> foldr Z.max b xs = Z.max b (foldr Z.max a xs)).
    { intros a b xs Hab. induction xs as [|x xs IHx]; simpl; lia. }
    destruct (Z.ltb_spec (durationMs acc) (durationMs u)) as [Hlt|Hle].
    + rewrite (Hmax (durationMs acc) (durationMs u)) by lia.
      pose proof (Hge (durationMs acc) (map durationMs l)). lia.
    + pose proof (Hge (durationMs acc) (map durationMs l)). lia.
Qed.

Lemma mergeUsage_durationMs l :
  durationMs (mergeUsage l) = maxZ (map durationMs l).
Proof.
  unfold mergeUsage. rewrite fold_durationMs. simpl. unfold maxZ.
  assert (Hge : forall xs, 0 <= foldr Z.max 0 xs).
  { induction xs as [|x xs IHx]; simpl; lia. }
  pose proof (Hge (map durationMs l)). lia.
Qed.

Lemma fold_cost_some l acc c0 :
  cost acc = Some c0 ->
  cost (fold_left merge_step l acc) = Some (fold_left PrimFloat.add (omap cost l) c0).
Proof.
  revert acc c0. induction l as [|u l IH]; intros acc c0 Hc; simpl.
  - exact Hc.
  - destruct (cost u) as [c|] eqn:Hu; simpl.
    + apply IH. simpl. rewrite Hu, Hc. reflexivity.
    + apply IH. simpl. rewrite Hu. exact Hc.
Qed.

Lemma omap_cost_map (l : list UsageInfo) : omap cost l = omap id (map cost l).
Proof.
  induction l as [|v l IH]; [reflexivity|].
  cbn. destruct (cost v); cbn; rewrite IH; reflexivity.
Qed.

Lemma fold_cost_none l acc :
  cost acc = None ->
  cost (fold_left merge_step l acc) = sum_costs (map cost l).
Proof.
  revert acc. induction l as [|u l IH]; intros acc Hc; simpl.
  - exact Hc.
  - unfold sum_costs. simpl. destruct (cost u) as [c|] eqn:Hu; simpl.
    + rewrite (fold_cost_some l _ (0 + c)%float); [|simpl; rewrite Hu, Hc; reflexivity].
      f_equal. f_equal. apply omap_cost_map.
    + rewrite IH by (simpl; rewrite Hu; exact Hc). reflexivity.
Qed.

Lemma mergeUsage_cost l : cost (mergeUsage l) = sum_costs (map cost l).
Proof. apply fold_cost_none. reflexivity. Qed.

(** *** [mergeUsage] as a binary operation *)

Lemma float_zero_add_swap (x y : float) : (0 + x + y)%float = (0 + y + x)%float.
Proof.
  apply Prim2SF_inj. rewrite !add_spec.
  change (Prim2SF 0%float) with (S754_zero false).
  unfold SF64add.
  destruct (Prim2SF x) as [sx|sx| |sx mx ex], (Prim2SF y) as [sy|sy| |sy my ey];
    cbn [SFadd]; try reflexivity;
    try (destruct sx; reflexivity); try (destruct sy; reflexivity);
    try (destruct sx, sy; reflexivity).
  apply (SFadd_comm _ _ (S754_finite sx mx ex) (S754_finite sy my ey)).
Qed.

Definition cost2 (x y : option float) : option float :=
  match x, y with
  | None, None => None
  | Some c, None => Some (0 + c)%float
  | None, Some d => Some (0 + d)%float
  | Some c, Some d => Some (0 + c + d)%float
  end.

Lemma merge2_cost a b : cost (merge2 a b) = cost2 (cost a) (cost b).
Proof. unfold merge2, mergeUsage, cost2. simpl. destruct (cost a), (cost b); reflexivity. Qed.

Lemma merge2_durationMs a b :
  durationMs (merge2 a b) = Z.max 0 (Z.max (durationMs a) (durationMs b)).
Proof. unfold merge2. rewrite mergeUsage_durationMs. unfold maxZ. simpl. lia. Qed.

Lemma merge2_comm a b : merge2 a b = merge2 b a.
Proof.
  assert (Hc : cost (merge2 a b) = cost (merge2 b a)).
  { rewrite !merge2_cost. unfold cost2.
    destruct (cost a), (cost b); try reflexivity. f_equal. apply float_zero_add_swap. }
  assert (Hd : durationMs (merge2 a b) = durationMs (merge2 b a)).
  { rewrite !merge2_durationMs. lia. }
  destruct (merge2 a b) as [i1 o1 t1 c1 d1] eqn:E1, (merge2 b a) as [i2 o2 t2 c2 d2] eqn:E2.
  simpl in Hc, Hd. subst c2 d2.
  apply (f_equal inputTokens) in E1 as Hi1. apply (f_equal inputTokens) in E2 as Hi2.
  apply (f_equal outputTokens) in E1 as Ho1. apply (f_equal outputTokens) in E2 as Ho2.
  apply (f_equal totalTokens) in E1 as Ht1. apply (f_equal totalTokens) in E2 as Ht2.
  unfold merge2, mergeUsage in Hi1, Hi2, Ho1, Ho2, Ht1, Ht2. simpl in *.
  f_equal; lia.
Qed.

(** Three usages whose costs are the doubles nearest to 0.1, 0.2 and 0.3. *)
Definition usage_of_cost (c : float) : UsageInfo :=
  {| inputTokens := 1; outputTokens := 1; totalTokens := 2;
     cost := Some c; durationMs := 5 |}.
Definition tenth : UsageInfo := usage_of_cost 0x1.999999999999ap-4%float.
Definition fifth : UsageInfo := usage_of_cost 0x1.999999999999ap-3%float.
Definition three_tenths : UsageInfo := usage_of_cost 0x1.3333333333333p-2%float.

(** C6, as stated, fails: merging is not associative on the cost field,
    because binary64 addition rounds.  [(0.1 + 0.2) + 0.3] is
    [0.6000000000000001] and [0.1 + (0.2 + 0.3)] is [0.6]. *)
Lemma mergeUsage_not_associative :
  merge2 (merge2 tenth fifth) three_tenths <> merge2 tenth (merge2 fifth three_tenths).
Proof.
  intros H.
  apply (f_equal (fun u => match cost u with
                           | Some c => PrimFloat.eqb c 0x1.3333333333333p-1%float
                           | None => false
                           end)) in H.
  vm_compute in H. discriminate H.
Qed.

(** C6, amended: [mergeUsage(a, b)] is commutative; its three token fields
    are the sums of the operands' fields; its duration is the largest of 0
    and the two durations (so the maximum of the two whenever one of them is
    not negative); its cost is null exactly when both costs are null and is
    otherwise the binary64 sum, taken left to right from 0, of the costs that
    are not null; and merging is associative on the token fields, on the
    duration and on whether the cost is null. *)
Theorem mergeUsage_binary_laws (a b c : UsageInfo) :
  merge2 a b = merge2 b a
  /\ inputTokens (merge2 a b) = inputTokens a + inputTokens b
  /\ outputTokens (merge2 a b) = outputTokens a + outputTokens b
  /\ totalTokens (merge2 a b) = totalTokens a + totalTokens b
  /\ durationMs (merge2 a b) = Z.max 0 (Z.max (durationMs a) (durationMs b))
  /\ cost (merge2 a b) = cost2 (cost a) (cost b)
  /\ inputTokens (merge2 (merge2 a b) c) = inputTokens (merge2 a (merge2 b c))
  /\ outputTokens (merge2 (merge2 a b) c) = outputTokens (merge2 a (merge2 b c))
  /\ totalTokens (merge2 (merge2 a b) c) = totalTokens (merge2 a (merge2 b c))
  /\ durationMs (merge2 (merge2 a b) c) = durationMs (merge2 a (merge2 b c))
  /\ (cost (merge2 (merge2 a b) c) = None <-> cost (merge2 a (merge2 b c)) = None).
Proof.
  split; [apply merge2_comm|].
  repeat split; rewrite ?merge2_durationMs, ?merge2_cost in *;
    try (unfold merge2, mergeUsage; simpl; lia); try lia;
    unfold cost2 in *; destruct (cost a), (cost b), (cost c); congruence.
Qed.

(** ** Reading the usage off a provider result *)

(** The [usage] object of the provider: every field may be missing;
    [raw_cost] is [raw.cost] when that is a number. *)
Record ProviderUsage := {
  pu_inputTokens : option Z;
  pu_outputTokens : option Z;
  pu_totalTokens : option Z;
  raw_cost : option float
}.

(** The result of a [generateText] call, as far as [extractUsage] reads it;
    a step holds its [usage], if any. *)
Record GenerateResult := {
  totalUsage : option ProviderUsage;
  res_usage : option ProviderUsage;
  steps : option (list (option ProviderUsage))
}.

(** [result.totalUsage ?? result.usage] *)
Definition reported (result : GenerateResult) : option ProviderUsage :=
  match totalUsage result with
  | Some u => Some u
  | None => res_usage result
  end.

(** [step.usage?.raw?.cost], when it is a number. *)
Definition step_cost (step : option ProviderUsage) : option float := step ≫= raw_cost.

(** The loop over [result.steps]: [total] and [found]. *)
Definition add_step_cost (acc : float * bool) (step : option ProviderUsage) : float * bool :=
  match step_cost step with
  | Some stepCost => ((acc.1 + stepCost)%float, true)
  | None => acc
  end.

(** [elapsed] is [Math.round(performance.now() - startTime)]. *)
Definition extractUsage (result : GenerateResult) (elapsed : Z) : UsageInfo :=
  let u := reported result in
  let inputTokens := default 0 (u ≫= pu_inputTokens) in
  let outputTokens := default 0 (u ≫= pu_outputTokens) in
  let totalTokens := default (inputTokens + outputTokens) (u ≫= pu_totalTokens) in
  let cost :=
    match steps result with
    | Some ((_ :: _) as all_steps) =>
        let acc := fold_left add_step_cost all_steps (0%float, false) in
        if acc.2 then Some acc.1 else None
    | _ => u ≫= raw_cost
    end in
  {| inputTokens := inputTokens; outputTokens := outputTokens; totalTokens := totalTokens;
     cost := cost; durationMs := elapsed |}.

Definition extractStreamUsage (usage : option ProviderUsage) (elapsed : Z) : UsageInfo :=
  let inputTokens := default 0 (usage ≫= pu_inputTokens) in
  let outputTokens := default 0 (usage ≫= pu_outputTokens) in
  let totalTokens := default (inputTokens + outputTokens) (usage ≫= pu_totalTokens) in
  {| inputTokens := inputTokens; outputTokens := outputTokens; totalTokens := totalTokens;
     cost := usage ≫= raw_cost; durationMs := elapsed |}.

Lemma add_step_cost_some (acc : float * bool) (step : option ProviderUsage) (c : float) :
  step_cost step = Some c -> add_step_cost acc step = ((acc.1 + c)%float, true).
Proof. intros H. unfold add_step_cost. rewrite H. reflexivity. Qed.

Lemma add_step_cost_none (acc : float * bool) (step : option ProviderUsage) :
  step_cost step = None -> add_step_cost acc step = acc.
Proof. intros H. unfold add_step_cost. rewrite H. reflexivity. Qed.

Lemma fold_step_cost_found (l : list (option ProviderUsage)) (total : float) :
  fold_left add_step_cost l (total, true)
  = (fold_left PrimFloat.add (omap step_cost l) total, true).
Proof.
  revert total. induction l as [|step l IH]; intros total; [reflexivity|].
  cbn [fold_left omap list_omap].
  destruct (step_cost step) as [c|] eqn:Hstep.
  - rewrite (add_step_cost_some _ _ c Hstep). apply IH.
  - rewrite (add_step_cost_none _ _ Hstep). apply IH.
Qed.

Lemma omap_id_fmap {A B : Type} (f : A -> option B) (l : list A) :
  omap id (f <$> l) = omap f l.
Proof.
  induction l as [|x l IH]; [reflexivity|].
  cbn. destruct (f x); cbn; rewrite IH; reflexivity.
Qed.

Lemma fold_step_cost (l : list (option ProviderUsage)) :
  (let acc := fold_left add_step_cost l (0%float, false) in
   if acc.2 then Some acc.1 else None)
  = sum_costs (step_cost <$> l).
Proof.
  cbv zeta. unfold sum_costs. rewrite omap_id_fmap.
  induction l as [|step l IH]; [reflexivity|].
  cbn [fold_left omap list_omap].
  destruct (step_cost step) as [c|] eqn:Hstep.
  - rewrite (add_step_cost_some _ _ c Hstep), fold_step_cost_found. reflexivity.
  - rewrite (add_step_cost_none _ _ Hstep). exact IH.
Qed.

Lemma sumZ_permutation (xs ys : list Z) : xs ≡ₚ ys -> sumZ xs = sumZ ys.
Proof. unfold sumZ. induction 1; simpl; lia. Qed.

Lemma maxZ_permutation (xs ys : list Z) : xs ≡ₚ ys -> maxZ xs = maxZ ys.
Proof. unfold maxZ. induction 1; simpl; lia. Qed.

Lemma sum_costs_none (cs : list (option float)) :
  sum_costs cs = None <-> Forall (fun c => c = None) cs.
Proof.
  unfold sum_costs. induction cs as [|[c|] cs IH]; cbn.
  - split; [constructor|reflexivity].
  - split; [discriminate|]. intros H. inversion H as [|? ? Hc]. discriminate Hc.
  - rewrite IH. split; [intros H; constructor; [reflexivity|exact H]|].
    intros H. inversion H. assumption.
Qed.

(** Merging any number of usages does not depend on their order as far as
    the token counts, the duration and the presence of a cost go: the token
    counts are sums, the duration is a maximum and never negative, and the
    cost is null exactly when every operand's cost is null. *)
Theorem mergeUsage_order_insensitive (us vs : list UsageInfo) :
  us ≡ₚ vs ->
  inputTokens (mergeUsage us) = inputTokens (mergeUsage vs)
  /\ outputTokens (mergeUsage us) = outputTokens (mergeUsage vs)
  /\ totalTokens (mergeUsage us) = totalTokens (mergeUsage vs)
  /\ durationMs (mergeUsage us) = durationMs (mergeUsage vs)
  /\ 0 <= durationMs (mergeUsage us)
  /\ (cost (mergeUsage us) = None <-> Forall (fun u => cost u = None) us)
  /\ (cost (mergeUsage us) = None <-> cost (mergeUsage vs) = None).
Proof.
  intros Hperm. unfold mergeUsage at 1 2 3 4 5 6.
  rewrite !fold_inputTokens, !fold_outputTokens, !fold_totalTokens.
  fold (mergeUsage us). fold (mergeUsage vs). rewrite !mergeUsage_durationMs.
  assert (Hnull : forall l, cost (mergeUsage l) = None <-> Forall (fun u => cost u = None) l).
  { intros l. rewrite mergeUsage_cost, sum_costs_none, Forall_fmap. reflexivity. }
  split; [f_equal; apply sumZ_permutation, fmap_Permutation, Hperm|].
  split; [f_equal; apply sumZ_permutation, fmap_Permutation, Hperm|].
  split; [f_equal; apply sumZ_permutation, fmap_Permutation, Hperm|].
  split; [apply maxZ_permutation, fmap_Permutation, Hperm|].
  split. { unfold maxZ. induction (map durationMs us); simpl; lia. }
  split; [apply Hnull|].
  rewrite !Hnull. split; intros H; [rewrite <- Hperm|rewrite Hperm]; exact H.
Qed.

Lemma mergeUsage_order_insensitive_witness :
  durationMs (mergeUsage [tenth; with_duration fifth 9])
  = durationMs (mergeUsage [with_duration fifth 9; tenth]).
Proof.
  apply (mergeUsage_order_insensitive [tenth; with_duration fifth 9]
           [with_duration fifth 9; tenth]).
  apply Permutation_swap.
Defined.

(** What [extractUsage] reads: the token counts come from [totalUsage], or
    from [usage] when there is none, the total defaulting to input plus
    output; the duration is the elapsed time; when the result has steps the
    cost is the sum of the step costs, null when no step has one, and the
    cost of the result's own usage is not looked at; when it has none the
    result is what [extractStreamUsage] gives for the same usage. *)
Theorem extractUsage_reads (result : GenerateResult) (elapsed : Z) :
  inputTokens (extractUsage result elapsed)
  = inputTokens (extractStreamUsage (reported result) elapsed)
  /\ outputTokens (extractUsage result elapsed)
     = outputTokens (extractStreamUsage (reported result) elapsed)
  /\ totalTokens (extractUsage result elapsed)
     = totalTokens (extractStreamUsage (reported result) elapsed)
  /\ durationMs (extractUsage result elapsed) = elapsed
  /\ (reported result ≫= pu_totalTokens = None ->
      totalTokens (extractUsage result elapsed)
      = inputTokens (extractUsage result elapsed) + outputTokens (extractUsage result elapsed))
  /\ (forall step rest, steps result = Some (step :: rest) ->
        cost (extractUsage result elapsed) = sum_costs (step_cost <$> step :: rest))
  /\ (steps result = None \/ steps result = Some [] ->
      extractUsage result elapsed = extractStreamUsage (reported result) elapsed).
Proof.
  unfold extractUsage, extractStreamUsage. cbv zeta.
  cbn [inputTokens outputTokens totalTokens durationMs cost].
  split; [reflexivity|]. split; [reflexivity|]. split; [reflexivity|].
  split; [reflexivity|].
  split; [intros ->; reflexivity|].
  split.
  - intros step rest ->. apply (fold_step_cost (step :: rest)).
  - intros [->| ->]; reflexivity.
Qed.

End Usage.

(** * Retry classification and the resilience wrapper (utils/resilience.ts) *)

Module Resilience.

(** ** Strings as the classifier reads them *)

Definition code (c : ascii) : Z := Z.of_N (N_of_ascii c).

Definition is_upper (c : ascii) : bool := (65 <=? code c) && (code c <=? 90).
Definition is_lower (c : ascii) : bool := (97 <=? code c) && (code c <=? 122).
Definition is_digit (c : ascii) : bool := (48 <=? code c) && (code c <=? 57).

(** The class [\w] of a regular expression without the unicode flag. *)
Definition is_word (c : ascii) : bool :=
  is_digit c || is_lower c || is_upper c || (code c =? 95).

Definition lower_ascii (c : ascii) : ascii :=
  if is_upper c then ascii_of_N (N_of_ascii c + 32) else c.

(** [s.toLowerCase()] *)
Fixpoint toLowerCase (s : string) : string :=
  match s with
  | EmptyString => EmptyString
  | String c rest => String (lower_ascii c) (toLowerCase rest)
  end.

(** [hay.includes(needle)] *)
Fixpoint includes (needle hay : string) : bool :=
  String.prefix needle hay ||
  match hay with
  | EmptyString => false
  | String _ rest => includes needle rest
  end.

(** [\d{3}\b] tried at the head of [s]: three digits that no word
    character follows. *)
Definition three_digits (s : string) : option Z :=
  match s with
  | String a (String b (String c rest)) =>
      if is_digit a && is_digit b && is_digit c
         && match rest with
            | EmptyString => true
            | String d _ => negb (is_word d)
            end
      then Some (100 * (code a - 48) + 10 * (code b - 48) + (code c - 48))
      else None
  | _ => None
  end.

(** [message.match(/\b(\d{3})\b/)]: the leftmost stand-alone run of exactly
    three digits, as a number.  [prev_word] tells whether the character
    before the head of [s] is a word character. *)
Fixpoint status_scan (prev_word : bool) (s : string) : option Z :=
  match s with
  | EmptyString => None
  | String c rest =>
      match (if prev_word then None else three_digits s) with
      | Some n => Some n
      | None => status_scan (is_word c) rest
      end
  end.

Definition statusMatch (message : string) : option Z := status_scan false message.

(** ** [isRetryableError] *)

Definition RETRYABLE_STATUS_CODES : list Z := [429; 500; 502; 503; 504].
Definition NON_RETRYABLE_STATUS_CODES : list Z := [400; 401; 403; 404; 422].

Definition has (codes : list Z) (n : Z) : bool := bool_decide (n ∈ codes).

(** The two [if]s run on a status number: [Some] verdict when the number is
    in one of the sets, [None] when control falls through. *)
Definition by_status (n : Z) : option bool :=
  if has RETRYABLE_STATUS_CODES n then Some true
  else if has NON_RETRYABLE_STATUS_CODES n then Some false
  else None.

(** [errRecord.status ?? errRecord.statusCode] *)
Definition statusProp (e : JsError) : PropVal :=
  match err_status e with
  | PropUndefined => err_statusCode e
  | v => v
  end.

Definition transient_marker (message : string) : bool :=
  includes "timeout" message || includes "timed out" message
  || includes "econnreset" message || includes "econnrefused" message
  || includes "network" message || includes "fetch failed" message
  || includes "socket hang up" message.

Definition capacity_marker (message : string) : bool :=
  includes "overloaded" message || includes "capacity" message.

Definition rate_limit_marker (message : string) : bool :=
  includes "rate limit" message || includes "too many requests" message.

Definition isRetryableError (error : Thrown) : bool :=
  match error with
  | ThrownOther _ => false
  | ThrownError e =>
      if String.eqb (err_name e) "AbortError" then false
      else
        let message := toLowerCase (err_message e) in
        match from_option by_status None (statusMatch message) with
        | Some verdict => verdict
        | None =>
            match (match statusProp e with
                   | PropNumber n => by_status n
                   | _ => None
                   end) with
            | Some verdict => verdict
            | None =>
                if transient_marker message then true
                else if capacity_marker message then true
                else if rate_limit_marker message then true
                else false
            end
        end
  end.

(** ** [withResilience] *)

Inductive StatusEvent :=
| Retrying (attempt maxRetries : nat)
| Fallback (currentModel : string).

Record FallbackContext := {
  fc_agent : option string;
  fc_currentModel : string;
  fc_retryCount : nat;
  fc_error : JsError
}.

Record ResilienceConfig := {
  maxRetries : nat;
  onFallback : option (FallbackContext -> Outcome (option string))
}.

(** [{ maxRetries: 3, ... }] with no fallback hook: the defaults. *)
Definition default_config : ResilienceConfig :=
  {| maxRetries := 3; onFallback := None |}.

(** What one run of the wrapper did: its result, how many times it invoked
    [fn], and the status events it emitted. *)
Record Run (T : Type) := {
  outcome : Outcome T;
  calls : nat;
  statuses : list StatusEvent
}.
Arguments outcome {T} _.
Arguments calls {T} _.
Arguments statuses {T} _.

(** [error instanceof Error ? error : new Error(String(error))] *)
Definition as_error (t : Thrown) : JsError :=
  match t with
  | ThrownError e => e
  | ThrownOther s => mkError "Error" s
  end.

Definition abortError : JsError := mkError "AbortError" "Aborted".

Section Wrapper.
Context {T : Type}.
(** [fn k m] is the answer of the [k]-th invocation of the wrapped call,
    made with override model [m]. *)
Variable fn : nat -> option string -> Outcome T.
(** [aborted k]: [abortSignal?.aborted] as read in the [catch] of attempt [k]. *)
Variable aborted : nat -> bool.
(** [sleep_aborted k]: the signal fires before the back-off sleep that
    follows attempt [k] has elapsed. *)
Variable sleep_aborted : nat -> bool.
Variable config : ResilienceConfig.
Variable agent : option string.
Variable modelId : option string.

(** The [for] loop, from [attempt] on, with [remaining = maxRetries - attempt].
    [inl] is a [return] or [throw] out of the loop, [inr] the [break]
    with [lastError]. *)
Fixpoint loop (remaining attempt : nat) (log : list StatusEvent)
  : Run T + (JsError * list StatusEvent) :=
  match fn attempt None with
  | Returned v => inl {| outcome := Returned v; calls := S attempt; statuses := log |}
  | Threw t =>
      let lastError := as_error t in
      if String.eqb (err_name lastError) "AbortError" || aborted attempt
      then inl {| outcome := Threw (ThrownError lastError); calls := S attempt; statuses := log |}
      else if negb (isRetryableError (ThrownError lastError))
      then inl {| outcome := Threw (ThrownError lastError); calls := S attempt; statuses := log |}
      else
        match remaining with
        | O => inr (lastError, log)
        | S remaining' =>
            let log' := log ++ [Retrying (S attempt) (maxRetries config)] in
            if sleep_aborted attempt
            then inl {| outcome := Threw (ThrownError abortError); calls := S attempt; statuses := log' |}
            else loop remaining' (S attempt) log'
        end
  end.

Definition withResilience : Run T :=
  match loop (maxRetries config) O [] with
  | inl run => run
  | inr (lastError, log) =>
      let n := S (maxRetries config) in
      match onFallback config with
      | None => {| outcome := Threw (ThrownError lastError); calls := n; statuses := log |}
      | Some hook =>
          let currentModel := default "default" modelId in
          let log' := log ++ [Fallback currentModel] in
          match hook {| fc_agent := agent; fc_currentModel := currentModel;
                        fc_retryCount := maxRetries config; fc_error := lastError |} with
          | Threw t => {| outcome := Threw t; calls := n; statuses := log' |}
          | Returned (Some fallbackModel) =>
              if String.eqb fallbackModel EmptyString
              then {| outcome := Threw (ThrownError lastError); calls := n; statuses := log' |}
              else {| outcome := fn n (Some fallbackModel); calls := S n; statuses := log' |}
          | Returned None =>
              {| outcome := Threw (ThrownError lastError); calls := n; statuses := log' |}
          end
      end
  end.
End Wrapper.

(** ** The classification, as the specification words it *)

Definition listed (n : Z) : bool :=
  has RETRYABLE_STATUS_CODES n || has NON_RETRYABLE_STATUS_CODES n.

Definition keep_listed (o : option Z) : option Z :=
  match o with
  | Some n => if listed n then Some n else None
  | None => None
  end.

Definition prop_number (v : PropVal) : option Z :=
  match v with
  | PropNumber n => Some n
  | _ => None
  end.

(** The HTTP-style status an error carries: the first stand-alone
    three-digit number of its message when that is one of the ten listed
    codes, otherwise its numeric [status] (or [statusCode]) property when
    that is one of them. *)
Definition carried_status (e : JsError) : option Z :=
  match keep_listed (statusMatch (toLowerCase (err_message e))) with
  | Some n => Some n
  | None => keep_listed (prop_number (statusProp e))
  end.

(** The message indicates a timeout, a network reset, a failed fetch, an
    overloaded provider or a rate limit. *)
Definition textual_marker (e : JsError) : bool :=
  let message := toLowerCase (err_message e) in
  transient_marker message || capacity_marker message || rate_limit_marker message.

Definition is_abort (e : JsError) : bool := String.eqb (err_name e) "AbortError".

Lemma by_status_listed n : by_status n = if listed n then Some (has RETRYABLE_STATUS_CODES n) else None.
Proof.
  unfold by_status, listed.
  destruct (has RETRYABLE_STATUS_CODES n), (has NON_RETRYABLE_STATUS_CODES n); reflexivity.
Qed.

Lemma isRetryableError_unfold e :
  isRetryableError (ThrownError e) =
  if is_abort e then false
  else match carried_status e with
       | Some n => has RETRYABLE_STATUS_CODES n
       | None => textual_marker e
       end.
Proof.
  unfold isRetryableError, is_abort, carried_status, textual_marker, keep_listed, prop_number.
  destruct (String.eqb (err_name e) "AbortError"); [reflexivity|].
  destruct (statusMatch (toLowerCase (err_message e))) as [n|]; simpl.
  - rewrite by_status_listed. destruct (listed n); [reflexivity|].
    destruct (statusProp e) as [|m|]; try rewrite by_status_listed;
      try destruct (listed m); try reflexivity;
      destruct (transient_marker _), (capacity_marker _), (rate_limit_marker _); reflexivity.
  - destruct (statusProp e) as [|m|]; try rewrite by_status_listed;
      try destruct (listed m); try reflexivity;
      destruct (transient_marker _), (capacity_marker _), (rate_limit_marker _); reflexivity.
Qed.

Section AlwaysFailing.
Context {T : Type}.
Variable t : Thrown.
Variable config : ResilienceConfig.
Variables (agent modelId : option string).

Let fn : nat -> option string -> Outcome T := fun _ _ => Threw t.
Let quiet : nat -> bool := fun _ => false.

Lemma loop_gives_up_at_once remaining attempt log :
  isRetryableError (ThrownError (as_error t)) = false ->
  loop fn quiet quiet config remaining attempt log =
  inl {| outcome := Threw (ThrownError (as_error t)); calls := S attempt; statuses := log |}.
Proof.
  intros Hno. destruct remaining; cbn [loop]; unfold fn, quiet; cbv beta iota;
    rewrite Hno, orb_false_r; cbn [negb]; destruct (String.eqb _ _); reflexivity.
Qed.

Lemma loop_exhausts remaining attempt log :
  isRetryableError (ThrownError (as_error t)) = true ->
  exists log', loop fn quiet quiet config remaining attempt log = inr (as_error t, log').
Proof.
  intros Hyes. revert attempt log.
  assert (Hname : String.eqb (err_name (as_error t)) "AbortError" = false).
  { rewrite isRetryableError_unfold in Hyes. unfold is_abort in Hyes.
    destruct (String.eqb _ _); [discriminate|reflexivity]. }
  induction remaining as [|r IH]; intros attempt log; cbn [loop];
    unfold fn at 1, quiet; cbv beta iota; rewrite Hname, Hyes; cbn [orb negb].
  - eauto.
  - apply IH.
Qed.

Lemma withResilience_fails_fast :
  isRetryableError (ThrownError (as_error t)) = false ->
  calls (withResilience fn quiet quiet config agent modelId) = 1%nat
  /\ outcome (withResilience fn quiet quiet config agent modelId)
     = Threw (ThrownError (as_error t)).
Proof.
  intros Hno. unfold withResilience. rewrite loop_gives_up_at_once by exact Hno.
  split; reflexivity.
Qed.

Lemma withResilience_retries :
  isRetryableError (ThrownError (as_error t)) = true ->
  (S (maxRetries config) <= calls (withResilience fn quiet quiet config agent modelId))%nat
  /\ (onFallback config = None ->
      calls (withResilience fn quiet quiet config agent modelId) = S (maxRetries config)
      /\ outcome (withResilience fn quiet quiet config agent modelId)
         = Threw (ThrownError (as_error t))).
Proof.
  intros Hyes. unfold withResilience.
  destruct (loop_exhausts (maxRetries config) O [] Hyes) as [log' ->].
  destruct (onFallback config) as [hook|]; [|split; [simpl; lia|intros _; split; reflexivity]].
  split; [|discriminate].
  destruct (hook _) as [[m|]|]; simpl; try lia.
  destruct (String.eqb m EmptyString); simpl; lia.
Qed.
End AlwaysFailing.

(** An expired session reported with status 401: the error carries a
    status of the never-retry list, and its message speaks of a timeout. *)
Definition expired_session : JsError :=
  {| err_name := "Error"; err_message := "Unauthorized: session timed out";
     err_status := PropNumber 401; err_statusCode := PropUndefined |}.

(** Where the classes overlap the code follows an order of precedence.
    The message of [expired_session] indicates a timeout, yet the error,
    which carries status 401, is not retried. *)
Lemma timeout_message_not_retried :
  transient_marker (toLowerCase (err_message expired_session)) = true
  /\ isRetryableError (ThrownError expired_session) = false
  /\ calls (withResilience (T := unit) (fun _ _ => Threw (ThrownError expired_session))
              (fun _ => false) (fun _ => false) default_config None None) = 1%nat.
Proof. vm_compute. repeat split; reflexivity. Qed.

(** The classifier as the code computes it: the classes are tried in a
    fixed order.  A thrown value
    that is not an [Error] is not retryable.  An [AbortError] is not
    retryable, whatever else it carries.  Otherwise the status the error
    carries decides: the first stand-alone three-digit number of the
    lower-cased message when it is one of the ten listed codes, else the
    numeric [status] (or [statusCode]) property when it is one of them;
    429, 500, 502, 503, 504 are retryable and 400, 401, 403, 404, 422 are
    not.  Only an error that carries no listed status is classified by its
    message: retryable when it contains a timeout, network, fetch-failure,
    overloaded, capacity or rate-limit marker, and not retryable otherwise.
    With no abort signalled, [withResilience] calls an operation that keeps
    failing with a retryable error [maxRetries + 1] times before it turns to
    the fallback, and calls one that fails with a non-retryable error once
    and rethrows it. *)
Theorem retry_classification :
  (forall rendering, isRetryableError (ThrownOther rendering) = false)
  /\ (forall e, err_name e = "AbortError" -> isRetryableError (ThrownError e) = false)
  /\ (forall e n, err_name e <> "AbortError" -> carried_status e = Some n ->
        n ∈ NON_RETRYABLE_STATUS_CODES -> isRetryableError (ThrownError e) = false)
  /\ (forall e n, err_name e <> "AbortError" -> carried_status e = Some n ->
        n ∈ RETRYABLE_STATUS_CODES -> isRetryableError (ThrownError e) = true)
  /\ (forall e, err_name e <> "AbortError" -> carried_status e = None ->
        isRetryableError (ThrownError e) = textual_marker e)
  /\ (forall (T : Type) t config agent modelId,
        isRetryableError (ThrownError (as_error t)) = true ->
        let run := withResilience (T := T) (fun _ _ => Threw t) (fun _ => false)
                     (fun _ => false) config agent modelId in
        (S (maxRetries config) <= calls run)%nat
        /\ (onFallback config = None ->
            calls run = S (maxRetries config)
            /\ outcome run = Threw (ThrownError (as_error t))))
  /\ (forall (T : Type) t config agent modelId,
        isRetryableError (ThrownError (as_error t)) = false ->
        let run := withResilience (T := T) (fun _ _ => Threw t) (fun _ => false)
                     (fun _ => false) config agent modelId in
        calls run = 1%nat /\ outcome run = Threw (ThrownError (as_error t))).
Proof.
  assert (Hne : forall e, err_name e <> "AbortError" -> is_abort e = false).
  { intros e H. unfold is_abort. apply String.eqb_neq. exact H. }
  split; [reflexivity|].
  split.
  { intros e H. rewrite isRetryableError_unfold. unfold is_abort. rewrite H. reflexivity. }
  split.
  { intros e n Hn Hc Hin. rewrite isRetryableError_unfold, (Hne e Hn), Hc.
    unfold has. apply bool_decide_eq_false. intros Hr.
    unfold NON_RETRYABLE_STATUS_CODES in Hin. unfold RETRYABLE_STATUS_CODES in Hr.
    rewrite !elem_of_cons, elem_of_nil in Hin, Hr. lia. }
  split.
  { intros e n Hn Hc Hin. rewrite isRetryableError_unfold, (Hne e Hn), Hc.
    unfold has. apply bool_decide_eq_true. exact Hin. }
  split.
  { intros e Hn Hc. rewrite isRetryableError_unfold, (Hne e Hn), Hc. reflexivity. }
  split.
  { intros T t config agent modelId Hyes run. subst run.
    apply (withResilience_retries t config agent modelId Hyes). }
  intros T t config agent modelId Hno run. subst run.
  apply (withResilience_fails_fast t config agent modelId Hno).
Qed.

(** A rate-limited call: status 429 in the message. *)
Definition rate_limited : JsError := mkError "Error" "HTTP 429 Too Many Requests".

Lemma retry_classification_witness :
  isRetryableError (ThrownError rate_limited) = true
  /\ calls (withResilience (T := unit) (fun _ _ => Threw (ThrownError rate_limited))
              (fun _ => false) (fun _ => false) default_config None None) = 4%nat.
Proof.
  destruct retry_classification as (_ & _ & _ & Hretry & _ & Hcalls & _).
  assert (Hr : isRetryableError (ThrownError rate_limited) = true).
  { apply (Hretry rate_limited 429).
    - discriminate.
    - reflexivity.
    - apply elem_of_cons. left. reflexivity. }
  split; [exact Hr|].
  destruct (Hcalls unit (ThrownError rate_limited) default_config None None Hr) as [_ Hn].
  destruct (Hn eq_refl) as [Hc _]. exact Hc.
Defined.

(** ** How often the wrapped call is made *)

Section Attempts.
Context {T : Type}.
Variable fn : nat -> option string -> Outcome T.
Variables aborted sleep_aborted : nat -> bool.
Variable config : ResilienceConfig.
Variables (agent modelId : option string).

(** The announcements of the retries [from + 1], ..., [from + count]. *)
Definition retries (from count : nat) : list StatusEvent :=
  List.map (fun i => Retrying (S i) (maxRetries config)) (seq from count).

(** Attempt [i] fails with an error worth retrying while nobody aborts. *)
Definition fails_retryably (i : nat) : Prop :=
  exists t, fn i None = Threw t
            /\ isRetryableError (ThrownError (as_error t)) = true
            /\ aborted i = false /\ sleep_aborted i = false.

Lemma retries_cons from count :
  retries from (S count) = Retrying (S from) (maxRetries config) :: retries (S from) count.
Proof. reflexivity. Qed.

Lemma retryable_not_abort e :
  isRetryableError (ThrownError e) = true -> String.eqb (err_name e) "AbortError" = false.
Proof.
  rewrite isRetryableError_unfold. unfold is_abort.
  destruct (String.eqb _ _); [discriminate|reflexivity].
Qed.

Lemma loop_step remaining attempt log :
  fails_retryably attempt ->
  loop fn aborted sleep_aborted config (S remaining) attempt log
  = loop fn aborted sleep_aborted config remaining (S attempt)
      (log ++ [Retrying (S attempt) (maxRetries config)]).
Proof.
  intros (t & Hfn & Hretry & Hquiet & Hsleep). cbn [loop].
  rewrite Hfn. cbv zeta. rewrite (retryable_not_abort _ Hretry), Hquiet, Hretry, Hsleep.
  reflexivity.
Qed.

Lemma loop_succeeds count : forall remaining attempt log v,
  (forall i, (i < count)%nat -> fails_retryably (attempt + i)) ->
  fn (attempt + count) None = Returned v ->
  (count <= remaining)%nat ->
  loop fn aborted sleep_aborted config remaining attempt log
  = inl {| outcome := Returned v; calls := S (attempt + count);
           statuses := log ++ retries attempt count |}.
Proof.
  induction count as [|count IH]; intros remaining attempt log v Hfail Hok Hle.
  - rewrite Nat.add_0_r in *. unfold retries. simpl. rewrite app_nil_r.
    destruct remaining; cbn [loop]; rewrite Hok; reflexivity.
  - destruct remaining as [|remaining]; [lia|].
    rewrite loop_step by (rewrite <- (Nat.add_0_r attempt); apply Hfail; lia).
    rewrite (IH remaining (S attempt) _ v).
    + rewrite retries_cons, <- app_assoc, Nat.add_succ_r. reflexivity.
    + intros i Hi. replace (S attempt + i)%nat with (attempt + S i)%nat by lia.
      apply Hfail. lia.
    + rewrite <- Hok. f_equal. lia.
    + lia.
Qed.

Lemma loop_runs_out remaining : forall attempt log t,
  (forall i, (i < remaining)%nat -> fails_retryably (attempt + i)) ->
  fn (attempt + remaining) None = Threw t ->
  isRetryableError (ThrownError (as_error t)) = true ->
  aborted (attempt + remaining) = false ->
  loop fn aborted sleep_aborted config remaining attempt log
  = inr (as_error t, log ++ retries attempt remaining).
Proof.
  induction remaining as [|remaining IH]; intros attempt log t Hfail Hlast Hretry Hquiet.
  - rewrite Nat.add_0_r in *. unfold retries. cbn [seq List.map]. rewrite app_nil_r.
    cbn [loop]. rewrite Hlast. cbv zeta.
    rewrite (retryable_not_abort _ Hretry), Hquiet, Hretry. reflexivity.
  - rewrite loop_step by (rewrite <- (Nat.add_0_r attempt); apply Hfail; lia).
    rewrite (IH (S attempt) _ t).
    + rewrite retries_cons, <- app_assoc. reflexivity.
    + intros i Hi. replace (S attempt + i)%nat with (attempt + S i)%nat by lia.
      apply Hfail. lia.
    + rewrite <- Hlast. f_equal. lia.
    + exact Hretry.
    + rewrite <- Hquiet. f_equal. lia.
Qed.

Ltac stops_here :=
  simpl; split; [lia|]; exists O; unfold retries; simpl;
  rewrite app_nil_r; split; [lia|]; split; [lia|reflexivity].

Lemma loop_bounds remaining : forall attempt log,
  match loop fn aborted sleep_aborted config remaining attempt log with
  | inl run =>
      (attempt < calls run <= attempt + remaining + 1)%nat
      /\ exists count, (count <= remaining)%nat /\ (attempt + count <= calls run)%nat
                       /\ statuses run = log ++ retries attempt count
  | inr (_, log') => log' = log ++ retries attempt remaining
  end.
Proof.
  induction remaining as [|remaining IH]; intros attempt log; cbn [loop];
    destruct (fn attempt None) as [v|t]; cbv zeta; try stops_here;
    destruct (String.eqb (err_name (as_error t)) "AbortError" || aborted attempt);
    try stops_here;
    destruct (negb (isRetryableError (ThrownError (as_error t)))); try stops_here.
  - unfold retries. simpl. rewrite app_nil_r. reflexivity.
  - destruct (sleep_aborted attempt).
    + simpl. split; [lia|]. exists 1%nat. split; [lia|]. split; [lia|reflexivity].
    + specialize (IH (S attempt) (log ++ [Retrying (S attempt) (maxRetries config)])).
      destruct (loop _ _ _ _ remaining (S attempt) _) as [run|[e log']].
      * destruct IH as [Hcalls (count & Hle & Hcount & Hlog)]. split; [lia|].
        exists (S count). split; [lia|]. split; [lia|].
        rewrite Hlog, retries_cons, <- app_assoc. reflexivity.
      * rewrite IH, retries_cons, <- app_assoc. reflexivity.
Qed.

Lemma loop_stops_on_abort remaining : forall attempt log k,
  (attempt <= k)%nat ->
  aborted k = true \/ (sleep_aborted k = true /\ (k < attempt + remaining)%nat) ->
  match loop fn aborted sleep_aborted config remaining attempt log with
  | inl run => (calls run <= S k)%nat
  | inr _ => (attempt + remaining < k)%nat
  end.
Proof.
  induction remaining as [|remaining IH]; intros attempt log k Hle Habort; cbn [loop];
    destruct (fn attempt None) as [v|t]; cbv zeta; try (simpl; lia);
    destruct (String.eqb (err_name (as_error t)) "AbortError") eqn:Hname;
    cbn [orb]; try (simpl; lia);
    destruct (aborted attempt) eqn:Hquiet; try (simpl; lia);
    destruct (negb (isRetryableError (ThrownError (as_error t)))); try (simpl; lia).
  - destruct (decide (k = attempt)) as [->|Hne].
    + destruct Habort as [Habort|[_ Hlt]]; [congruence|lia].
    + destruct Habort as [Habort|[_ Hlt]]; lia.
  - destruct (sleep_aborted attempt) eqn:Hsleep; [simpl; lia|].
    destruct (decide (k = attempt)) as [->|Hne].
    + destruct Habort as [Habort|[Habort _]]; congruence.
    + specialize (IH (S attempt) (log ++ [Retrying (S attempt) (maxRetries config)]) k).
      destruct (loop _ _ _ _ remaining (S attempt) _) as [run|[e log']].
      * apply IH; [lia|]. destruct Habort as [?|[? ?]]; [left|right; split]; auto; lia.
      * assert (S attempt + remaining < k)%nat; [|lia].
        apply IH; [lia|]. destruct Habort as [?|[? ?]]; [left|right; split]; auto; lia.
Qed.

End Attempts.

(** A timeout reported with its duration, and a validation failure
    reported with a length: neither error has a name, a [status] or a
    [statusCode] of its own. *)
Definition slow_request : JsError := mkError "Error" "Request timeout after 400 ms".
Definition long_input : JsError := mkError "Error" "Input exceeds 500 characters".

(** C5 fails on the code.  The status of an error is looked for in its
    message as the first stand-alone run of three digits, so that a number
    which is no status is taken for one.  [slow_request] carries no status
    and its message indicates a timeout, which the claim retries: the code
    reads the duration 400 as status 400, classifies the error as not
    retryable and calls the operation once.  [long_input] matches none of
    the classes of the claim, which fails fast on it: the code reads the
    length 500 as status 500 and retries it [maxRetries] times. *)
Theorem number_in_message_read_as_status :
  statusProp slow_request = PropUndefined
  /\ err_name slow_request <> "AbortError"
  /\ transient_marker (toLowerCase (err_message slow_request)) = true
  /\ statusMatch (toLowerCase (err_message slow_request)) = Some 400
  /\ isRetryableError (ThrownError slow_request) = false
  /\ calls (withResilience (T := unit) (fun _ _ => Threw (ThrownError slow_request))
              (fun _ => false) (fun _ => false) default_config None None) = 1%nat
  /\ statusProp long_input = PropUndefined
  /\ textual_marker long_input = false
  /\ statusMatch (toLowerCase (err_message long_input)) = Some 500
  /\ isRetryableError (ThrownError long_input) = true
  /\ calls (withResilience (T := unit) (fun _ _ => Threw (ThrownError long_input))
              (fun _ => false) (fun _ => false) default_config None None) = 4%nat.
Proof. vm_compute. repeat split; try reflexivity. discriminate. Qed.

(** The wrapped call is made at least once and at most [maxRetries + 2]
    times, one of them with the fallback model; without a fallback hook at
    most [maxRetries + 1] times.  The statuses emitted are the retry
    announcements 1, 2, ... in order, at most [maxRetries] of them and
    never more than calls made, followed by at most one fallback notice. *)
Theorem withResilience_call_bound {T : Type} (fn : nat -> option string -> Outcome T)
    (aborted sleep_aborted : nat -> bool) (config : ResilienceConfig)
    (agent modelId : option string) :
  let run := withResilience fn aborted sleep_aborted config agent modelId in
  (1 <= calls run <= maxRetries config + 2)%nat
  /\ (onFallback config = None -> (calls run <= maxRetries config + 1)%nat)
  /\ exists count,
       (count <= maxRetries config)%nat /\ (count <= calls run)%nat
       /\ (statuses run = retries config 0 count
           \/ (statuses run = retries config 0 count ++ [Fallback (default "default" modelId)]
               /\ is_Some (onFallback config) /\ count = maxRetries config)).
Proof.
  cbv zeta. unfold withResilience.
  pose proof (loop_bounds fn aborted sleep_aborted config (maxRetries config) O []) as Hloop.
  destruct (loop fn aborted sleep_aborted config (maxRetries config) 0 []) as [run|[e log]].
  - destruct Hloop as [Hcalls (count & Hle & Hcount & Hlog)]. simpl in Hlog.
    split; [lia|]. split; [intros _; lia|].
    exists count. split; [exact Hle|]. split; [lia|]. left. exact Hlog.
  - simpl in Hloop. subst log.
    destruct (onFallback config) as [hook|].
    + destruct (hook _) as [[fallbackModel|]|];
        [destruct (String.eqb fallbackModel EmptyString)| |];
        simpl; (split; [lia|]); (split; [discriminate|]);
        exists (maxRetries config); (split; [lia|]); (split; [lia|]);
        right; split; eauto.
    + simpl. split; [lia|]. split; [intros _; lia|].
      exists (maxRetries config). split; [lia|]. split; [lia|]. left. reflexivity.
Qed.

(** A call that first fails [count] times with errors worth retrying and
    then succeeds, within the [maxRetries] allowed and with no abort, gives
    the value of the success after exactly [count + 1] calls and [count]
    retry announcements; the fallback hook is not consulted. *)
Theorem withResilience_recovers {T : Type} (fn : nat -> option string -> Outcome T)
    (aborted sleep_aborted : nat -> bool) (config : ResilienceConfig)
    (agent modelId : option string) (count : nat) (v : T) :
  (count <= maxRetries config)%nat ->
  (forall i, (i < count)%nat -> fails_retryably fn aborted sleep_aborted i) ->
  fn count None = Returned v ->
  withResilience fn aborted sleep_aborted config agent modelId
  = {| outcome := Returned v; calls := S count; statuses := retries config 0 count |}.
Proof.
  intros Hle Hfail Hok. unfold withResilience.
  rewrite (loop_succeeds fn aborted sleep_aborted config count (maxRetries config) O [] v);
    [reflexivity|exact Hfail|exact Hok|exact Hle].
Qed.

Lemma withResilience_recovers_witness :
  withResilience
    (fun k _ => if (k <? 2)%nat then Threw (ThrownError rate_limited) else Returned k)
    (fun _ => false) (fun _ => false) default_config None None
  = {| outcome := Returned 2%nat; calls := 3;
       statuses := [Retrying 1 3; Retrying 2 3] |}.
Proof.
  apply (withResilience_recovers
           (fun k _ => if (k <? 2)%nat then Threw (ThrownError rate_limited) else Returned k)
           (fun _ => false) (fun _ => false) default_config None None 2 2%nat).
  - simpl. lia.
  - intros i Hi. exists (ThrownError rate_limited).
    destruct i as [|[|i]]; [| |lia];
      (split; [reflexivity|]; split; [vm_compute; reflexivity|]; split; reflexivity).
  - reflexivity.
Defined.

(** Once the abort signal is seen, the wrapped call is not made again: if
    the signal is set when attempt [k] fails, or fires during the back-off
    after attempt [k] (which exists for [k < maxRetries]), then at most
    [k + 1] calls are made, however the calls answer. *)
Theorem abort_stops_retries {T : Type} (fn : nat -> option string -> Outcome T)
    (aborted sleep_aborted : nat -> bool) (config : ResilienceConfig)
    (agent modelId : option string) (k : nat) :
  aborted k = true \/ (sleep_aborted k = true /\ (k < maxRetries config)%nat) ->
  (calls (withResilience fn aborted sleep_aborted config agent modelId) <= S k)%nat.
Proof.
  intros Habort. unfold withResilience.
  pose proof (loop_stops_on_abort fn aborted sleep_aborted config (maxRetries config)
                O [] k (Nat.le_0_l k) Habort) as Hloop.
  destruct (loop fn aborted sleep_aborted config (maxRetries config) 0 []) as [run|[e log]];
    [exact Hloop|].
  simpl in Hloop.
  destruct (onFallback config) as [hook|]; [|simpl; lia].
  destruct (hook _) as [[fallbackModel|]|];
    [destruct (String.eqb fallbackModel EmptyString)| |]; simpl; lia.
Qed.

Lemma abort_stops_retries_witness :
  (calls (withResilience (fun _ _ => Threw (ThrownError rate_limited) : Outcome nat)
            (fun _ => false) (fun k => (k =? 1)%nat) default_config None None) <= 2)%nat.
Proof.
  apply (abort_stops_retries (fun _ _ => Threw (ThrownError rate_limited) : Outcome nat)
           (fun _ => false) (fun k => (k =? 1)%nat) default_config None None 1).
  right. split; [reflexivity|]. simpl. lia.
Defined.

(** When every attempt fails with an error worth retrying and nobody
    aborts, the fallback hook is asked once, with the error of the last
    attempt and [maxRetries] as the retry count.  If it names a model, the
    call is made once more with that model and its answer, good or bad, is
    the result; if it names none, the error of the last attempt is thrown;
    if the hook itself throws, that is what the caller sees. *)
Theorem withResilience_falls_back {T : Type} (fn : nat -> option string -> Outcome T)
    (aborted sleep_aborted : nat -> bool) (config : ResilienceConfig)
    (agent modelId : option string) (hook : FallbackContext -> Outcome (option string))
    (t : Thrown) :
  onFallback config = Some hook ->
  (forall i, (i < maxRetries config)%nat -> fails_retryably fn aborted sleep_aborted i) ->
  fn (maxRetries config) None = Threw t ->
  isRetryableError (ThrownError (as_error t)) = true ->
  aborted (maxRetries config) = false ->
  let run := withResilience fn aborted sleep_aborted config agent modelId in
  let asked := {| fc_agent := agent; fc_currentModel := default "default" modelId;
                  fc_retryCount := maxRetries config; fc_error := as_error t |} in
  statuses run = retries config 0 (maxRetries config) ++ [Fallback (default "default" modelId)]
  /\ match hook asked with
     | Returned (Some fallbackModel) =>
         if String.eqb fallbackModel EmptyString
         then outcome run = Threw (ThrownError (as_error t))
              /\ calls run = S (maxRetries config)
         else outcome run = fn (S (maxRetries config)) (Some fallbackModel)
              /\ calls run = S (S (maxRetries config))
     | Returned None =>
         outcome run = Threw (ThrownError (as_error t)) /\ calls run = S (maxRetries config)
     | Threw failure =>
         outcome run = Threw failure /\ calls run = S (maxRetries config)
     end.
Proof.
  intros Hhook Hfail Hlast Hretry Hquiet. cbv zeta. unfold withResilience.
  rewrite (loop_runs_out fn aborted sleep_aborted config (maxRetries config) O [] t
             Hfail Hlast Hretry Hquiet).
  rewrite Hhook. simpl.
  destruct (hook _) as [[fallbackModel|]|];
    [destruct (String.eqb fallbackModel EmptyString)| |]; simpl; repeat split; reflexivity.
Qed.

Lemma withResilience_falls_back_witness :
  outcome (withResilience
             (fun _ m => match m with
                         | Some model => Returned model
                         | None => Threw (ThrownError rate_limited)
                         end)
             (fun _ => false) (fun _ => false)
             {| maxRetries := 1; onFallback := Some (fun _ => Returned (Some "backup")) |}
             None None)
  = Returned "backup".
Proof.
  pose proof (withResilience_falls_back
           (fun _ m => match m with
                       | Some model => Returned model
                       | None => Threw (ThrownError rate_limited)
                       end)
           (fun _ => false) (fun _ => false)
           {| maxRetries := 1; onFallback := Some (fun _ => Returned (Some "backup")) |}
           None None (fun _ => Returned (Some "backup")) (ThrownError rate_limited)
           eq_refl) as H.
  simpl in H. apply H.
  - intros i Hi. exists (ThrownError rate_limited).
    split; [reflexivity|]. split; [vm_compute; reflexivity|]. split; reflexivity.
  - reflexivity.
  - vm_compute. reflexivity.
  - reflexivity.
Defined.

End Resilience.

(** * The registry of active requests (utils/request-registry.ts) *)

Module Requests.

(** [activeRequests] maps a conversation id to an [AbortController].  A
    controller is a heap object; [controllers] records, for every controller
    allocated so far, whether its signal has been aborted. *)
Record State := {
  activeRequests : gmap string nat;
  controllers : gmap nat bool
}.

Definition initial : State := {| activeRequests := ∅; controllers := ∅ |}.

(** [controller.signal.aborted] *)
Definition aborted (st : State) (c : nat) : bool := default false (controllers st !! c).

Definition cancelRequest (conversationId : string) (st : State) : bool * State :=
  match activeRequests st !! conversationId with
  | None => (false, st)
  | Some controller =>
      (true, {| activeRequests := delete conversationId (activeRequests st);
                controllers := <[controller := true]> (controllers st) |})
  end.

Definition registerRequest (conversationId : string) (st : State) : nat * State :=
  let st1 := (cancelRequest conversationId st).2 in
  let controller := fresh (dom (controllers st1)) in
  (controller, {| activeRequests := <[conversationId := controller]> (activeRequests st1);
                  controllers := <[controller := false]> (controllers st1) |}).

Definition unregisterRequest (conversationId : string) (st : State) : State :=
  {| activeRequests := delete conversationId (activeRequests st);
     controllers := controllers st |}.

(** The three exported operations, and a history of calls to them. *)
Inductive Op :=
| Register (conversationId : string)
| Cancel (conversationId : string)
| Unregister (conversationId : string).

Definition step (st : State) (op : Op) : State :=
  match op with
  | Register cid => (registerRequest cid st).2
  | Cancel cid => (cancelRequest cid st).2
  | Unregister cid => unregisterRequest cid st
  end.

Definition run (ops : list Op) : State := fold_left step ops initial.

(** Every registered controller is allocated and not aborted, and no
    controller is registered under two conversation ids. *)
Definition well_formed (st : State) : Prop :=
  (forall cid c, activeRequests st !! cid = Some c -> controllers st !! c = Some false)
  /\ (forall cid1 cid2 c, activeRequests st !! cid1 = Some c ->
        activeRequests st !! cid2 = Some c -> cid1 = cid2).

Lemma well_formed_initial : well_formed initial.
Proof. split; intros *; simpl; rewrite lookup_empty; discriminate. Qed.

Lemma well_formed_cancel cid st : well_formed st -> well_formed (cancelRequest cid st).2.
Proof.
  intros [Hlive Hinj]. unfold cancelRequest.
  destruct (activeRequests st !! cid) as [c|] eqn:Hc; [|split; assumption].
  split; simpl.
  - intros cid' c' H. apply lookup_delete_Some in H as [Hne H].
    rewrite lookup_insert_ne; [eauto|].
    intros ->. apply Hne. eapply Hinj; eassumption.
  - intros cid1 cid2 c' H1 H2.
    apply lookup_delete_Some in H1 as [_ H1]. apply lookup_delete_Some in H2 as [_ H2].
    eapply Hinj; eassumption.
Qed.

Lemma well_formed_unregister cid st : well_formed st -> well_formed (unregisterRequest cid st).
Proof.
  intros [Hlive Hinj]. split; simpl.
  - intros cid' c' H. apply lookup_delete_Some in H as [_ H]. eauto.
  - intros cid1 cid2 c' H1 H2.
    apply lookup_delete_Some in H1 as [_ H1]. apply lookup_delete_Some in H2 as [_ H2].
    eapply Hinj; eassumption.
Qed.

Lemma fresh_controller_unallocated (m : gmap nat bool) : m !! fresh (dom m) = None.
Proof. apply not_elem_of_dom. apply is_fresh. Qed.

Lemma well_formed_register cid st : well_formed st -> well_formed (registerRequest cid st).2.
Proof.
  intros Hwf. apply (well_formed_cancel cid) in Hwf.
  unfold registerRequest. set (st1 := (cancelRequest cid st).2) in *.
  destruct Hwf as [Hlive Hinj].
  pose proof (fresh_controller_unallocated (controllers st1)) as Hfresh.
  split; simpl.
  - intros cid' c' H. destruct (decide (cid = cid')) as [->|Hne].
    + rewrite lookup_insert_eq in H. injection H as <-. apply lookup_insert_eq.
    + rewrite lookup_insert_ne in H by exact Hne.
      rewrite lookup_insert_ne; [eauto|].
      intros <-. apply Hlive in H. congruence.
  - intros cid1 cid2 c' H1 H2.
    destruct (decide (cid = cid1)) as [<-|Hne1], (decide (cid = cid2)) as [<-|Hne2];
      [reflexivity| | |].
    + rewrite lookup_insert_eq in H1. injection H1 as <-.
      rewrite lookup_insert_ne in H2 by exact Hne2. apply Hlive in H2. congruence.
    + rewrite lookup_insert_eq in H2. injection H2 as <-.
      rewrite lookup_insert_ne in H1 by exact Hne1. apply Hlive in H1. congruence.
    + rewrite lookup_insert_ne in H1 by exact Hne1.
      rewrite lookup_insert_ne in H2 by exact Hne2. eapply Hinj; eassumption.
Qed.

Lemma well_formed_step st op : well_formed st -> well_formed (step st op).
Proof.
  intros Hwf. destruct op as [cid|cid|cid]; simpl.
  - apply well_formed_register, Hwf.
  - apply well_formed_cancel, Hwf.
  - apply well_formed_unregister, Hwf.
Qed.

Lemma well_formed_fold ops st : well_formed st -> well_formed (fold_left step ops st).
Proof.
  revert st. induction ops as [|op ops IH]; intros st Hwf; simpl; [exact Hwf|].
  apply IH, well_formed_step, Hwf.
Qed.

Lemma well_formed_run ops : well_formed (run ops).
Proof. apply well_formed_fold, well_formed_initial. Qed.

(** What [registerRequest] does achieve: after any history of calls,
    [registerRequest] on a conversation
    id installs a controller that was never allocated before and is not
    aborted; a controller that was registered under that id is a different
    one, was live until then, and is aborted by the call; afterwards every
    registered controller is live and is registered under one conversation
    id only.  This speaks of the controllers still registered, not of the
    requests in flight. *)
Theorem registerRequest_single_active (ops : list Op) (conversationId : string) :
  let st := run ops in
  let controller := (registerRequest conversationId st).1 in
  let st' := (registerRequest conversationId st).2 in
  activeRequests st' !! conversationId = Some controller
  /\ controllers st !! controller = None
  /\ aborted st' controller = false
  /\ (forall earlier, activeRequests st !! conversationId = Some earlier ->
        earlier <> controller /\ aborted st earlier = false /\ aborted st' earlier = true)
  /\ (forall cid c, activeRequests st' !! cid = Some c -> aborted st' c = false)
  /\ (forall cid1 cid2 c, activeRequests st' !! cid1 = Some c ->
        activeRequests st' !! cid2 = Some c -> cid1 = cid2).
Proof.
  intros st controller st'.
  pose proof (well_formed_run ops) as Hwf. fold st in Hwf.
  pose proof (well_formed_register conversationId st Hwf) as Hwf'. fold st' in Hwf'.
  destruct Hwf as [Hlive Hinj]. destruct Hwf' as [Hlive' Hinj'].
  assert (Hreg : activeRequests st' !! conversationId = Some controller).
  { subst st' controller. unfold registerRequest. simpl. apply lookup_insert_eq. }
  assert (Hfresh : controllers (cancelRequest conversationId st).2 !! controller = None).
  { subst controller. unfold registerRequest. simpl. apply fresh_controller_unallocated. }
  assert (Hnew : controllers st !! controller = None).
  { revert Hfresh. unfold cancelRequest.
    destruct (activeRequests st !! conversationId) as [c|]; simpl; [|tauto].
    intros H. destruct (decide (c = controller)) as [->|Hne].
    - rewrite lookup_insert_eq in H. discriminate.
    - rewrite lookup_insert_ne in H by exact Hne. exact H. }
  split; [exact Hreg|]. split; [exact Hnew|].
  split; [unfold aborted; rewrite (Hlive' _ _ Hreg); reflexivity|].
  split.
  { intros earlier Hearlier. pose proof (Hlive _ _ Hearlier) as Hl.
    split; [congruence|]. split; [unfold aborted; rewrite Hl; reflexivity|].
    assert (Hne : controller <> earlier) by congruence.
    subst st'. unfold aborted, registerRequest. simpl.
    rewrite lookup_insert_ne by exact Hne.
    unfold cancelRequest. rewrite Hearlier. simpl. rewrite lookup_insert_eq. reflexivity. }
  split; [|exact Hinj'].
  intros cid c H. unfold aborted. rewrite (Hlive' _ _ H). reflexivity.
Qed.

(** A second request on conversation ["conv_1"] while the first is in flight. *)
Lemma registerRequest_single_active_witness :
  let st := run [Register "conv_1"] in
  aborted (registerRequest "conv_1" st).2 0%nat = true
  /\ activeRequests (registerRequest "conv_1" st).2 !! "conv_1" = Some 1%nat.
Proof.
  destruct (registerRequest_single_active [Register "conv_1"] "conv_1")
    as (Hreg & _ & _ & Hearlier & _).
  split.
  - apply (Hearlier 0%nat). vm_compute. reflexivity.
  - exact Hreg.
Defined.

(** ** Further behaviour of the registry *)

(** Cancelling reports whether a request was registered, aborts its
    controller and forgets it; a second cancel finds nothing and changes
    nothing. *)
Theorem cancelRequest_twice (conversationId : string) (st : State) :
  ((cancelRequest conversationId st).1 = true <-> is_Some (activeRequests st !! conversationId))
  /\ (forall c, activeRequests st !! conversationId = Some c ->
        aborted (cancelRequest conversationId st).2 c = true)
  /\ activeRequests (cancelRequest conversationId st).2 !! conversationId = None
  /\ cancelRequest conversationId (cancelRequest conversationId st).2
     = (false, (cancelRequest conversationId st).2).
Proof.
  unfold cancelRequest.
  destruct (activeRequests st !! conversationId) as [c|] eqn:Hc; simpl.
  - split; [split; [eauto|reflexivity]|].
    split; [intros c' [= <-]; unfold aborted; simpl; rewrite lookup_insert_eq; reflexivity|].
    rewrite lookup_delete_eq. split; reflexivity.
  - rewrite Hc. split; [split; [discriminate|intros [? ?]; discriminate]|].
    split; [discriminate|]. split; reflexivity.
Qed.

(** [unregisterRequest] forgets whatever is registered under the id.  When
    a second request has taken over the id of a first one, the clean-up of
    the first removes the registration of the second: the second stays
    un-aborted, and a later [cancelRequest] finds nothing to cancel. *)
Theorem stale_unregister_orphans_request (conversationId : string) (st : State) :
  let first := registerRequest conversationId st in
  let second := registerRequest conversationId first.2 in
  let st' := unregisterRequest conversationId second.2 in
  aborted st' first.1 = true
  /\ first.1 <> second.1
  /\ aborted st' second.1 = false
  /\ activeRequests st' !! conversationId = None
  /\ cancelRequest conversationId st' = (false, st').
Proof.
  intros first second st'.
  assert (Hreg1 : activeRequests first.2 !! conversationId = Some first.1).
  { unfold first, registerRequest. simpl. apply lookup_insert_eq. }
  assert (Hc1 : controllers (cancelRequest conversationId first.2).2 !! first.1 = Some true).
  { unfold cancelRequest. rewrite Hreg1. simpl. apply lookup_insert_eq. }
  assert (Hne : first.1 <> second.1).
  { intros Heq.
    pose proof (fresh_controller_unallocated (controllers (cancelRequest conversationId first.2).2))
      as Hfresh.
    change (fresh (dom (controllers (cancelRequest conversationId first.2).2)))
      with second.1 in Hfresh.
    rewrite <- Heq in Hfresh. congruence. }
  assert (Hnone : activeRequests st' !! conversationId = None).
  { unfold st', unregisterRequest. simpl. apply lookup_delete_eq. }
  split.
  { unfold aborted, st', unregisterRequest, second, registerRequest. simpl.
    rewrite lookup_insert_ne by (exact (fun H => Hne (eq_sym H))).
    change (default false (controllers (cancelRequest conversationId first.2).2 !! first.1)
            = true).
    rewrite Hc1. reflexivity. }
  split; [exact Hne|]. split.
  { unfold aborted, st', unregisterRequest, second, registerRequest. simpl.
    rewrite lookup_insert_eq. reflexivity. }
  split; [exact Hnone|].
  unfold cancelRequest. rewrite Hnone. reflexivity.
Qed.

(** C10 fails on the requests in flight.  The handler of a request ends
    with [unregisterRequest(convId)], which deletes whatever is registered
    under the id.  Take three requests on one conversation id: the second
    aborts the first; the first, on its way out, unregisters the id and so
    removes the entry of the second; the third then finds nothing to abort.
    The second and the third request are in flight together, each with a
    controller that is not aborted, and only the third can still be
    cancelled. *)
Theorem stale_unregister_allows_two_active (conversationId : string) (st : State) :
  let first := registerRequest conversationId st in
  let second := registerRequest conversationId first.2 in
  let after_first_ends := unregisterRequest conversationId second.2 in
  let third := registerRequest conversationId after_first_ends in
  second.1 <> third.1
  /\ aborted third.2 second.1 = false
  /\ aborted third.2 third.1 = false
  /\ activeRequests third.2 !! conversationId = Some third.1
  /\ aborted (cancelRequest conversationId third.2).2 second.1 = false.
Proof.
  intros first second after_first_ends third.
  assert (Hnone : activeRequests after_first_ends !! conversationId = None).
  { unfold after_first_ends, unregisterRequest. simpl. apply lookup_delete_eq. }
  assert (Hcancel : cancelRequest conversationId after_first_ends = (false, after_first_ends)).
  { unfold cancelRequest. rewrite Hnone. reflexivity. }
  assert (Hsecond : controllers after_first_ends !! second.1 = Some false).
  { unfold after_first_ends, unregisterRequest, second, registerRequest. simpl.
    apply lookup_insert_eq. }
  assert (Hthird : third.1 = fresh (dom (controllers after_first_ends))).
  { unfold third, registerRequest. rewrite Hcancel. reflexivity. }
  assert (Hne : second.1 <> third.1).
  { intros Heq. pose proof (fresh_controller_unallocated (controllers after_first_ends)) as H.
    rewrite <- Hthird, <- Heq, Hsecond in H. discriminate H. }
  assert (Hcontrollers : controllers third.2
                         = <[third.1 := false]> (controllers after_first_ends)).
  { unfold third, registerRequest. rewrite Hcancel. reflexivity. }
  assert (Hactive : activeRequests third.2 !! conversationId = Some third.1).
  { unfold third, registerRequest. simpl. apply lookup_insert_eq. }
  assert (Hlive : aborted third.2 second.1 = false).
  { unfold aborted. rewrite Hcontrollers.
    rewrite lookup_insert_ne by (exact (fun H => Hne (eq_sym H))).
    rewrite Hsecond. reflexivity. }
  split; [exact Hne|]. split; [exact Hlive|]. split.
  { unfold aborted. rewrite Hcontrollers, lookup_insert_eq. reflexivity. }
  split; [exact Hactive|].
  unfold cancelRequest. rewrite Hactive. unfold aborted. cbn [snd controllers].
  rewrite lookup_insert_ne by (exact (fun H => Hne (eq_sym H))).
  exact Hlive.
Qed.

(** The conversation id an operation works on. *)
Definition op_id (op : Op) : string :=
  match op with
  | Register cid | Cancel cid | Unregister cid => cid
  end.

(** An operation on one conversation id leaves the requests of the other
    ids alone: their registration stays, and their controller is neither
    replaced nor aborted. *)
Theorem other_conversations_untouched (ops : list Op) (op : Op) (other : string) (c : nat) :
  op_id op <> other ->
  activeRequests (run ops) !! other = Some c ->
  activeRequests (step (run ops) op) !! other = Some c
  /\ aborted (step (run ops) op) c = false.
Proof.
  intros Hne Hreg.
  pose proof (well_formed_run ops) as Hwf.
  assert (Hkeep : activeRequests (step (run ops) op) !! other = Some c).
  { destruct op as [cid|cid|cid]; simpl in *.
    - rewrite lookup_insert_ne by exact Hne. unfold cancelRequest.
      destruct (activeRequests (run ops) !! cid); simpl;
        [rewrite lookup_delete_ne by exact Hne|]; exact Hreg.
    - unfold cancelRequest.
      destruct (activeRequests (run ops) !! cid); simpl;
        [rewrite lookup_delete_ne by exact Hne|]; exact Hreg.
    - rewrite lookup_delete_ne by exact Hne. exact Hreg. }
  split; [exact Hkeep|].
  destruct (well_formed_step (run ops) op Hwf) as [Hlive _].
  unfold aborted. rewrite (Hlive _ _ Hkeep). reflexivity.
Qed.

Lemma other_conversations_untouched_witness :
  activeRequests (step (run [Register "a"; Register "b"]) (Cancel "a")) !! "b" = Some 1%nat
  /\ aborted (step (run [Register "a"; Register "b"]) (Cancel "a")) 1%nat = false.
Proof.
  apply (other_conversations_untouched [Register "a"; Register "b"] (Cancel "a") "b" 1%nat).
  - discriminate.
  - vm_compute. reflexivity.
Defined.

End Requests.

(** * The task executor (agents/execute-task.ts) *)

Module Delegation.
Import Usage.

Record ClarifyItem := {
  ci_type : string;
  ci_text : string;
  ci_choices : option (list string);
  ci_context : option string
}.

(** What [runAgent] returns. *)
Record AgentResult := {
  response : string;
  items : option (list ClarifyItem);
  toolsUsed : list string;
  usage : option UsageInfo
}.

Record TaskResult := {
  agent : string;
  query : string;
  result : AgentResult;
  responseSkills : option (list string)
}.

Definition errorResult (agent query message : string) : TaskResult :=
  {| agent := agent; query := query;
     result := {| response := message; items := None; toolsUsed := []; usage := None |};
     responseSkills := None |}.

(** ** The agent registry (registry/agent-registry.ts) *)

Record GuardResult := {
  allowed : bool;
  reason : option string
}.

(** [tools] holds the keys of the [tools] record when the registration has
    one; [guard] is code of the host and may throw or reject. *)
Record AgentRegistration := {
  name : string;
  defaultSystem : string;
  tools : option (list string);
  isOrchestrator : bool;
  disableMemoryTool : bool;
  guard : option (string -> string -> Outcome GuardResult)
}.

Record AgentRegistry := {
  agents : gmap string AgentRegistration;
  promptOverrides : gmap string string
}.

Definition register (registration : AgentRegistration) (r : AgentRegistry) : AgentRegistry :=
  {| agents := <[name registration := registration]> (agents r);
     promptOverrides := promptOverrides r |}.

Definition get (r : AgentRegistry) (agentName : string) : option AgentRegistration :=
  agents r !! agentName.

Definition getResolvedPrompt (r : AgentRegistry) (agentName : string) : option string :=
  match agents r !! agentName with
  | None => None
  | Some a => Some (default (defaultSystem a) (promptOverrides r !! agentName))
  end.

Definition getOrchestratorNames (r : AgentRegistry) : gset string :=
  list_to_set (name <$> filter (fun a => isOrchestrator a = true) (map_to_list (agents r)).*2).

(** ** Delegation context (utils/delegation-context.ts) *)

(** [events] tells whether the context carries an event bus; the events
    emitted on it are collected in the order of emission. *)
Record DelegationContext := {
  chain : list string;
  depth : Z;
  events : bool;
  abortSignal : option nat;
  orchestrator : option string
}.

Inductive BusEvent :=
| SKILL_INJECT (agentName : string) (skills : list string) (phase : string)
| DELEGATE_START (from to query : string)
| DELEGATE_END (from to summary : string) (error : bool)
| AGENT_START (agentName : string)
| AGENT_END (agentName : string) (error : option string)
| STATUS (code message agentName : string).

Record Skill := {
  skill_name : string;
  skill_content : string;
  skill_phase : string
}.

Record PluginContext := {
  ctx_agents : AgentRegistry;
  maxDelegationDepth : Z;
  getSkill : string -> Outcome (option Skill)
}.

(** The argument [runAgent] receives, with the names of the tools handed to it. *)
Record AgentConfig := {
  system : string;
  cfg_tools : list string;
  agentName : string
}.

Definition SUMMARY_LENGTH_LIMIT : nat := 200.

Definition MEMORY_PROMPT_SUFFIX : string :=
  String "010" (String "010" "You have access to a memory tool for storing and retrieving information. Use it to remember important facts, user preferences, or intermediate results. Actions: set (save), get (retrieve by key), list (show all), delete (remove).").

Definition nl : string := String "010" EmptyString.

(** A double quote character. *)
Definition dq : string := String "034" EmptyString.

Definition CLARIFY_PROMPT_SUFFIX : string :=
  nl +:+ nl +:+ "IMPORTANT: If the user's query is vague or lacks specifics needed to give a good answer, you MUST use the clarify tool to ask for more information. Do NOT guess, do NOT ask in plain text, and do NOT proceed without the needed details. Call clarify with items like: {items: [{type: "
    +:+ dq +:+ "question" +:+ dq +:+ ", text: " +:+ dq +:+ "Your question here" +:+ dq
    +:+ ", context: " +:+ dq +:+ "Why you need this" +:+ dq +:+ "}]}.".

(** [bus?.emit(...)] *)
Definition emit (bus : bool) (e : BusEvent) : list BusEvent := if bus then [e] else [].

(** ** The skills loop *)

Record SkillSelection := {
  skillSections : list string;
  querySkillNames : list string;
  responseSkillNames : list string
}.

Definition no_skills : SkillSelection :=
  {| skillSections := []; querySkillNames := []; responseSkillNames := [] |}.

Definition add_skill (skill : Skill) (acc : SkillSelection) : SkillSelection :=
  let in_query := String.eqb (skill_phase skill) "query" || String.eqb (skill_phase skill) "both" in
  let in_response := String.eqb (skill_phase skill) "response" || String.eqb (skill_phase skill) "both" in
  {| skillSections :=
       if in_query
       then skillSections acc ++ ["### " +:+ skill_name skill +:+ nl +:+ skill_content skill]
       else skillSections acc;
     querySkillNames :=
       if in_query then querySkillNames acc ++ [skill_name skill] else querySkillNames acc;
     responseSkillNames :=
       if in_response then responseSkillNames acc ++ [skill_name skill]
       else responseSkillNames acc |}.

(** [for (const skillName of skills)]: a lookup that throws ends the loop
    and the call. *)
Fixpoint load_skills (lookup : string -> Outcome (option Skill)) (skills : list string)
    (acc : SkillSelection) : Outcome SkillSelection :=
  match skills with
  | [] => Returned acc
  | skillName :: rest =>
      match lookup skillName with
      | Threw t => Threw t
      | Returned None => load_skills lookup rest acc
      | Returned (Some skill) => load_skills lookup rest (add_skill skill acc)
      end
  end.

Definition with_skill_sections (systemPrompt : string) (sel : SkillSelection) : string :=
  match skillSections sel with
  | [] => systemPrompt
  | sections =>
      systemPrompt +:+ nl +:+ nl +:+ "# Active Skills" +:+ nl
        +:+ "Apply the following behavioral instructions to your response:" +:+ nl +:+ nl
        +:+ join (nl +:+ nl) sections
  end.

Definition augmentedSystem (registration : AgentRegistration) (systemPrompt : string) : string :=
  if disableMemoryTool registration
  then systemPrompt +:+ CLARIFY_PROMPT_SUFFIX
  else systemPrompt +:+ CLARIFY_PROMPT_SUFFIX +:+ MEMORY_PROMPT_SUFFIX.

(** [{ ...registration.tools, clarify }], then [memory] unless disabled. *)
Definition augmentedTools (registration : AgentRegistration) : list string :=
  uniq (default [] (tools registration) ++ ["clarify"]
        ++ (if disableMemoryTool registration then [] else ["memory"])).

Definition childCtx (parentCtx : option DelegationContext) (agent : string) : DelegationContext :=
  {| chain := from_option chain [] parentCtx ++ [agent];
     depth := from_option depth 0 parentCtx + 1;
     events := from_option events false parentCtx;
     abortSignal := parentCtx ≫= abortSignal;
     orchestrator := None |}.

Definition no_tools (registration : AgentRegistration) : bool :=
  match tools registration with
  | None => true
  | Some [] => true
  | Some _ => false
  end.

Definition arrow : string := " → ".

(** ** [executeTask] *)

Section ExecuteTask.
Variable ctx : PluginContext.
Variable runAgent : AgentConfig -> string -> DelegationContext -> Outcome AgentResult.
(** [delegationStore.getStore()] *)
Variable parentCtx : option DelegationContext.

(** [from]: the last agent of the chain, or else the orchestrator of the
    request, or else the target itself. *)
Definition delegator (agent : string) : string :=
  match last (from_option chain [] parentCtx) with
  | Some caller => caller
  | None => default agent (parentCtx ≫= orchestrator)
  end.

(** What [runAgent] is called with: the resolved prompt with the query
    skills and the two fixed suffixes, and the augmented tool set. *)
Definition agent_config (registration : AgentRegistration) (agent : string)
    (sel : SkillSelection) : AgentConfig :=
  let systemPrompt :=
    with_skill_sections (default EmptyString (getResolvedPrompt (ctx_agents ctx) agent)) sel in
  {| system := augmentedSystem registration systemPrompt;
     cfg_tools := augmentedTools registration;
     agentName := agent |}.

(** The part of [executeTask] after the legality checks. *)
Definition delegate (registration : AgentRegistration) (agent query : string)
    (skills : option (list string)) : list BusEvent * Outcome TaskResult :=
  let chain := from_option chain [] parentCtx in
  let bus := from_option events false parentCtx in
  let from := delegator agent in
  match load_skills (getSkill ctx) (default [] skills) no_skills with
  | Threw t => ([], Threw t)
  | Returned sel =>
      let log1 :=
        (match querySkillNames sel with
         | [] => []
         | names => emit bus (SKILL_INJECT agent names "query")
         end) ++ emit bus (DELEGATE_START from agent query) in
      let run_agent (log : list BusEvent) :=
        let log2 := log ++ emit bus (AGENT_START agent)
                        ++ emit bus (STATUS "processing" "Agent starting work" agent) in
        match runAgent (agent_config registration agent sel) query
                (childCtx parentCtx agent) with
        | Returned res =>
            (log2 ++ emit bus (AGENT_END agent None)
                  ++ emit bus (DELEGATE_END from agent
                                 (slice0 SUMMARY_LENGTH_LIMIT (response res)) false),
             Returned {| agent := agent; query := query; result := res;
                         responseSkills := match responseSkillNames sel with
                                           | [] => None
                                           | names => Some names
                                           end |})
        | Threw err =>
            let message := thrown_message err in
            (log2 ++ emit bus (AGENT_END agent (Some (slice0 SUMMARY_LENGTH_LIMIT message)))
                  ++ emit bus (DELEGATE_END from agent
                                 ("Error: " +:+ slice0 SUMMARY_LENGTH_LIMIT message) true),
             Returned (errorResult agent query ("Agent execution failed: " +:+ message)))
        end in
      match guard registration with
      | None => run_agent log1
      | Some check =>
          let log2 := log1 ++ emit bus (STATUS "guard-check" "Running pre-execution guard" agent) in
          match check query agent with
          | Threw t => (log2, Threw t)
          | Returned guardResult =>
              if allowed guardResult then run_agent log2
              else
                (log2 ++ emit bus (DELEGATE_END from agent
                                     ("Blocked: " +:+ default "guard rejected" (reason guardResult))
                                     true),
                 Returned (errorResult agent query
                             ("Guard blocked: " +:+ default "query not allowed" (reason guardResult))))
          end
      end
  end.

Definition executeTask (agent query : string) (skills : option (list string))
    : list BusEvent * Outcome TaskResult :=
  match get (ctx_agents ctx) agent with
  | None => ([], Returned (errorResult agent query ("Unknown agent: " +:+ agent)))
  | Some registration =>
      if bool_decide (agent ∈ getOrchestratorNames (ctx_agents ctx))
      then ([], Returned (errorResult agent query
              ("Agent " +:+ dq +:+ agent +:+ dq +:+ " is an orchestrator and cannot be delegated to")))
      else if no_tools registration
      then ([], Returned (errorResult agent query
              ("Agent " +:+ dq +:+ agent +:+ dq +:+ " does not support task execution")))
      else
        let chain := from_option chain [] parentCtx in
        let depth := from_option depth 0 parentCtx in
        if maxDelegationDepth ctx <=? depth
        then ([], Returned (errorResult agent query
                ("Delegation depth limit (" +:+ pretty (maxDelegationDepth ctx)
                 +:+ ") exceeded. Chain: " +:+ join arrow chain +:+ arrow +:+ agent)))
        else if bool_decide (last chain = Some agent)
        then ([], Returned (errorResult agent query
                ("Self-delegation blocked: " +:+ dq +:+ agent +:+ dq +:+ " cannot delegate to itself")))
        else if bool_decide (agent ∈ chain)
        then ([], Returned (errorResult agent query
                ("Circular delegation blocked: " +:+ join arrow chain +:+ arrow +:+ agent)))
        else delegate registration agent query skills
  end.
End ExecuteTask.

(** ** The legality checks, in the order the specification lists them *)

Inductive Check :=
| UnknownAgent
| TargetIsOrchestrator
| TargetHasNoTools
| DepthLimitReached
| SelfDelegation
| CircularDelegation.

Definition checks_in_order : list Check :=
  [UnknownAgent; TargetIsOrchestrator; TargetHasNoTools;
   DepthLimitReached; SelfDelegation; CircularDelegation].

Section Legality.
Variable ctx : PluginContext.
Variable parentCtx : option DelegationContext.
Variable agent : string.

Let chain_now : list string := from_option chain [] parentCtx.
Let depth_now : Z := from_option depth 0 parentCtx.

(** Whether the call violates one check, taken on its own. *)
Definition violates (c : Check) : bool :=
  match c with
  | UnknownAgent => bool_decide (get (ctx_agents ctx) agent = None)
  | TargetIsOrchestrator => bool_decide (agent ∈ getOrchestratorNames (ctx_agents ctx))
  | TargetHasNoTools => from_option no_tools false (get (ctx_agents ctx) agent)
  | DepthLimitReached => maxDelegationDepth ctx <=? depth_now
  | SelfDelegation => bool_decide (last chain_now = Some agent)
  | CircularDelegation => bool_decide (agent ∈ chain_now)
  end.

(** The first check of the list that the call violates. *)
Definition first_violation : option Check := List.find violates checks_in_order.

(** The message of the error result each check produces. *)
Definition rejection (c : Check) : string :=
  match c with
  | UnknownAgent => "Unknown agent: " +:+ agent
  | TargetIsOrchestrator =>
      "Agent " +:+ dq +:+ agent +:+ dq +:+ " is an orchestrator and cannot be delegated to"
  | TargetHasNoTools =>
      "Agent " +:+ dq +:+ agent +:+ dq +:+ " does not support task execution"
  | DepthLimitReached =>
      "Delegation depth limit (" +:+ pretty (maxDelegationDepth ctx)
        +:+ ") exceeded. Chain: " +:+ join arrow chain_now +:+ arrow +:+ agent
  | SelfDelegation =>
      "Self-delegation blocked: " +:+ dq +:+ agent +:+ dq +:+ " cannot delegate to itself"
  | CircularDelegation =>
      "Circular delegation blocked: " +:+ join arrow chain_now +:+ arrow +:+ agent
  end.

Variable runAgent : AgentConfig -> string -> DelegationContext -> Outcome AgentResult.
Variables (query : string) (skills : option (list string)).

(** The call is answered by an error result and nothing else happens:
    no event is emitted, no collaborator is consulted. *)
Definition rejected : Prop :=
  exists message,
    executeTask ctx runAgent parentCtx agent query skills
    = ([], Returned (errorResult agent query message)).

Lemma executeTask_first_violation c :
  first_violation = Some c ->
  executeTask ctx runAgent parentCtx agent query skills
  = ([], Returned (errorResult agent query (rejection c))).
Proof.
  unfold first_violation, checks_in_order, executeTask. cbn [List.find violates].
  fold chain_now depth_now.
  destruct (get (ctx_agents ctx) agent) as [registration|] eqn:Hget.
  - rewrite bool_decide_eq_false_2 by discriminate. cbn [from_option].
    destruct (bool_decide (agent ∈ getOrchestratorNames (ctx_agents ctx)));
      [intros [= <-]; reflexivity|].
    destruct (no_tools registration); [intros [= <-]; reflexivity|].
    destruct (maxDelegationDepth ctx <=? depth_now); [intros [= <-]; reflexivity|].
    destruct (bool_decide (last chain_now = Some agent)); [intros [= <-]; reflexivity|].
    destruct (bool_decide (agent ∈ chain_now)); [intros [= <-]; reflexivity|].
    discriminate.
  - rewrite bool_decide_eq_true_2 by reflexivity. intros [= <-]. reflexivity.
Qed.

Lemma violation_rejected c : violates c = true -> rejected.
Proof.
  intros Hv.
  destruct first_violation as [c'|] eqn:Hfirst.
  - exists (rejection c'). apply executeTask_first_violation, Hfirst.
  - exfalso. unfold first_violation in Hfirst.
    pose proof (List.find_none _ _ Hfirst c) as Hnone.
    rewrite Hv in Hnone. enough (false = true) by discriminate. symmetry. apply Hnone.
    unfold checks_in_order. destruct c; simpl; tauto.
Qed.
End Legality.

(** C1: [executeTask] answers a call that violates one of the six legality
    checks with the error result of the first check violated, in the order
    unknown agent, target is an orchestrator, target has no tools, depth
    limit reached, immediate self-delegation, target already in the chain;
    it emits no event and throws nothing, whatever the collaborators would
    do.  In particular a target that ends the chain or occurs anywhere in
    it is rejected whatever the depth limit is, and so is every call made at
    a depth that has reached [maxDelegationDepth]. *)
Theorem executeTask_legality ctx runAgent parentCtx agent query skills :
  (forall c, first_violation ctx parentCtx agent = Some c ->
     executeTask ctx runAgent parentCtx agent query skills
     = ([], Returned (errorResult agent query (rejection ctx parentCtx agent c))))
  /\ (forall c, violates ctx parentCtx agent c = true ->
        rejected ctx parentCtx agent runAgent query skills)
  /\ (last (from_option chain [] parentCtx) = Some agent ->
        rejected ctx parentCtx agent runAgent query skills)
  /\ (agent ∈ from_option chain [] parentCtx ->
        rejected ctx parentCtx agent runAgent query skills)
  /\ (maxDelegationDepth ctx <= from_option depth 0 parentCtx ->
        rejected ctx parentCtx agent runAgent query skills).
Proof.
  split; [intros c; apply executeTask_first_violation|].
  split; [intros c; apply violation_rejected|].
  split; [|split].
  - intros H. apply (violation_rejected _ _ _ _ _ _ SelfDelegation).
    simpl. apply bool_decide_eq_true_2, H.
  - intros H. apply (violation_rejected _ _ _ _ _ _ CircularDelegation).
    simpl. apply bool_decide_eq_true_2, H.
  - intros H. apply (violation_rejected _ _ _ _ _ _ DepthLimitReached).
    simpl. apply Z.leb_le, H.
Qed.

Section Containment.
Variable ctx : PluginContext.
Variable runAgent : AgentConfig -> string -> DelegationContext -> Outcome AgentResult.
Variable parentCtx : option DelegationContext.
Variables (agent query : string) (skills : option (list string)).

Lemma legal_call registration :
  first_violation ctx parentCtx agent = None ->
  get (ctx_agents ctx) agent = Some registration ->
  executeTask ctx runAgent parentCtx agent query skills
  = delegate ctx runAgent parentCtx registration agent query skills.
Proof.
  intros Hnone Hget. unfold first_violation in Hnone.
  assert (Hall : forall c, violates ctx parentCtx agent c = false).
  { intros c. apply (List.find_none _ _ Hnone c).
    unfold checks_in_order. destruct c; simpl; tauto. }
  unfold executeTask. rewrite Hget.
  pose proof (Hall TargetIsOrchestrator) as H2. simpl in H2. rewrite H2.
  pose proof (Hall TargetHasNoTools) as H3. simpl in H3. rewrite Hget in H3.
  simpl in H3. rewrite H3.
  pose proof (Hall DepthLimitReached) as H4. simpl in H4. rewrite H4.
  pose proof (Hall SelfDelegation) as H5. simpl in H5. rewrite H5.
  pose proof (Hall CircularDelegation) as H6. simpl in H6. rewrite H6.
  reflexivity.
Qed.

Lemma delegate_throws registration log t :
  delegate ctx runAgent parentCtx registration agent query skills = (log, Threw t) ->
  load_skills (getSkill ctx) (default [] skills) no_skills = Threw t
  \/ exists check, guard registration = Some check /\ check query agent = Threw t.
Proof.
  unfold delegate.
  destruct (load_skills _ _ _) as [sel|t'] eqn:Hsel; [|intros [= _ <-]; left; reflexivity].
  destruct (guard registration) as [check|] eqn:Hguard.
  - destruct (check query agent) as [gr|t'] eqn:Hcheck.
    + destruct (allowed gr); [|discriminate].
      destruct (runAgent _ _ _); discriminate.
    + intros [= _ <-]. right. eauto.
  - destruct (runAgent _ _ _); discriminate.
Qed.

Lemma executeTask_throws log t :
  executeTask ctx runAgent parentCtx agent query skills = (log, Threw t) ->
  load_skills (getSkill ctx) (default [] skills) no_skills = Threw t
  \/ exists registration check,
       get (ctx_agents ctx) agent = Some registration
       /\ guard registration = Some check /\ check query agent = Threw t.
Proof.
  unfold executeTask.
  destruct (get (ctx_agents ctx) agent) as [registration|] eqn:Hget; [|discriminate].
  repeat (match goal with |- context [if ?b then _ else _] => destruct b end;
          [discriminate|]).
  intros H. apply delegate_throws in H as [H|[check H]]; [left; exact H|].
  right. eauto.
Qed.

(** The guard is absent or lets the query through. *)
Definition guard_passes (registration : AgentRegistration) : Prop :=
  guard registration = None
  \/ exists check guardResult,
       guard registration = Some check
       /\ check query agent = Returned guardResult /\ allowed guardResult = true.

Lemma delegate_agent_failure registration sel err :
  load_skills (getSkill ctx) (default [] skills) no_skills = Returned sel ->
  guard_passes registration ->
  runAgent (agent_config ctx registration agent sel) query (childCtx parentCtx agent)
  = Threw err ->
  (delegate ctx runAgent parentCtx registration agent query skills).2
  = Returned (errorResult agent query ("Agent execution failed: " +:+ thrown_message err)).
Proof.
  intros Hsel Hguard Hrun. unfold delegate. rewrite Hsel.
  destruct Hguard as [->|(check & gr & -> & -> & ->)]; rewrite Hrun; reflexivity.
Qed.

Lemma delegate_guard_blocked registration sel check guardResult :
  load_skills (getSkill ctx) (default [] skills) no_skills = Returned sel ->
  guard registration = Some check ->
  check query agent = Returned guardResult ->
  allowed guardResult = false ->
  (delegate ctx runAgent parentCtx registration agent query skills).2
  = Returned (errorResult agent query
                ("Guard blocked: " +:+ default "query not allowed" (reason guardResult)))
  /\ (from_option events false parentCtx = true ->
      last (delegate ctx runAgent parentCtx registration agent query skills).1
      = Some (DELEGATE_END (delegator parentCtx agent) agent
                ("Blocked: " +:+ default "guard rejected" (reason guardResult)) true))
  /\ (forall runAgent',
        delegate ctx runAgent' parentCtx registration agent query skills
        = delegate ctx runAgent parentCtx registration agent query skills).
Proof.
  intros Hsel Hguard Hcheck Hno. unfold delegate. rewrite Hsel, Hguard, Hcheck, Hno.
  split; [reflexivity|]. split; [|reflexivity].
  intros ->. cbn [fst emit]. rewrite last_snoc. reflexivity.
Qed.
End Containment.

(** ** A small registry to run the executor on *)

Definition weather : AgentRegistration :=
  {| name := "weather"; defaultSystem := "You are a weather specialist agent.";
     tools := Some ["getWeather"]; isOrchestrator := false;
     disableMemoryTool := false; guard := None |}.

Definition supervisor : AgentRegistration :=
  {| name := "supervisor"; defaultSystem := "You are an orchestrator agent.";
     tools := None; isOrchestrator := true;
     disableMemoryTool := false; guard := None |}.

(** An agent whose guard calls a policy service that is down. *)
Definition billing : AgentRegistration :=
  {| name := "billing"; defaultSystem := "You answer billing questions.";
     tools := Some ["getInvoice"]; isOrchestrator := false;
     disableMemoryTool := true;
     guard := Some (fun _ _ => Threw (ThrownError (mkError "Error" "policy service unavailable"))) |}.

(** An agent whose guard turns every query down. *)
Definition vault : AgentRegistration :=
  {| name := "vault"; defaultSystem := "You keep secrets.";
     tools := Some ["readSecret"]; isOrchestrator := false;
     disableMemoryTool := true;
     guard := Some (fun _ _ => Returned {| allowed := false; reason := Some "restricted" |}) |}.

Definition demo_registry : AgentRegistry :=
  register vault (register billing (register supervisor (register weather
    {| agents := ∅; promptOverrides := ∅ |}))).

Definition demo_ctx : PluginContext :=
  {| ctx_agents := demo_registry; maxDelegationDepth := 3;
     getSkill := fun _ => Returned None |}.

(** A model call that fails. *)
Definition failing_agent : AgentConfig -> string -> DelegationContext -> Outcome AgentResult :=
  fun _ _ _ => Threw (ThrownError (mkError "Error" "upstream exploded")).

Definition under (callers : list string) : option DelegationContext :=
  Some {| chain := callers; depth := Z.of_nat (length callers); events := true;
          abortSignal := None; orchestrator := Some "supervisor" |}.

(** The weather agent, two hops down, asks for itself again: rejected as a
    self-delegation; and the supervisor is rejected as an orchestrator. *)
Lemma executeTask_legality_witness :
  executeTask demo_ctx failing_agent (under ["supervisor"; "weather"]) "weather" "rain?" None
  = ([], Returned (errorResult "weather" "rain?"
       ("Self-delegation blocked: " +:+ dq +:+ "weather" +:+ dq +:+ " cannot delegate to itself")))
  /\ rejected demo_ctx (under ["weather"]) "supervisor" failing_agent "route this" None.
Proof.
  split.
  - apply (proj1 (executeTask_legality demo_ctx failing_agent
                    (under ["supervisor"; "weather"]) "weather" "rain?" None) SelfDelegation).
    vm_compute. reflexivity.
  - apply (proj1 (proj2 (executeTask_legality demo_ctx failing_agent
                    (under ["weather"]) "supervisor" "route this" None)) TargetIsOrchestrator).
    vm_compute. reflexivity.
Defined.

(** C2, as stated, fails: [executeTask] can throw.  The guard is awaited
    outside the [try] block, so the exception of a guard that fails, instead
    of answering, leaves [executeTask]; so does an exception of the skill
    store. *)
Lemma guard_exception_escapes :
  (executeTask demo_ctx failing_agent (under ["supervisor"]) "billing" "invoice 7?" None).2
  = Threw (ThrownError (mkError "Error" "policy service unavailable")).
Proof. vm_compute. reflexivity. Qed.

(** C2, amended: [executeTask] throws only what a skill lookup or the
    guard itself throws.  Once the legality checks have passed and the
    skills are loaded, an exception raised by the agent invocation is
    caught and becomes the error result ["Agent execution failed: "]
    followed by its message; and a guard answering "not allowed" ends the
    call with the error result ["Guard blocked: "] followed by its reason,
    reports a [delegate:end] event marked as an error whose summary starts
    with ["Blocked: "], and the agent is not invoked. *)
Theorem executeTask_contains_failures ctx runAgent parentCtx agent query skills :
  (forall log t,
     executeTask ctx runAgent parentCtx agent query skills = (log, Threw t) ->
     load_skills (getSkill ctx) (default [] skills) no_skills = Threw t
     \/ exists registration check,
          get (ctx_agents ctx) agent = Some registration
          /\ guard registration = Some check /\ check query agent = Threw t)
  /\ (forall registration sel err,
        first_violation ctx parentCtx agent = None ->
        get (ctx_agents ctx) agent = Some registration ->
        load_skills (getSkill ctx) (default [] skills) no_skills = Returned sel ->
        guard_passes agent query registration ->
        runAgent (agent_config ctx registration agent sel) query (childCtx parentCtx agent)
        = Threw err ->
        (executeTask ctx runAgent parentCtx agent query skills).2
        = Returned (errorResult agent query
                      ("Agent execution failed: " +:+ thrown_message err)))
  /\ (forall registration sel check guardResult,
        first_violation ctx parentCtx agent = None ->
        get (ctx_agents ctx) agent = Some registration ->
        load_skills (getSkill ctx) (default [] skills) no_skills = Returned sel ->
        guard registration = Some check ->
        check query agent = Returned guardResult ->
        allowed guardResult = false ->
        (executeTask ctx runAgent parentCtx agent query skills).2
        = Returned (errorResult agent query
                      ("Guard blocked: " +:+ default "query not allowed" (reason guardResult)))
        /\ (from_option events false parentCtx = true ->
            last (executeTask ctx runAgent parentCtx agent query skills).1
            = Some (DELEGATE_END (delegator parentCtx agent) agent
                      ("Blocked: " +:+ default "guard rejected" (reason guardResult)) true))
        /\ (forall runAgent',
              executeTask ctx runAgent' parentCtx agent query skills
              = executeTask ctx runAgent parentCtx agent query skills)).
Proof.
  split; [intros log t; apply executeTask_throws|].
  split.
  - intros registration sel err Hlegal Hget Hsel Hguard Hrun.
    rewrite (legal_call _ _ _ _ _ _ registration Hlegal Hget).
    eapply delegate_agent_failure; eassumption.
  - intros registration sel check gr Hlegal Hget Hsel Hguard Hcheck Hno.
    rewrite (legal_call _ _ _ _ _ _ registration Hlegal Hget).
    destruct (delegate_guard_blocked ctx runAgent parentCtx agent query skills
                registration sel check gr Hsel Hguard Hcheck Hno) as (H1 & H2 & H3).
    split; [exact H1|]. split; [exact H2|].
    intros runAgent'. rewrite (legal_call _ runAgent' _ _ _ _ registration Hlegal Hget).
    apply H3.
Qed.

(** The weather agent's model call fails, and the vault's guard says no. *)
Lemma executeTask_contains_failures_witness :
  (executeTask demo_ctx failing_agent (under ["supervisor"]) "weather" "rain?" None).2
  = Returned (errorResult "weather" "rain?" "Agent execution failed: upstream exploded")
  /\ (executeTask demo_ctx failing_agent (under ["supervisor"]) "vault" "open" None).2
     = Returned (errorResult "vault" "open" "Guard blocked: restricted").
Proof.
  split.
  - apply (proj1 (proj2 (executeTask_contains_failures demo_ctx failing_agent
             (under ["supervisor"]) "weather" "rain?" None)) weather no_skills
             (ThrownError (mkError "Error" "upstream exploded"))).
    + vm_compute. reflexivity.
    + vm_compute. reflexivity.
    + reflexivity.
    + left. reflexivity.
    + reflexivity.
  - apply (proj2 (proj2 (executeTask_contains_failures demo_ctx failing_agent
             (under ["supervisor"]) "vault" "open" None)) vault no_skills
             (fun _ _ => Returned {| allowed := false; reason := Some "restricted" |})
             {| allowed := false; reason := Some "restricted" |}).
    + vm_compute. reflexivity.
    + vm_compute. reflexivity.
    + reflexivity.
    + reflexivity.
    + reflexivity.
    + reflexivity.
Defined.

(** ** More of the agent registry and the agents a router may name *)

Definition empty_registry : AgentRegistry := {| agents := ∅; promptOverrides := ∅ |}.

(** The registry after the registrations [regs], made in that order. *)
Definition registry_of (regs : list AgentRegistration) : AgentRegistry :=
  fold_left (fun r a => register a r) regs empty_registry.

(** [list()]: the registrations held, without their keys. *)
Definition registrations (r : AgentRegistry) : list AgentRegistration :=
  (map_to_list (agents r)).*2.

Definition setPromptOverride (agentName prompt : string) (r : AgentRegistry) : AgentRegistry :=
  {| agents := agents r; promptOverrides := <[agentName := prompt]> (promptOverrides r) |}.

Definition resetPrompt (agentName : string) (r : AgentRegistry) : AgentRegistry :=
  {| agents := agents r; promptOverrides := delete agentName (promptOverrides r) |}.

Definition hasPromptOverride (r : AgentRegistry) (agentName : string) : bool :=
  bool_decide (is_Some (promptOverrides r !! agentName)).

(** [getRoutableAgents(ctx, allowedAgents)] of the orchestrator: the
    registrations that are no orchestrators, have tools and, when a list of
    allowed names is given, are on it. *)
Definition getRoutableAgents (ctx : PluginContext) (allowedAgents : option (list string))
    : list AgentRegistration :=
  List.filter
    (fun a =>
       if bool_decide (name a ∈ getOrchestratorNames (ctx_agents ctx)) then false
       else if no_tools a then false
       else match allowedAgents with
            | Some allowed => bool_decide (name a ∈ allowed)
            | None => true
            end)
    (registrations (ctx_agents ctx)).

Lemma elem_of_registrations r a :
  a ∈ registrations r <-> exists key, agents r !! key = Some a.
Proof.
  unfold registrations. rewrite list_elem_of_fmap. split.
  - intros [[key a'] [-> Hin]]. exists key. apply elem_of_map_to_list in Hin. exact Hin.
  - intros [key Hkey]. exists (key, a). split; [reflexivity|].
    apply elem_of_map_to_list. exact Hkey.
Qed.

Lemma elem_of_getOrchestratorNames r x :
  x ∈ getOrchestratorNames r
  <-> exists key a, agents r !! key = Some a /\ isOrchestrator a = true /\ name a = x.
Proof.
  unfold getOrchestratorNames. rewrite elem_of_list_to_set, list_elem_of_fmap. split.
  - intros (a & -> & Hin). apply list_elem_of_filter in Hin as [Horch Hin].
    apply elem_of_registrations in Hin as [key Hkey]. eauto.
  - intros (key & a & Hkey & Horch & <-). exists a. split; [reflexivity|].
    apply list_elem_of_filter. split; [exact Horch|].
    apply elem_of_registrations. eauto.
Qed.

(** Every registration sits under its own name. *)
Definition keyed_by_name (r : AgentRegistry) : Prop :=
  forall key a, agents r !! key = Some a -> name a = key.

Lemma keyed_register a r : keyed_by_name r -> keyed_by_name (register a r).
Proof.
  intros Hr key a'. unfold register. simpl.
  destruct (decide (name a = key)) as [<-|Hne].
  - rewrite lookup_insert_eq. intros [= <-]. reflexivity.
  - rewrite lookup_insert_ne by exact Hne. apply Hr.
Qed.

Lemma keyed_fold regs r :
  keyed_by_name r -> keyed_by_name (fold_left (fun r a => register a r) regs r).
Proof.
  revert r. induction regs as [|a regs IH]; intros r Hr; simpl; [exact Hr|].
  apply IH, keyed_register, Hr.
Qed.

Lemma keyed_registry_of regs : keyed_by_name (registry_of regs).
Proof.
  apply keyed_fold. intros key a. simpl. rewrite lookup_empty. discriminate.
Qed.

Lemma orchestrator_by_own_registration r agent :
  keyed_by_name r ->
  agent ∈ getOrchestratorNames r
  <-> exists a, get r agent = Some a /\ isOrchestrator a = true.
Proof.
  intros Hkeyed. rewrite elem_of_getOrchestratorNames. unfold get. split.
  - intros (key & a & Hkey & Horch & <-). exists a.
    rewrite (Hkeyed _ _ Hkey). split; assumption.
  - intros (a & Hget & Horch). exists agent, a.
    split; [exact Hget|]. split; [exact Horch|]. apply (Hkeyed _ _ Hget).
Qed.

(** In a registry filled by [register], the last registration made under a
    name is the one [get] returns, and a name is in [getOrchestratorNames]
    exactly when the registration [get] returns for it is marked as an
    orchestrator: the second legality check of [executeTask] looks at the
    target itself. *)
Theorem registry_lookup_and_orchestrators (regs : list AgentRegistration)
    (last_one : AgentRegistration) (agent : string) :
  get (registry_of (regs ++ [last_one])) (name last_one) = Some last_one
  /\ (agent <> name last_one ->
      get (registry_of (regs ++ [last_one])) agent = get (registry_of regs) agent)
  /\ (agent ∈ getOrchestratorNames (registry_of regs)
      <-> exists a, get (registry_of regs) agent = Some a /\ isOrchestrator a = true).
Proof.
  unfold registry_of. rewrite fold_left_app. simpl. unfold get, register. simpl.
  split; [apply lookup_insert_eq|].
  split; [intros Hne; apply lookup_insert_ne; congruence|].
  apply (orchestrator_by_own_registration (registry_of regs)), keyed_registry_of.
Qed.

(** A prompt override replaces the default system prompt of a registered
    agent, resetting it brings the default back, and an override set for a
    name that is not registered resolves to nothing. *)
Theorem prompt_override_round_trip (r : AgentRegistry) (agentName prompt : string) :
  (forall a, get r agentName = Some a ->
     getResolvedPrompt (setPromptOverride agentName prompt r) agentName = Some prompt
     /\ getResolvedPrompt (resetPrompt agentName (setPromptOverride agentName prompt r))
          agentName = Some (defaultSystem a))
  /\ (get r agentName = None ->
      getResolvedPrompt (setPromptOverride agentName prompt r) agentName = None)
  /\ hasPromptOverride (setPromptOverride agentName prompt r) agentName = true
  /\ hasPromptOverride (resetPrompt agentName (setPromptOverride agentName prompt r))
       agentName = false
  /\ (forall other, other <> agentName ->
        getResolvedPrompt (setPromptOverride agentName prompt r) other
        = getResolvedPrompt r other).
Proof.
  unfold get, getResolvedPrompt, setPromptOverride, resetPrompt, hasPromptOverride. simpl.
  split.
  { intros a ->. rewrite lookup_insert_eq, lookup_delete_eq. split; reflexivity. }
  split; [intros ->; reflexivity|].
  split; [rewrite lookup_insert_eq; apply bool_decide_eq_true_2; eauto|].
  split; [rewrite lookup_delete_eq; apply bool_decide_eq_false_2; intros [? ?]; discriminate|].
  intros other Hne. rewrite lookup_insert_ne by congruence. reflexivity.
Qed.

(** The agents a router may name are legal targets as far as the registry
    goes: a routable agent of a registry filled by [register] is known to
    [executeTask], is no orchestrator and has tools, and is on the list of
    allowed agents when there is one. *)
Theorem routable_agents_are_legal_targets (regs : list AgentRegistration)
    (ctx : PluginContext) (allowedAgents : option (list string))
    (parentCtx : option DelegationContext) (a : AgentRegistration) :
  ctx_agents ctx = registry_of regs ->
  a ∈ getRoutableAgents ctx allowedAgents ->
  get (ctx_agents ctx) (name a) = Some a
  /\ violates ctx parentCtx (name a) UnknownAgent = false
  /\ violates ctx parentCtx (name a) TargetIsOrchestrator = false
  /\ violates ctx parentCtx (name a) TargetHasNoTools = false
  /\ (forall allowed, allowedAgents = Some allowed -> name a ∈ allowed).
Proof.
  intros Hbuilt Hin. unfold getRoutableAgents in Hin.
  apply list_elem_of_In, List.filter_In in Hin as [Hin Hkeep].
  apply list_elem_of_In, elem_of_registrations in Hin as [key Hkey].
  assert (Hget : get (ctx_agents ctx) (name a) = Some a).
  { unfold get. rewrite Hbuilt in Hkey |- *.
    rewrite (keyed_registry_of regs _ _ Hkey). exact Hkey. }
  destruct (bool_decide (name a ∈ getOrchestratorNames (ctx_agents ctx))) eqn:Horch;
    [discriminate|].
  destruct (no_tools a) eqn:Htools; [discriminate|].
  split; [exact Hget|]. simpl. rewrite Hget, Horch. simpl. rewrite Htools.
  split; [reflexivity|]. split; [reflexivity|]. split; [reflexivity|].
  intros allowed ->. apply bool_decide_eq_true in Hkeep. exact Hkeep.
Qed.

Lemma routable_agents_are_legal_targets_witness :
  get (ctx_agents demo_ctx) "weather" = Some weather
  /\ violates demo_ctx None "weather" TargetIsOrchestrator = false.
Proof.
  destruct (routable_agents_are_legal_targets [weather; supervisor; billing; vault]
              demo_ctx (Some ["weather"]) None weather) as (H1 & _ & H3 & _).
  - reflexivity.
  - vm_compute. apply list_elem_of_In. left. reflexivity.
  - split; [exact H1|exact H3].
Defined.

(** ** What [executeTask] hands on, and what it reports *)

Lemma agent_not_in_chain (chain : list string) (agent : string) :
  NoDup chain -> agent ∉ chain -> NoDup (chain ++ [agent]).
Proof.
  intros Hnodup Hnotin. apply NoDup_app. split; [exact Hnodup|]. split.
  - intros x Hx Hin. apply list_elem_of_singleton in Hin. subst x. exact (Hnotin Hx).
  - apply NoDup_singleton.
Qed.

(** [executeTask] runs an agent only in a context that ends with that
    agent, repeats no agent and is no deeper than [maxDelegationDepth]: two
    agent runners that agree on such contexts cannot be told apart through
    [executeTask], whatever they do elsewhere. *)
Theorem executeTask_runs_within_limits (ctx : PluginContext)
    (parentCtx : option DelegationContext) (target question : string)
    (skills : option (list string))
    (f g : AgentConfig -> string -> DelegationContext -> Outcome AgentResult) :
  NoDup (from_option chain [] parentCtx) ->
  (forall cfg c,
     NoDup (chain c) -> depth c <= maxDelegationDepth ctx ->
     last (chain c) = Some target -> agentName cfg = target ->
     chain c = from_option chain [] parentCtx ++ [target] ->
     f cfg question c = g cfg question c) ->
  executeTask ctx f parentCtx target question skills
  = executeTask ctx g parentCtx target question skills.
Proof.
  intros Hnodup Hagree. unfold executeTask.
  destruct (get (ctx_agents ctx) target) as [registration|]; [|reflexivity].
  destruct (bool_decide (target ∈ getOrchestratorNames (ctx_agents ctx))); [reflexivity|].
  destruct (no_tools registration); [reflexivity|]. cbv zeta.
  destruct (maxDelegationDepth ctx <=? from_option depth 0 parentCtx) eqn:Hdepth;
    [reflexivity|].
  destruct (bool_decide (last (from_option chain [] parentCtx) = Some target));
    [reflexivity|].
  destruct (bool_decide (target ∈ from_option chain [] parentCtx)) eqn:Hin; [reflexivity|].
  apply bool_decide_eq_false in Hin. apply Z.leb_gt in Hdepth.
  unfold delegate.
  destruct (load_skills (getSkill ctx) (default [] skills) no_skills) as [sel|t];
    [|reflexivity].
  assert (Hsame : f (agent_config ctx registration target sel) question
                    (childCtx parentCtx target)
                  = g (agent_config ctx registration target sel) question
                    (childCtx parentCtx target)).
  { apply Hagree; simpl.
    - apply agent_not_in_chain; assumption.
    - lia.
    - apply last_snoc.
    - reflexivity.
    - reflexivity. }
  cbv zeta. rewrite Hsame. reflexivity.
Qed.

Lemma executeTask_runs_within_limits_witness :
  executeTask demo_ctx failing_agent (under ["supervisor"]) "weather" "rain?" None
  = executeTask demo_ctx
      (fun cfg q c =>
         if bool_decide (last (chain c) = Some "weather") then failing_agent cfg q c
         else Returned {| response := "elsewhere"; items := None; toolsUsed := [];
                          usage := None |})
      (under ["supervisor"]) "weather" "rain?" None.
Proof.
  apply executeTask_runs_within_limits.
  - vm_compute. apply NoDup_singleton.
  - intros cfg c _ _ Hlast _ _.
    rewrite (bool_decide_eq_true_2 _ Hlast). reflexivity.
Defined.

Definition is_delegate_start (e : BusEvent) : bool :=
  match e with DELEGATE_START _ _ _ => true | _ => false end.

Definition is_delegate_end (e : BusEvent) : bool :=
  match e with DELEGATE_END _ _ _ _ => true | _ => false end.

Definition starts (log : list BusEvent) : nat := length (List.filter is_delegate_start log).
Definition ends (log : list BusEvent) : nat := length (List.filter is_delegate_end log).

Ltac rejected_early :=
  cbn -[String.append slice0];
  split; [intros _; reflexivity|];
  first [ reflexivity
        | split; [reflexivity|]; split; [reflexivity|]; left; reflexivity ].

(** A call that returns reports a delegation either not at all or as one
    [delegate:start] closed by one [delegate:end], which is the last event
    and names the same two agents; the task result names the agent and
    the query of the call.  A call that throws reports no [delegate:end],
    and without an event bus nothing is reported. *)
Theorem delegation_events_bracketed (ctx : PluginContext)
    (runAgent : AgentConfig -> string -> DelegationContext -> Outcome AgentResult)
    (parentCtx : option DelegationContext) (target question : string)
    (skills : option (list string)) :
  let run := executeTask ctx runAgent parentCtx target question skills in
  (from_option events false parentCtx = false -> run.1 = [])
  /\ match run.2 with
     | Returned res =>
         agent res = target /\ query res = question
         /\ (run.1 = []
             \/ (starts run.1 = 1%nat /\ ends run.1 = 1%nat
                 /\ exists summary failed,
                      last run.1
                      = Some (DELEGATE_END (delegator parentCtx target) target summary failed)))
     | Threw _ => ends run.1 = 0%nat
     end.
Proof.
  cbv zeta. unfold executeTask, starts, ends.
  destruct (get (ctx_agents ctx) target) as [registration|]; [|rejected_early].
  destruct (bool_decide (target ∈ getOrchestratorNames (ctx_agents ctx)));
    [rejected_early|].
  destruct (no_tools registration); [rejected_early|]. cbv zeta.
  destruct (maxDelegationDepth ctx <=? from_option depth 0 parentCtx); [rejected_early|].
  destruct (bool_decide (last (from_option chain [] parentCtx) = Some target));
    [rejected_early|].
  destruct (bool_decide (target ∈ from_option chain [] parentCtx)); [rejected_early|].
  unfold delegate, emit.
  destruct (load_skills (getSkill ctx) (default [] skills) no_skills) as [sel|t];
    [|rejected_early].
  cbv zeta.
  destruct (from_option events false parentCtx);
    destruct (querySkillNames sel); destruct (guard registration) as [check|];
    try destruct (check question target) as [[[] ?]|];
    try destruct (runAgent _ _ _);
    cbn -[String.append slice0];
    (split; [first [discriminate | intros _; reflexivity]|]);
    first [ reflexivity
          | split; [reflexivity|]; split; [reflexivity|];
            first [ left; reflexivity | right; repeat split; eauto ] ].
Qed.

Lemma length_slice0 (n : nat) (s : string) : (String.length (slice0 n s) <= n)%nat.
Proof.
  unfold slice0. revert s. induction n as [|n IH]; intros [|c s]; simpl; try lia.
  specialize (IH s). lia.
Qed.

(** The summaries put on the event bus are bounded: the summary of a
    delegation that succeeded and the error of an agent that failed have
    at most [SUMMARY_LENGTH_LIMIT] characters, and the summary of a failed
    delegation at most seven more, unless it reports a guard's refusal,
    whose reason is passed on in full. *)
Theorem delegation_summaries_bounded (ctx : PluginContext)
    (runAgent : AgentConfig -> string -> DelegationContext -> Outcome AgentResult)
    (parentCtx : option DelegationContext) (target question : string)
    (skills : option (list string)) (e : BusEvent) :
  e ∈ (executeTask ctx runAgent parentCtx target question skills).1 ->
  match e with
  | DELEGATE_END _ _ summary false => (String.length summary <= SUMMARY_LENGTH_LIMIT)%nat
  | DELEGATE_END _ _ summary true =>
      (String.length summary <= SUMMARY_LENGTH_LIMIT + 7)%nat
      \/ exists registration check guardResult,
           get (ctx_agents ctx) target = Some registration
           /\ guard registration = Some check
           /\ check question target = Returned guardResult
           /\ allowed guardResult = false
           /\ summary = "Blocked: " +:+ default "guard rejected" (reason guardResult)
  | AGENT_END _ (Some message) => (String.length message <= SUMMARY_LENGTH_LIMIT)%nat
  | _ => True
  end.
Proof.
  unfold executeTask, delegate, emit.
  destruct (get (ctx_agents ctx) target) as [registration|];
    [|simpl; intros H; apply elem_of_nil in H; contradiction].
  repeat match goal with
         | |- context [if ?x then _ else _] =>
             destruct x; [simpl; intros H; apply elem_of_nil in H; contradiction|]
         end.
  cbv zeta.
  repeat match goal with
         | |- context [if ?x then _ else _] =>
             destruct x; [simpl; intros H; apply elem_of_nil in H; contradiction|]
         end.
  destruct (load_skills (getSkill ctx) (default [] skills) no_skills) as [sel|t];
    [|simpl; intros H; apply elem_of_nil in H; contradiction].
  cbv zeta.
  assert (Hcut : forall s, (String.length ("Error: " +:+ slice0 SUMMARY_LENGTH_LIMIT s)
                            <= SUMMARY_LENGTH_LIMIT + 7)%nat).
  { intros s. pose proof (length_slice0 SUMMARY_LENGTH_LIMIT s).
    change (S (S (S (S (S (S (S (String.length (slice0 SUMMARY_LENGTH_LIMIT s)))))))) 
            <= SUMMARY_LENGTH_LIMIT + 7)%nat. lia. }
  pose proof (length_slice0 SUMMARY_LENGTH_LIMIT) as Hslice.
  destruct (from_option events false parentCtx);
    destruct (querySkillNames sel);
    destruct (guard registration) as [check|] eqn:Hguard;
    try destruct (check question target) as [[[] why]|] eqn:Hcheck;
    try destruct (runAgent _ _ _);
    cbn -[String.append slice0 SUMMARY_LENGTH_LIMIT Nat.add];
    intros Hin;
    repeat (apply elem_of_cons in Hin as [->|Hin]);
    try (apply elem_of_nil in Hin; contradiction);
    try exact I; try apply Hslice; try (left; apply Hcut);
    right; exists registration, check, {| allowed := false; reason := why |};
    repeat split; reflexivity || assumption.
Qed.

Lemma delegation_summaries_bounded_witness :
  (String.length "Error: upstream exploded" <= SUMMARY_LENGTH_LIMIT + 7)%nat
  \/ exists registration check guardResult,
       get (ctx_agents demo_ctx) "weather" = Some registration
       /\ guard registration = Some check
       /\ check "rain?" "weather" = Returned guardResult
       /\ allowed guardResult = false
       /\ "Error: upstream exploded"
          = "Blocked: " +:+ default "guard rejected" (reason guardResult).
Proof.
  apply (delegation_summaries_bounded demo_ctx failing_agent
           (Some {| chain := ["supervisor"]; depth := 1; events := true;
                    abortSignal := None; orchestrator := None |})
           "weather" "rain?" None
           (DELEGATE_END "supervisor" "weather" "Error: upstream exploded" true)).
  vm_compute. do 4 right. left.
Defined.

(** ** The skills a delegation activates *)

Definition in_query (skill : Skill) : bool :=
  String.eqb (skill_phase skill) "query" || String.eqb (skill_phase skill) "both".

Definition in_response (skill : Skill) : bool :=
  String.eqb (skill_phase skill) "response" || String.eqb (skill_phase skill) "both".

Definition skill_section (skill : Skill) : string :=
  "### " +:+ skill_name skill +:+ nl +:+ skill_content skill.

Lemma load_skills_from (lookup : string -> Outcome (option Skill))
    (found : string -> option Skill) (skills : list string) (acc : SkillSelection) :
  (forall s, s ∈ skills -> lookup s = Returned (found s)) ->
  load_skills lookup skills acc
  = Returned
      {| skillSections :=
           skillSections acc ++ (skill_section <$> List.filter in_query (omap found skills));
         querySkillNames :=
           querySkillNames acc ++ (skill_name <$> List.filter in_query (omap found skills));
         responseSkillNames :=
           responseSkillNames acc
           ++ (skill_name <$> List.filter in_response (omap found skills)) |}.
Proof.
  revert acc. induction skills as [|s skills IH]; intros acc Hfound.
  - simpl. rewrite !app_nil_r. destruct acc; reflexivity.
  - cbn [load_skills]. rewrite (Hfound s) by (apply elem_of_cons; left; reflexivity).
    assert (Hrest : forall x, x ∈ skills -> lookup x = Returned (found x)).
    { intros x Hx. apply Hfound, elem_of_cons. right. exact Hx. }
    cbn [omap list_omap]. destruct (found s) as [skill|].
    + rewrite (IH _ Hrest). unfold add_skill. cbn [List.filter].
      fold (in_query skill). fold (in_response skill). fold (skill_section skill).
      destruct (in_query skill); destruct (in_response skill); cbn;
        rewrite <- ?app_assoc; reflexivity.
    + apply IH, Hrest.
Qed.

(** Which skills take part in a delegation: of the skills asked for, those
    the store does not know are skipped; the found ones of phase "query" or
    "both" are injected into the prompt, those of phase "response" or
    "both" are handed back as response skills, each list in the order
    asked for, and a skill of any other phase takes part in neither. *)
Theorem load_skills_by_phase (lookup : string -> Outcome (option Skill))
    (found : string -> option Skill) (skills : list string) :
  (forall s, s ∈ skills -> lookup s = Returned (found s)) ->
  load_skills lookup skills no_skills
  = Returned
      {| skillSections := skill_section <$> List.filter in_query (omap found skills);
         querySkillNames := skill_name <$> List.filter in_query (omap found skills);
         responseSkillNames := skill_name <$> List.filter in_response (omap found skills) |}.
Proof.
  intros Hfound. rewrite (load_skills_from lookup found skills no_skills Hfound).
  reflexivity.
Qed.

Lemma load_skills_by_phase_witness :
  load_skills
    (fun s => Returned (if String.eqb s "brief"
                        then Some {| skill_name := "brief"; skill_content := "Be brief.";
                                     skill_phase := "both" |}
                        else None))
    ["tone"; "brief"] no_skills
  = Returned {| skillSections := ["### brief" +:+ nl +:+ "Be brief."];
                querySkillNames := ["brief"];
                responseSkillNames := ["brief"] |}.
Proof.
  apply (load_skills_by_phase _
           (fun s => if String.eqb s "brief"
                     then Some {| skill_name := "brief"; skill_content := "Be brief.";
                                  skill_phase := "both" |}
                     else None)).
  intros s _. reflexivity.
Defined.

Lemma executeTask_names_call (ctx : PluginContext)
    (runAgent : AgentConfig -> string -> DelegationContext -> Outcome AgentResult)
    (parentCtx : option DelegationContext) (target question : string)
    (skills : option (list string)) (res : TaskResult) :
  (executeTask ctx runAgent parentCtx target question skills).2 = Returned res ->
  agent res = target /\ query res = question.
Proof.
  unfold executeTask.
  destruct (get (ctx_agents ctx) target) as [registration|];
    [|intros [= <-]; split; reflexivity].
  destruct (bool_decide (target ∈ getOrchestratorNames (ctx_agents ctx)));
    [intros [= <-]; split; reflexivity|].
  destruct (no_tools registration); [intros [= <-]; split; reflexivity|]. cbv zeta.
  destruct (maxDelegationDepth ctx <=? from_option depth 0 parentCtx);
    [intros [= <-]; split; reflexivity|].
  destruct (bool_decide (last (from_option chain [] parentCtx) = Some target));
    [intros [= <-]; split; reflexivity|].
  destruct (bool_decide (target ∈ from_option chain [] parentCtx));
    [intros [= <-]; split; reflexivity|].
  unfold delegate.
  destruct (load_skills (getSkill ctx) (default [] skills) no_skills) as [sel|t];
    [|discriminate].
  cbv zeta.
  destruct (guard registration) as [check|];
    try destruct (check question target) as [[[] ?]|];
    try destruct (runAgent _ _ _);
    cbn [snd]; try discriminate; intros [= <-]; split; reflexivity.
Qed.

End Delegation.

(** * Conversation compaction (utils/compaction.ts, utils/conversation-helpers.ts) *)

Module Compaction.

Inductive Role := user | assistant.

Definition role_name (r : Role) : string :=
  match r with
  | user => "user"
  | assistant => "assistant"
  end.

(** A value stored under a metadata key. *)
Inductive MetaValue :=
| MetaBool (b : bool)
| MetaNumber (n : Z)
| MetaOther (rendering : string).

Definition truthy (v : MetaValue) : bool :=
  match v with
  | MetaBool b => b
  | MetaNumber n => negb (n =? 0)
  | MetaOther _ => true
  end.

Record ConversationMessage := {
  role : Role;
  content : string;
  timestamp : string;
  metadata : option (list (string * MetaValue))
}.

Record Conversation := {
  id : string;
  messages : list ConversationMessage;
  createdAt : string;
  updatedAt : string
}.

(** ** The in-memory conversation store (storage/in-memory/index.ts)

    The store is a [Map] from ids to conversation objects.  [ticks] counts
    the readings of the clock taken so far; [clock k] is the [k]-th value of
    [new Date().toISOString()]. *)
Record World := {
  conversations : gmap string Conversation;
  ticks : nat
}.

Section Store.
Variable clock : nat -> string.

Definition get (conversationId : string) (w : World) : option Conversation :=
  conversations w !! conversationId.

(** A conversation that is missing is created first, which reads the
    clock once more. *)
Definition append (conversationId : string) (message : ConversationMessage) (w : World)
    : World :=
  match conversations w !! conversationId with
  | Some conv =>
      {| conversations :=
           <[conversationId := {| id := id conv; messages := messages conv ++ [message];
                                  createdAt := createdAt conv;
                                  updatedAt := clock (ticks w) |}]>
             (conversations w);
         ticks := S (ticks w) |}
  | None =>
      {| conversations :=
           <[conversationId := {| id := conversationId; messages := [message];
                                  createdAt := clock (ticks w);
                                  updatedAt := clock (S (ticks w)) |}]>
             (conversations w);
         ticks := S (S (ticks w)) |}
  end.

Definition clear (conversationId : string) (w : World) : World :=
  let now := clock (ticks w) in
  let conv := default {| id := conversationId; messages := [];
                         createdAt := now; updatedAt := now |}
                      (conversations w !! conversationId) in
  {| conversations :=
       <[conversationId := {| id := id conv; messages := [];
                              createdAt := createdAt conv; updatedAt := now |}]>
         (conversations w);
     ticks := S (ticks w) |}.

(** ** Numbers

    [preserveRecent] is a JavaScript number: the compaction route hands on
    whatever number the request body holds.  [Integer z] is a number whose
    value is the whole number [z]; any other number is a [Double] and is
    computed with as the binary64 value it is. *)
Inductive JsNumber :=
| Integer (z : Z)
| Double (x : float).

(** [messages.length] as a number. *)
Definition length_number (n : nat) : float :=
  PrimFloat.of_uint63 (Uint63.of_Z (Z.of_nat n)).

(** [messages.length <= preserveRecent] *)
Definition length_le (n : nat) (p : JsNumber) : bool :=
  match p with
  | Integer z => Z.of_nat n <=? z
  | Double x => PrimFloat.leb (length_number n) x
  end.

(** The index [Array.prototype.slice] makes of a whole number on an array
    of [n] elements: counted from the end when negative, and kept within
    [0] and [n]. *)
Definition slice_index (n : nat) (relative : Z) : nat :=
  Z.to_nat (if relative <? 0 then Z.max (Z.of_nat n + relative) 0
            else Z.min relative (Z.of_nat n)).

(** The same for any number: [NaN] counts as [0], a fraction is cut off
    towards zero, an infinity is kept within the bounds. *)
Definition slice_index_double (n : nat) (d : float) : nat :=
  match Prim2SF d with
  | S754_nan | S754_zero _ => 0%nat
  | S754_infinity negative => if negative then 0%nat else n
  | S754_finite negative m e =>
      let magnitude := Z.shiftl (Z.pos m) e in
      slice_index n (if negative then - magnitude else magnitude)
  end.

(** [messages.length - preserveRecent], as the index both [slice] calls of
    [compactConversation] make of it. *)
Definition cut_index (n : nat) (p : JsNumber) : nat :=
  match p with
  | Integer z => slice_index n (Z.of_nat n - z)
  | Double x => slice_index_double n (length_number n - x)%float
  end.

(** ** Configuration *)

Record CompactionConfig := {
  threshold : option nat;
  preserveRecent : option JsNumber;
  prompt : option string;
  model : option string;
  enabled : option bool
}.

Record ConfigOverride := {
  o_preserveRecent : option JsNumber;
  o_prompt : option string;
  o_model : option string
}.

Definition no_override : ConfigOverride :=
  {| o_preserveRecent := None; o_prompt := None; o_model := None |}.

(** [summarize p m] is the text of the model call
    [withResilience({ fn: generateText({ model: m, prompt: p }) })], or
    what that call throws once retries and fallback are exhausted. *)
Record PluginContext := {
  compaction : option CompactionConfig;
  summarize : string -> option string -> Outcome string
}.

Definition COMPACTION_THRESHOLD : nat := 20.
Definition COMPACTION_PRESERVE_RECENT : JsNumber := Integer 4.
Definition COMPACTION_METADATA_KEY : string := "_compaction".

Definition nl : string := String "010" EmptyString.

Definition DEFAULT_COMPACTION_PROMPT : string :=
  "You are a conversation summarizer. Given the following conversation messages, create a concise but comprehensive summary that preserves:" +:+ nl
  +:+ "- Key facts, decisions, and outcomes" +:+ nl
  +:+ "- User preferences and context established" +:+ nl
  +:+ "- Important tool results and their implications" +:+ nl
  +:+ "- Any ongoing tasks or commitments" +:+ nl +:+ nl
  +:+ "Output ONLY the summary text, no preamble or formatting.".

Record CompactionResult := {
  summary : string;
  summarizedCount : nat;
  preservedCount : nat;
  newMessageCount : nat
}.

Definition needsCompaction (conversation : Conversation) (threshold : option nat) : bool :=
  let limit := default COMPACTION_THRESHOLD threshold in
  (limit <? length (messages conversation))%nat.

Definition is_summary (m : ConversationMessage) : bool :=
  match metadata m with
  | None => false
  | Some fields =>
      match List.find (fun kv => String.eqb kv.1 COMPACTION_METADATA_KEY) fields with
      | Some kv => truthy kv.2
      | None => false
      end
  end.

Definition formatMessagesForSummary (msgs : list ConversationMessage) : string :=
  join (nl +:+ nl)
    (map (fun m => (if is_summary m then "[Previous Summary]" else role_name (role m))
                   +:+ ": " +:+ content m) msgs).

(** [a ?? b ?? c] *)
Definition effective_preserveRecent (ctx : PluginContext) (o : ConfigOverride) : JsNumber :=
  default (default COMPACTION_PRESERVE_RECENT (compaction ctx ≫= preserveRecent))
          (o_preserveRecent o).

Definition effective_prompt (ctx : PluginContext) (o : ConfigOverride) : string :=
  default (default DEFAULT_COMPACTION_PROMPT (compaction ctx ≫= prompt)) (o_prompt o).

Definition effective_model (ctx : PluginContext) (o : ConfigOverride) : option string :=
  match o_model o with
  | Some m => Some m
  | None => compaction ctx ≫= model
  end.

Definition fullPrompt (ctx : PluginContext) (o : ConfigOverride)
    (toSummarize : list ConversationMessage) : string :=
  effective_prompt ctx o +:+ nl +:+ nl +:+ "---" +:+ nl +:+ nl
    +:+ formatMessagesForSummary toSummarize.

(** The message that replaces the summarized turns. *)
Definition summary_message (text now : string) (count : nat) : ConversationMessage :=
  {| role := assistant; content := text; timestamp := now;
     metadata := Some [(COMPACTION_METADATA_KEY, MetaBool true);
                       ("summarizedCount", MetaNumber (Z.of_nat count))] |}.

(** [for (const msg of toPreserve) await append(conversationId, msg)] *)
Definition append_all (conversationId : string) (msgs : list ConversationMessage)
    (w : World) : World :=
  fold_left (fun w' msg => append conversationId msg w') msgs w.

Definition compactConversation (ctx : PluginContext) (conversationId : string)
    (configOverride : ConfigOverride) (w : World)
    : World * Outcome (option CompactionResult) :=
  let keep := effective_preserveRecent ctx configOverride in
  match get conversationId w with
  | None => (w, Returned None)
  | Some conversation =>
      let msgs := messages conversation in
      if length_le (length msgs) keep
      then (w, Returned (Some {| summary := EmptyString; summarizedCount := 0;
                                 preservedCount := length msgs;
                                 newMessageCount := length msgs |}))
      else
        let toSummarize := take (cut_index (length msgs) keep) msgs in
        let toPreserve := drop (cut_index (length msgs) keep) msgs in
        match summarize ctx (fullPrompt ctx configOverride toSummarize)
                (effective_model ctx configOverride) with
        | Threw t => (w, Threw t)
        | Returned text =>
            let w1 := clear conversationId w in
            let now := clock (ticks w1) in
            let w2 := {| conversations := conversations w1; ticks := S (ticks w1) |} in
            let w3 := append conversationId
                        (summary_message text now (length toSummarize)) w2 in
            let w4 := append_all conversationId toPreserve w3 in
            (w4, Returned (Some {| summary := text;
                                   summarizedCount := length toSummarize;
                                   preservedCount := length toPreserve;
                                   newMessageCount := 1 + length toPreserve |}))
        end
  end.

(** [compactionConfig?.enabled !== false && compactionConfig &&
    needsCompaction(conv, compactionConfig.threshold)] *)
Definition auto_compacts (ctx : PluginContext) (conv : Conversation) : bool :=
  match compaction ctx with
  | None => false
  | Some config =>
      match enabled config with
      | Some false => false
      | _ => needsCompaction conv (threshold config)
      end
  end.

(** The history handed to the model is read off the conversation object
    after the new message has been appended to it: the in-memory store
    hands out and mutates one and the same object. *)
Definition loadConversationWithCompaction (ctx : PluginContext) (conversationId : string)
    (newUserMessage : string) (w : World)
    : World * Outcome (option (list (Role * string))) :=
  match get conversationId w with
  | None => (w, Returned None)
  | Some conv =>
      let compacted :=
        if auto_compacts ctx conv
        then compactConversation ctx conversationId no_override w
        else (w, Returned None) in
      match compacted with
      | (w1, Threw t) => (w1, Threw t)
      | (w1, Returned _) =>
          match get conversationId w1 with
          | None => (w1, Returned None)
          | Some _ =>
              let now := clock (ticks w1) in
              let w2 := {| conversations := conversations w1; ticks := S (ticks w1) |} in
              let w3 := append conversationId
                          {| role := user; content := newUserMessage;
                             timestamp := now; metadata := None |} w2 in
              (w3, Returned (Some
                 (map (fun m => (role m, content m))
                      (from_option messages [] (get conversationId w3))
                  ++ [(user, newUserMessage)])))
          end
      end
  end.

(** ** What compaction leaves in the store *)

Lemma append_all_messages conversationId msgs w conv :
  conversations w !! conversationId = Some conv ->
  exists conv',
    conversations (append_all conversationId msgs w) !! conversationId = Some conv'
    /\ messages conv' = messages conv ++ msgs.
Proof.
  revert w conv. induction msgs as [|m msgs IH]; intros w conv Hconv; simpl.
  - exists conv. rewrite app_nil_r. split; [exact Hconv|reflexivity].
  - assert (Hstep : exists c1, conversations (append conversationId m w) !! conversationId
                               = Some c1 /\ messages c1 = messages conv ++ [m]).
    { unfold append. rewrite Hconv. simpl. rewrite lookup_insert_eq.
      eexists. split; reflexivity. }
    destruct Hstep as (c1 & Hc1 & Hm1).
    destruct (IH _ c1 Hc1) as (conv' & Hget & Hmsgs).
    exists conv'. split; [exact Hget|].
    rewrite Hmsgs, Hm1, <- app_assoc. reflexivity.
Qed.

Lemma clear_messages conversationId w :
  exists conv,
    conversations (clear conversationId w) !! conversationId = Some conv
    /\ messages conv = [].
Proof. eexists. unfold clear. simpl. rewrite lookup_insert_eq. split; reflexivity. Qed.

Lemma compactConversation_result ctx conversationId o w conversation text :
  let cut := cut_index (length (messages conversation)) (effective_preserveRecent ctx o) in
  get conversationId w = Some conversation ->
  length_le (length (messages conversation)) (effective_preserveRecent ctx o) = false ->
  summarize ctx (fullPrompt ctx o (take cut (messages conversation))) (effective_model ctx o)
  = Returned text ->
  exists stored now,
    get conversationId (compactConversation ctx conversationId o w).1 = Some stored
    /\ messages stored
       = summary_message text now (length (take cut (messages conversation)))
         :: drop cut (messages conversation)
    /\ (compactConversation ctx conversationId o w).2
       = Returned (Some {| summary := text;
                           summarizedCount := length (take cut (messages conversation));
                           preservedCount := length (drop cut (messages conversation));
                           newMessageCount := 1 + length (drop cut (messages conversation)) |}).
Proof.
  intros cut Hget Hgt Hsum. unfold compactConversation. rewrite Hget.
  set (keep := effective_preserveRecent ctx o) in *.
  set (msgs := messages conversation) in *.
  cbv zeta. rewrite Hgt. fold cut. rewrite Hsum. cbn [fst snd].
  destruct (clear_messages conversationId w) as (cleared & Hcleared & Hempty).
  set (w1 := clear conversationId w) in *.
  set (now := clock (ticks w1)).
  set (w2 := {| conversations := conversations w1; ticks := S (ticks w1) |}).
  assert (Hw2 : conversations w2 !! conversationId = Some cleared) by exact Hcleared.
  set (sm := summary_message text now (length (take cut msgs))).
  assert (Hw3 : exists c3, conversations (append conversationId sm w2) !! conversationId
                           = Some c3 /\ messages c3 = [sm]).
  { unfold append. rewrite Hw2. simpl. rewrite lookup_insert_eq.
    eexists. split; [reflexivity|]. simpl. rewrite Hempty. reflexivity. }
  destruct Hw3 as (c3 & Hc3 & Hm3).
  destruct (append_all_messages conversationId (drop cut msgs) _ c3 Hc3)
    as (stored & Hstored & Hmsgs).
  exists stored, now. split; [exact Hstored|].
  split; [rewrite Hmsgs, Hm3; reflexivity|reflexivity].
Qed.
End Store.

(** A whole number of messages to preserve, smaller than the number of
    messages there are: the cut falls that many messages before the end. *)
Lemma cut_index_count (n k : nat) :
  (k < n)%nat ->
  length_le n (Integer (Z.of_nat k)) = false
  /\ cut_index n (Integer (Z.of_nat k)) = (n - k)%nat.
Proof.
  intros Hlt. unfold length_le, cut_index, slice_index. split.
  - apply Z.leb_gt. lia.
  - destruct (Z.ltb_spec (Z.of_nat n - Z.of_nat k) 0) as [H|H]; lia.
Qed.

(** A negative whole number: every message is summarized. *)
Lemma cut_index_negative (n : nat) (z : Z) :
  z < 0 -> length_le n (Integer z) = false /\ cut_index n (Integer z) = n.
Proof.
  intros Hneg. unfold length_le, cut_index, slice_index. split.
  - apply Z.leb_gt. lia.
  - destruct (Z.ltb_spec (Z.of_nat n - z) 0) as [H|H]; lia.
Qed.

(** ** Sample conversations *)

Definition turn (k : nat) : ConversationMessage :=
  {| role := if Nat.even k then user else assistant;
     content := "turn " +:+ pretty k;
     timestamp := "2026-01-01T00:00:00.000Z"; metadata := None |}.

Definition conversation_of (n : nat) : Conversation :=
  {| id := "conv_1"; messages := map turn (seq 0 n);
     createdAt := "2026-01-01T00:00:00.000Z"; updatedAt := "2026-01-01T00:00:00.000Z" |}.

Definition world_of (n : nat) : World :=
  {| conversations := {[ "conv_1" := conversation_of n ]}; ticks := 0 |}.

Definition fixed_clock : nat -> string := fun _ => "2026-01-02T00:00:00.000Z".

(** Threshold 20, four recent messages preserved, a model that answers. *)
Definition sample_ctx : PluginContext :=
  {| compaction := Some {| threshold := Some 20%nat; preserveRecent := Some (Integer 4);
                           prompt := None; model := None; enabled := None |};
     summarize := fun _ _ => Returned "The story so far." |}.

(** What the compaction route passes on: the [preserveRecent] of the
    request body. *)
Definition preserving (p : JsNumber) : ConfigOverride :=
  {| o_preserveRecent := Some p; o_prompt := None; o_model := None |}.

(** C8, as stated, fails: [preserveRecent] is any number the caller sends.
    With [preserveRecent = -1] a conversation of three messages has more
    than [preserveRecent] messages, and compaction leaves one message, the
    summary of all three, where the claim counts [1 + preserveRecent = 0]. *)
Lemma negative_preserveRecent_keeps_summary :
  length_le 3 (Integer (-1)) = false
  /\ (Z.of_nat (length (from_option messages []
                          (get "conv_1"
                             (compactConversation fixed_clock sample_ctx "conv_1"
                                (preserving (Integer (-1))) (world_of 3)).1)))
      <> 1 + -1)
  /\ (compactConversation fixed_clock sample_ctx "conv_1" (preserving (Integer (-1)))
        (world_of 3)).2
     = Returned (Some {| summary := "The story so far."; summarizedCount := 3;
                         preservedCount := 0; newMessageCount := 1 |}).
Proof. vm_compute. repeat split; try reflexivity. discriminate. Qed.

(** A fraction is not a count either: with [preserveRecent = 2.5] and ten
    messages the cut falls at [10 - 2.5 = 7.5], which both [slice] calls
    read as 7, so that three messages are preserved. *)
Lemma fractional_preserveRecent_rounds_up :
  (compactConversation fixed_clock sample_ctx "conv_1" (preserving (Double 2.5%float))
     (world_of 10)).2
  = Returned (Some {| summary := "The story so far."; summarizedCount := 7;
                      preservedCount := 3; newMessageCount := 4 |}).
Proof. vm_compute. reflexivity. Qed.

(** C8, amended: for [preserveRecent] a whole number that is not negative.
    The number in force is the one of the call when it gives one, else the
    configured one, else 4.  When a conversation holds more than
    [preserveRecent] messages and the summarizing model call returns,
    [compactConversation] leaves in the store, under that id, the summary
    message followed by the last [preserveRecent] messages of the original
    list, unchanged and in their order: [1 + preserveRecent] messages in
    all, which is also the count it reports. *)
Theorem compactConversation_keeps_tail clock ctx conversationId o w conversation text
    (k : nat) :
  (o_preserveRecent o = Some (Integer (Z.of_nat k))
   \/ (o_preserveRecent o = None
       /\ compaction ctx ≫= preserveRecent = Some (Integer (Z.of_nat k)))
   \/ (o_preserveRecent o = None /\ compaction ctx ≫= preserveRecent = None /\ k = 4%nat)) ->
  get conversationId w = Some conversation ->
  (k < length (messages conversation))%nat ->
  summarize ctx
    (fullPrompt ctx o (take (length (messages conversation) - k) (messages conversation)))
    (effective_model ctx o) = Returned text ->
  exists stored first,
    get conversationId (compactConversation clock ctx conversationId o w).1 = Some stored
    /\ messages stored
       = first :: drop (length (messages conversation) - k) (messages conversation)
    /\ content first = text /\ is_summary first = true
    /\ length (messages stored) = (1 + k)%nat
    /\ (forall i, (i < k)%nat ->
          messages stored !! S i
          = messages conversation !! (length (messages conversation) - k + i)%nat)
    /\ (compactConversation clock ctx conversationId o w).2
       = Returned (Some {| summary := text;
                           summarizedCount := length (messages conversation) - k;
                           preservedCount := k;
                           newMessageCount := 1 + k |}).
Proof.
  intros Hkeep Hget Hlt Hsum.
  assert (Heff : effective_preserveRecent ctx o = Integer (Z.of_nat k)).
  { unfold effective_preserveRecent.
    destruct Hkeep as [-> | [[-> ->] | (-> & -> & ->)]]; reflexivity. }
  destruct (cut_index_count (length (messages conversation)) k Hlt) as [Hgt Hcut].
  rewrite <- Heff in Hgt, Hcut.
  pose proof (compactConversation_result clock ctx conversationId o w conversation text)
    as Hresult.
  cbv zeta in Hresult. rewrite Hcut in Hresult.
  destruct (Hresult Hget Hgt Hsum) as (stored & now & Hstored & Hmsgs & Hres).
  assert (Htake : length (take (length (messages conversation) - k) (messages conversation))
                  = (length (messages conversation) - k)%nat).
  { rewrite length_take. lia. }
  assert (Hdrop : length (drop (length (messages conversation) - k) (messages conversation))
                  = k).
  { rewrite length_drop. lia. }
  exists stored, (summary_message text now (length (messages conversation) - k)).
  rewrite Htake in Hmsgs. rewrite Htake, Hdrop in Hres.
  split; [exact Hstored|]. split; [exact Hmsgs|].
  split; [reflexivity|]. split; [reflexivity|].
  split; [rewrite Hmsgs; simpl; rewrite Hdrop; reflexivity|].
  split; [|exact Hres].
  intros i Hi. rewrite Hmsgs. simpl. apply lookup_drop.
Qed.

(** Twenty-five messages, four to preserve by configuration and two asked
    for by the call, compact to three: the summary and turns 23 and 24. *)
Lemma compactConversation_keeps_tail_witness :
  exists stored first,
    get "conv_1" (compactConversation fixed_clock sample_ctx "conv_1"
                    (preserving (Integer 2)) (world_of 25)).1 = Some stored
    /\ messages stored = first :: map turn [23; 24]%nat
    /\ length (messages stored) = 3%nat.
Proof.
  destruct (compactConversation_keeps_tail fixed_clock sample_ctx "conv_1"
              (preserving (Integer 2)) (world_of 25) (conversation_of 25)
              "The story so far." 2)
    as (stored & first & Hget & Hmsgs & _ & _ & Hlen & _).
  - left. reflexivity.
  - reflexivity.
  - vm_compute. lia.
  - reflexivity.
  - exists stored, first. split; [exact Hget|]. split; [exact Hmsgs|exact Hlen].
Defined.

(** C9, as stated, fails: [compactConversation] does not look at the
    threshold.  Ten messages do not exceed a threshold of twenty, yet a call
    (the compaction route of the HTTP layer makes one on demand) summarizes
    six of them and rewrites the stored list. *)
Lemma compaction_below_threshold_rewrites :
  needsCompaction (conversation_of 10) (Some 20%nat) = false
  /\ (compactConversation fixed_clock sample_ctx "conv_1" no_override (world_of 10)).2
     = Returned (Some {| summary := "The story so far."; summarizedCount := 6;
                         preservedCount := 4; newMessageCount := 5 |})
  /\ (messages <$> get "conv_1"
        (compactConversation fixed_clock sample_ctx "conv_1" no_override (world_of 10)).1)
     <> Some (messages (conversation_of 10)).
Proof.
  split; [reflexivity|]. split; [vm_compute; reflexivity|].
  intros H. apply (f_equal (fmap (length (A := ConversationMessage)))) in H.
  vm_compute in H. discriminate H.
Qed.

(** The threshold in force for automatic compaction. *)
Definition effective_threshold (ctx : PluginContext) : nat :=
  default COMPACTION_THRESHOLD (compaction ctx ≫= threshold).

Lemma below_threshold_no_auto ctx conversation :
  (length (messages conversation) <= effective_threshold ctx)%nat ->
  auto_compacts ctx conversation = false.
Proof.
  unfold auto_compacts, effective_threshold, needsCompaction.
  destruct (compaction ctx) as [config|]; [|reflexivity]. simpl.
  intros Hle. destruct (enabled config) as [[|]|]; try reflexivity;
    apply Nat.ltb_ge; exact Hle.
Qed.

(** C9, amended: [compactConversation] is a no-op, reporting zero
    summarized messages and leaving the store as it was, when the
    conversation holds no more than [preserveRecent] messages.  The
    threshold governs automatic compaction only: when the message count does
    not exceed it, [loadConversationWithCompaction] does not compact (the
    model is not called) and the stored list is the old one followed by the
    new user message. *)
Theorem compaction_noop clock ctx conversationId o w conversation newUserMessage :
  get conversationId w = Some conversation ->
  (length_le (length (messages conversation)) (effective_preserveRecent ctx o) = true ->
   compactConversation clock ctx conversationId o w
   = (w, Returned (Some {| summary := EmptyString; summarizedCount := 0;
                           preservedCount := length (messages conversation);
                           newMessageCount := length (messages conversation) |})))
  /\ ((length (messages conversation) <= effective_threshold ctx)%nat ->
      (exists stored now,
         get conversationId
           (loadConversationWithCompaction clock ctx conversationId newUserMessage w).1
         = Some stored
         /\ messages stored
            = messages conversation
              ++ [{| role := user; content := newUserMessage;
                     timestamp := now; metadata := None |}])
      /\ (forall oracle,
            loadConversationWithCompaction clock
              {| compaction := compaction ctx; summarize := oracle |}
              conversationId newUserMessage w
            = loadConversationWithCompaction clock ctx conversationId newUserMessage w)).
Proof.
  intros Hget. split.
  - intros Hle. unfold compactConversation. rewrite Hget. cbv zeta.
    rewrite Hle. reflexivity.
  - intros Hle. pose proof (below_threshold_no_auto ctx conversation Hle) as Hauto.
    split.
    + unfold loadConversationWithCompaction. rewrite Hget, Hauto, Hget.
      cbn [fst]. unfold append, get. cbn [conversations ticks].
      unfold get in Hget. rewrite Hget. cbn [conversations].
      rewrite lookup_insert_eq. eexists _, _. split; reflexivity.
    + intros oracle. unfold loadConversationWithCompaction. rewrite Hget.
      assert (Hauto' : auto_compacts {| compaction := compaction ctx; summarize := oracle |}
                         conversation = false) by exact Hauto.
      rewrite Hauto', Hauto. reflexivity.
Qed.

(** Three messages and four to preserve: nothing to do. *)
Lemma compaction_noop_witness :
  compactConversation fixed_clock sample_ctx "conv_1" no_override (world_of 3)
  = (world_of 3, Returned (Some {| summary := EmptyString; summarizedCount := 0;
                                   preservedCount := 3; newMessageCount := 3 |})).
Proof.
  apply (proj1 (compaction_noop fixed_clock sample_ctx "conv_1" no_override (world_of 3)
                  (conversation_of 3) "hello" eq_refl)).
  reflexivity.
Defined.

(** ** What compaction and loading leave alone *)

Section StoreFacts.
Variable clock : nat -> string.

Lemma append_other conversationId other message w :
  other <> conversationId ->
  get other (append clock conversationId message w) = get other w.
Proof.
  intros Hne. unfold get, append.
  destruct (conversations w !! conversationId); simpl;
    apply lookup_insert_ne; congruence.
Qed.

Lemma clear_other conversationId other w :
  other <> conversationId -> get other (clear clock conversationId w) = get other w.
Proof. intros Hne. unfold get, clear. simpl. apply lookup_insert_ne. congruence. Qed.

Lemma append_all_other conversationId other msgs w :
  other <> conversationId ->
  get other (append_all clock conversationId msgs w) = get other w.
Proof.
  intros Hne. unfold append_all. revert w.
  induction msgs as [|m msgs IH]; intros w; cbn [fold_left]; [reflexivity|].
  rewrite IH. apply append_other, Hne.
Qed.

Lemma append_same conversationId message w conv :
  get conversationId w = Some conv ->
  exists stored,
    get conversationId (append clock conversationId message w) = Some stored
    /\ id stored = id conv /\ createdAt stored = createdAt conv
    /\ messages stored = messages conv ++ [message].
Proof.
  unfold get, append. intros ->. simpl. rewrite lookup_insert_eq.
  eexists. repeat split; reflexivity.
Qed.

Lemma append_all_same conversationId msgs w conv :
  get conversationId w = Some conv ->
  exists stored,
    get conversationId (append_all clock conversationId msgs w) = Some stored
    /\ id stored = id conv /\ createdAt stored = createdAt conv
    /\ messages stored = messages conv ++ msgs.
Proof.
  unfold append_all. revert w conv.
  induction msgs as [|m msgs IH]; intros w conv Hget; cbn [fold_left].
  - exists conv. rewrite app_nil_r. repeat split; [exact Hget|..]; reflexivity.
  - destruct (append_same conversationId m w conv Hget) as (c1 & Hc1 & Hid & Hcreated & Hm).
    destruct (IH _ c1 Hc1) as (stored & Hstored & Hid' & Hcreated' & Hm').
    exists stored. split; [exact Hstored|].
    rewrite Hid', Hcreated', Hm', Hm, <- app_assoc. repeat split; assumption.
Qed.

Lemma clear_same conversationId w conv :
  get conversationId w = Some conv ->
  exists stored,
    get conversationId (clear clock conversationId w) = Some stored
    /\ id stored = id conv /\ createdAt stored = createdAt conv /\ messages stored = [].
Proof.
  unfold get, clear. intros ->. simpl. rewrite lookup_insert_eq.
  eexists. repeat split; reflexivity.
Qed.

Lemma compactConversation_other ctx conversationId o other w :
  other <> conversationId ->
  get other (compactConversation clock ctx conversationId o w).1 = get other w.
Proof.
  intros Hne. unfold compactConversation.
  destruct (get conversationId w) as [conversation|]; [|reflexivity]. cbv zeta.
  destruct (length_le _ _); [reflexivity|].
  destruct (summarize ctx _ _) as [text|t]; [|reflexivity].
  cbn [fst]. rewrite append_all_other, append_other by exact Hne.
  apply (clear_other conversationId other w Hne).
Qed.

Lemma compactConversation_same ctx conversationId o w conv :
  get conversationId w = Some conv ->
  exists stored,
    get conversationId (compactConversation clock ctx conversationId o w).1 = Some stored
    /\ id stored = id conv /\ createdAt stored = createdAt conv.
Proof.
  intros Hget. unfold compactConversation. rewrite Hget. cbv zeta.
  destruct (length_le _ _); [exists conv; repeat split; exact Hget|].
  destruct (summarize ctx _ _) as [text|t]; [|exists conv; repeat split; exact Hget].
  cbn [fst].
  destruct (clear_same conversationId w conv Hget) as (c1 & Hc1 & Hid1 & Hcr1 & _).
  set (w2 := {| conversations := conversations (clear clock conversationId w);
                ticks := S (ticks (clear clock conversationId w)) |}).
  assert (Hw2 : get conversationId w2 = Some c1) by exact Hc1.
  set (cut := cut_index (length (messages conv)) (effective_preserveRecent ctx o)).
  destruct (append_same conversationId
              (summary_message text (clock (ticks (clear clock conversationId w)))
                 (length (take cut (messages conv))))
              w2 c1 Hw2) as (c3 & Hc3 & Hid3 & Hcr3 & _).
  destruct (append_all_same conversationId (drop cut (messages conv)) _ c3 Hc3)
    as (stored & Hstored & Hid & Hcr & _).
  exists stored. split; [exact Hstored|]. split; congruence.
Qed.

End StoreFacts.

(** Compaction and loading work on one conversation: every other
    conversation of the store is left as it was, and the conversation
    itself is still there afterwards with its id and creation time. *)
Theorem compaction_touches_one_conversation (clock : nat -> string) (ctx : PluginContext)
    (conversationId other newUserMessage : string) (o : ConfigOverride) (w : World) :
  other <> conversationId ->
  get other (compactConversation clock ctx conversationId o w).1 = get other w
  /\ get other (loadConversationWithCompaction clock ctx conversationId newUserMessage w).1
     = get other w
  /\ (forall conv, get conversationId w = Some conv ->
        exists stored,
          get conversationId (compactConversation clock ctx conversationId o w).1
          = Some stored
          /\ id stored = id conv /\ createdAt stored = createdAt conv).
Proof.
  intros Hne. split; [apply compactConversation_other, Hne|]. split.
  - unfold loadConversationWithCompaction.
    destruct (get conversationId w) as [conv|] eqn:Hget; [|reflexivity].
    assert (Hstep : forall w1 : World, get other w1 = get other w ->
              get other
                (match get conversationId w1 with
                 | None => (w1, Returned None)
                 | Some _ =>
                     (append clock conversationId
                        {| role := user; content := newUserMessage;
                           timestamp := clock (ticks w1); metadata := None |}
                        {| conversations := conversations w1; ticks := S (ticks w1) |},
                      Returned (Some
                        (map (fun m => (role m, content m))
                           (from_option messages []
                              (get conversationId
                                 (append clock conversationId
                                    {| role := user; content := newUserMessage;
                                       timestamp := clock (ticks w1); metadata := None |}
                                    {| conversations := conversations w1;
                                       ticks := S (ticks w1) |})))
                         ++ [(user, newUserMessage)])))
                 end).1 = get other w).
    { intros w1 Hw1. destruct (get conversationId w1); [|exact Hw1].
      cbn [fst]. rewrite append_other by exact Hne. exact Hw1. }
    destruct (auto_compacts ctx conv).
    + pose proof (compactConversation_other clock ctx conversationId no_override other w Hne)
        as Hframe.
      destruct (compactConversation clock ctx conversationId no_override w) as [w1 [r|t]];
        cbn [fst] in Hframe; [|exact Hframe].
      apply Hstep, Hframe.
    + apply Hstep. reflexivity.
  - intros conv Hget. apply compactConversation_same, Hget.
Qed.

Lemma compaction_touches_one_conversation_witness :
  get "conv_2" (compactConversation fixed_clock sample_ctx "conv_1" no_override
                  (world_of 25)).1 = get "conv_2" (world_of 25).
Proof.
  apply (compaction_touches_one_conversation fixed_clock sample_ctx "conv_1" "conv_2"
           "hello" no_override (world_of 25)).
  discriminate.
Defined.

(** A summarizing call that fails leaves the store exactly as it was:
    [compactConversation] throws what the call threw without having
    cleared anything, and a load that had to compact first throws too,
    without recording the new user message. *)
Theorem failed_compaction_changes_nothing (clock : nat -> string) (ctx : PluginContext)
    (conversationId newUserMessage : string) (o : ConfigOverride) (w : World)
    (failure : Thrown) :
  (forall p m, summarize ctx p m = Threw failure) ->
  (compactConversation clock ctx conversationId o w).1 = w
  /\ (forall conv, get conversationId w = Some conv ->
        length_le (length (messages conv)) (effective_preserveRecent ctx o) = false ->
        (compactConversation clock ctx conversationId o w).2 = Threw failure)
  /\ (forall conv, get conversationId w = Some conv ->
        auto_compacts ctx conv = true ->
        length_le (length (messages conv)) (effective_preserveRecent ctx no_override) = false ->
        loadConversationWithCompaction clock ctx conversationId newUserMessage w
        = (w, Threw failure)).
Proof.
  intros Hfail.
  assert (Hthrows : forall o' conv, get conversationId w = Some conv ->
            length_le (length (messages conv)) (effective_preserveRecent ctx o') = false ->
            compactConversation clock ctx conversationId o' w = (w, Threw failure)).
  { intros o' conv Hget Hlt. unfold compactConversation. rewrite Hget. cbv zeta.
    rewrite Hlt, Hfail. reflexivity. }
  split; [|split].
  - unfold compactConversation.
    destruct (get conversationId w) as [conv|]; [|reflexivity]. cbv zeta.
    destruct (length_le _ _); [reflexivity|]. rewrite Hfail. reflexivity.
  - intros conv Hget Hlt. rewrite (Hthrows o conv Hget Hlt). reflexivity.
  - intros conv Hget Hauto Hlt. unfold loadConversationWithCompaction.
    rewrite Hget, Hauto, (Hthrows no_override conv Hget Hlt). reflexivity.
Qed.

Lemma failed_compaction_changes_nothing_witness :
  (compactConversation fixed_clock
     {| compaction := compaction sample_ctx;
        summarize := fun _ _ => Threw (ThrownOther "model unavailable") |}
     "conv_1" no_override (world_of 25)).1 = world_of 25.
Proof.
  apply (failed_compaction_changes_nothing fixed_clock
           {| compaction := compaction sample_ctx;
              summarize := fun _ _ => Threw (ThrownOther "model unavailable") |}
           "conv_1" "hello" no_override (world_of 25) (ThrownOther "model unavailable")).
  intros p m. reflexivity.
Defined.





(** With the in-memory store the history a load returns ends with the new
    user message twice: the conversation object read before the append is
    the one the append extends, and the message is then added to the
    history once more.  The stored conversation holds it once. *)
Theorem loaded_history_repeats_new_message (clock : nat -> string) (ctx : PluginContext)
    (conversationId newUserMessage : string) (w w' : World) (history : list (Role * string)) :
  loadConversationWithCompaction clock ctx conversationId newUserMessage w
  = (w', Returned (Some history)) ->
  exists stored earlier,
    get conversationId w' = Some stored
    /\ map (fun m => (role m, content m)) (messages stored)
       = earlier ++ [(user, newUserMessage)]
    /\ history = earlier ++ [(user, newUserMessage); (user, newUserMessage)].
Proof.
  unfold loadConversationWithCompaction.
  destruct (get conversationId w) as [conv|]; [|discriminate].
  destruct (if auto_compacts ctx conv
            then compactConversation clock ctx conversationId no_override w
            else (w, Returned None)) as [w1 [r|t]]; [|discriminate].
  destruct (get conversationId w1) as [c1|] eqn:Hc1; [|discriminate].
  intros H. injection H as <- <-.
  set (message := {| role := user; content := newUserMessage;
                     timestamp := clock (ticks w1); metadata := None |}).
  destruct (append_same clock conversationId message
              {| conversations := conversations w1; ticks := S (ticks w1) |} c1 Hc1)
    as (stored & Hstored & _ & _ & Hmsgs).
  exists stored, (map (fun m => (role m, content m)) (messages c1)).
  split; [exact Hstored|]. rewrite Hstored. cbn [from_option].
  rewrite Hmsgs, map_app. cbn [map role content message].
  split; [reflexivity|]. rewrite <- app_assoc. reflexivity.
Qed.

Lemma loaded_history_repeats_new_message_witness :
  exists stored earlier,
    get "conv_1" (loadConversationWithCompaction fixed_clock sample_ctx "conv_1" "hello"
                    (world_of 1)).1 = Some stored
    /\ map (fun m => (role m, content m)) (messages stored) = earlier ++ [(user, "hello")]
    /\ [(user, "turn 0"); (user, "hello"); (user, "hello")]
       = earlier ++ [(user, "hello"); (user, "hello")].
Proof.
  apply (loaded_history_repeats_new_message fixed_clock sample_ctx "conv_1" "hello"
           (world_of 1)). 
  vm_compute. reflexivity.
Defined.

End Compaction.

(** * The orchestrator handlers (agents/orchestrator.ts) and the SSE stream
      (streaming/sse-writer.ts) *)

Module Orchestrator.
Import Usage.

Abbreviation TaskResult := Delegation.TaskResult.
Abbreviation ClarifyItem := Delegation.ClarifyItem.

Definition ROUTE_TO_AGENT : string := "routeToAgent".
Definition CREATE_TASK : string := "createTask".

(** ** What the planning call returns *)

Record Task := {
  t_agent : string;
  t_query : string;
  t_skills : option (list string)
}.

(** The input of a tool call as the model wrote it; a field may be missing. *)
Record ToolInput := {
  in_agent : option string;
  in_query : option string;
  in_skills : option (list string)
}.

Record ToolCall := {
  tc_toolName : string;
  tc_input : option ToolInput
}.

(** The output of [routeToAgent]: the result of the routed task and the
    response skills it collected. *)
Record RouteOutput := {
  out_response : option string;
  out_items : option (list ClarifyItem);
  out_toolsUsed : option (list string);
  out_usage : option UsageInfo;
  out_responseSkills : option (list string)
}.

Record ToolResult := {
  tr_toolName : string;
  tr_output : option RouteOutput;
  tr_result : option RouteOutput
}.

Record Step := {
  toolCalls : list ToolCall;
  toolResults : list ToolResult
}.

(** [plan_usage] is [extractUsage(planResult, planStart)]. *)
Record PlanResult := {
  steps : list Step;
  text : string;
  plan_usage : UsageInfo
}.

(** A JavaScript string is truthy when it is present and not empty. *)
Definition truthy_string (s : option string) : option string :=
  match s with
  | Some EmptyString => None
  | other => other
  end.

Definition collect_call (tc : ToolCall) : list Task :=
  match tc_input tc with
  | Some input =>
      if String.eqb (tc_toolName tc) CREATE_TASK
      then match truthy_string (in_agent input), truthy_string (in_query input) with
           | Some a, Some q => [{| t_agent := a; t_query := q; t_skills := in_skills input |}]
           | _, _ => []
           end
      else []
  | None => []
  end.

Definition collectTasksFromSteps (steps : list Step) : list Task :=
  flat_map (fun step => flat_map collect_call (toolCalls step)) steps.

(** ** Running the tasks of a plan *)

(** [(s.reason as Error)?.message ?? "Unknown error"] *)
Definition reason_message (reason : Thrown) : string :=
  match reason with
  | ThrownError e => err_message e
  | ThrownOther _ => "Unknown error"
  end.

Definition settle (t : Task) (o : Outcome TaskResult) : TaskResult :=
  match o with
  | Returned value => value
  | Threw reason =>
      {| Delegation.agent := t_agent t; Delegation.query := t_query t;
         Delegation.result :=
           {| Delegation.response := "Task failed: " +:+ reason_message reason;
              Delegation.items := None; Delegation.toolsUsed := [];
              Delegation.usage := None |};
         Delegation.responseSkills := None |}
  end.

(** [Promise.allSettled(tasks.map(executeTask))]: every task is started,
    and every task has a result, in the order of the plan. *)
Definition executeTasksSettled (executing : Task -> Outcome TaskResult) (tasks : list Task)
    : list TaskResult :=
  map (fun t => settle t (executing t)) tasks.

Record SynthesisSource := {
  label : string;
  src_response : string
}.

Fixpoint sources_from (i : nat) (results : list TaskResult) : list SynthesisSource :=
  match results with
  | [] => []
  | r :: rest =>
      {| label := "Task " +:+ pretty (S i) +:+ " (" +:+ Delegation.agent r +:+ ")";
         src_response := Delegation.response (Delegation.result r) |}
      :: sources_from (S i) rest
  end.

Definition taskResultsToSources (results : list TaskResult) : list SynthesisSource :=
  sources_from 0 results.

Definition collectResponseSkills (results : list TaskResult) : list string :=
  uniq (flat_map (fun r => default [] (Delegation.responseSkills r)) results).

Record TaskSummary := {
  ts_agent : string;
  ts_query : string;
  ts_summary : string
}.

Definition summarize_result (r : TaskResult) : TaskSummary :=
  {| ts_agent := Delegation.agent r; ts_query := Delegation.query r;
     ts_summary := slice0 Delegation.SUMMARY_LENGTH_LIMIT
                     (Delegation.response (Delegation.result r)) |}.

Definition tools_of (results : list TaskResult) : list string :=
  uniq (flat_map (fun r => Delegation.toolsUsed (Delegation.result r)) results).

(** [results.map((r) => r.result.usage).filter((u) => !!u)] *)
Definition subAgentUsages (results : list TaskResult) : list UsageInfo :=
  omap (fun r => Delegation.usage (Delegation.result r)) results.

(** ** The event stream *)

(** The names under which bus events are forwarded ([BUS_TO_SSE_MAP]). *)
Inductive Bridged :=
| B_AGENT_START | B_AGENT_END | B_DELEGATE_START | B_DELEGATE_END
| B_TOOL_CALL | B_TOOL_RESULT | B_SKILL_INJECT | B_STATUS.

Record DonePayload := {
  d_toolsUsed : list string;
  d_conversationId : string;
  d_awaitingResponse : bool;
  d_awaitingApproval : bool;
  d_items : option (list (ClarifyItem * option string));
  d_plan : option (list Task);
  d_tasks : option (list TaskSummary);
  d_usage : UsageInfo
}.

Inductive SseEvent :=
| SESSION_START (conversationId : string)
| AGENT_START (agent : string)
| AGENT_END (agent : string)
| STATUS (code message agent : string)
| AGENT_PLAN (tasks : list Task)
| AGENT_THINK (text : string)
| SKILL_INJECT (agent : string) (skills : list string) (phase : string)
| TEXT_DELTA (text : string)
| ASK_USER (items : list (ClarifyItem * option string))
| DONE (payload : DonePayload)
| CANCELLED (conversationId : string)
| ERROR (conversationId error : string)
| FORWARDED (event : Bridged).

Definition is_cancelled (e : SseEvent) : bool :=
  match e with CANCELLED _ => true | _ => false end.

Definition is_error (e : SseEvent) : bool :=
  match e with ERROR _ _ => true | _ => false end.

(** One streaming request in flight.  [registry] is the registry of active
    requests and [controller] the controller [registerRequest] returned for
    this request.  [written] lists the events handed to the stream writer;
    [wire] lists those that [controller.enqueue] accepted, which is what the
    client receives.  Once the stream is [closed], [enqueue] throws and
    [writeSSE] swallows the exception.  [listening] tells whether the abort
    listener of [createSSEStream] is installed on a signal that has not
    fired yet.  [executed] lists the tasks handed to [executeTask]. *)
Record Conn := {
  registry : Requests.State;
  controller : nat;
  listening : bool;
  closed : bool;
  written : list SseEvent;
  wire : list SseEvent;
  executed : list Task
}.

(** [abortSignal.aborted] *)
Definition signal_aborted (c : Conn) : bool := Requests.aborted (registry c) (controller c).

(** [swriter.write(event, data)] *)
Definition write_event (e : SseEvent) (c : Conn) : Conn :=
  {| registry := registry c; controller := controller c; listening := listening c;
     closed := closed c;
     written := written c ++ [e];
     wire := if closed c then wire c else wire c ++ [e];
     executed := executed c |}.

(** [writer.close()] *)
Definition close_stream (c : Conn) : Conn :=
  {| registry := registry c; controller := controller c; listening := listening c;
     closed := true; written := written c; wire := wire c; executed := executed c |}.

(** [cancelRequest(convId)], from the cancel route or from the abort event
    of the HTTP request.  Aborting the controller runs its listeners at
    once: the one [createSSEStream] installed closes the stream. *)
Definition cancel_arrives (convId : string) (c : Conn) : Conn :=
  let registry' := (Requests.cancelRequest convId (registry c)).2 in
  {| registry := registry'; controller := controller c; listening := listening c;
     closed := closed c || (listening c && Requests.aborted registry' (controller c));
     written := written c; wire := wire c; executed := executed c |}.

(** [unregisterRequest(convId)] *)
Definition unregister (convId : string) (c : Conn) : Conn :=
  {| registry := Requests.unregisterRequest convId (registry c);
     controller := controller c; listening := listening c; closed := closed c;
     written := written c; wire := wire c; executed := executed c |}.

Definition note_executed (tasks : list Task) (c : Conn) : Conn :=
  {| registry := registry c; controller := controller c; listening := listening c;
     closed := closed c; written := written c; wire := wire c;
     executed := executed c ++ tasks |}.

(** ** A handler body: state passing with exceptions *)

Definition M (A : Type) : Type := Conn -> Outcome A * Conn.

Definition ret {A} (a : A) : M A := fun c => (Returned a, c).

Definition bind {A B} (m : M A) (k : A -> M B) : M B :=
  fun c => match m c with
           | (Returned a, c') => k a c'
           | (Threw t, c') => (Threw t, c')
           end.

Notation "'do' x <- m ; k" := (bind m (fun x => k))
  (at level 10, x name, m at level 100, k at level 200).
Notation "m >>> k" := (bind m (fun _ => k))
  (at level 100, k at level 200, right associativity).

Definition write (e : SseEvent) : M unit := fun c => (Returned tt, write_event e c).

Fixpoint write_all (es : list SseEvent) : M unit :=
  match es with
  | [] => ret tt
  | e :: rest => write e >>> write_all rest
  end.

(** The places where the handler waits for a collaborator, and where a
    cancellation can therefore arrive: before the stream exists (while the
    system prompt is built and the history loaded), during the planning
    call, while the tasks run, during synthesis, and while the answer is
    saved. *)
Inductive Await :=
| BeforeStream
| DuringPlanning
| DuringTasks
| DuringSynthesis
| DuringSave.

Global Instance Await_eq_dec : EqDecision Await.
Proof. solve_decision. Defined.


(** ** Requests and collaborators *)

Record Request := {
  message : string;
  conversationId : option string;
  planMode : bool;
  approvedPlan : option (list Task);
  autonomous : option bool
}.

(** One run of [streamText] for the synthesis: building the skill context
    may throw; the text arrives in [deltas]; awaiting the usage may throw. *)
Record SynthesisRun := {
  context : Outcome unit;
  deltas : list string;
  final_usage : Outcome UsageInfo
}.

(** The answers of the collaborators during one request.
    [building_prompt] is [buildSystemPrompt], [loading_history] is
    [loadConversationWithCompaction] and [building_tools] the construction
    of the routing and task tools, which throws when no agent is routable:
    the three waits between [registerRequest] and the stream.  [planning]
    is the planning call wrapped in [withResilience], and [routed] lists the
    bus events bridged to the stream while it lasts (the routing tool runs
    its agent inside the planning call); [executing] is [executeTask];
    [forwarded] lists the bus events bridged to the stream while the tasks
    run; [saving] is the append of the answer to the conversation store;
    [elapsed] is [Math.round(performance.now() - overallStart)]. *)
Record Env := {
  building_prompt : Outcome unit;
  loading_history : Outcome unit;
  building_tools : Outcome unit;
  planning : Outcome PlanResult;
  routed : list Bridged;
  executing : Task -> Outcome TaskResult;
  forwarded : list Bridged;
  synthesis : list SynthesisSource -> list string -> SynthesisRun;
  synthesis_json : list SynthesisSource -> list string -> Outcome (string * UsageInfo);
  saving : Outcome unit;
  elapsed : Z;
  generated_id : string
}.

Definition SYNTHESIS_MESSAGE : string := "Synthesizing results...".

(** [approvedPlan && Array.isArray(approvedPlan) && approvedPlan.length > 0] *)
Definition approved_tasks (req : Request) : list Task := default [] (approvedPlan req).

Definition route_results (plan : PlanResult) : list ToolResult :=
  filter (fun tr => tr_toolName tr = ROUTE_TO_AGENT) (flat_map toolResults (steps plan)).

(** The first [routeToAgent] result whose output carries clarification items. *)
Definition find_clarification (plan : PlanResult) : option RouteOutput :=
  List.find (fun o => match out_items o with
                      | Some (_ :: _) => true
                      | _ => false
                      end)
            (omap tr_output (route_results plan)).

(** The agent named by the first [routeToAgent] call. *)
Definition routed_agent (plan : PlanResult) : option string :=
  match List.find (fun tc => String.eqb (tc_toolName tc) ROUTE_TO_AGENT)
                  (flat_map toolCalls (steps plan)) with
  | Some tc => from_option in_agent None (tc_input tc)
  | None => None
  end.

(** [totalUsage = mergeUsage(...stages); totalUsage.durationMs = elapsed] *)
Definition total_usage (stages : list UsageInfo) (elapsed : Z) : UsageInfo :=
  with_duration (mergeUsage stages) elapsed.

Definition done (toolsUsed : list string) (convId : string) (usage : UsageInfo) : DonePayload :=
  {| d_toolsUsed := toolsUsed; d_conversationId := convId;
     d_awaitingResponse := false; d_awaitingApproval := false;
     d_items := None; d_plan := None; d_tasks := None; d_usage := usage |}.

(** ** The SSE handler

    One request is followed from [registerRequest] to the [close] of the
    stream, or to the rejection of the handler when one of the waits that
    precede the stream (building the system prompt, loading the history,
    building the tools) throws. *)

Section SseHandler.
Variable agentName : string.
Variable defaultAutonomous : bool.
Variable env : Env.
Variable req : Request.
(** A cancellation arrives during the wait [p], after [n] of the events
    that are written while that wait lasts; [None] when nobody cancels. *)
Variable cancel : option (Await * nat).

Definition convId : string := default (generated_id env) (conversationId req).

Definition is_autonomous : bool := default defaultAutonomous (autonomous req).

Definition arrive : M unit := fun c => (Returned tt, cancel_arrives convId c).

(** Waiting for a collaborator while [events] are being written. *)
Definition await {A} (p : Await) (events : list SseEvent) (o : Outcome A) : M A :=
  match cancel with
  | Some (p', n) =>
      if decide (p' = p)
      then write_all (take n events) >>> arrive >>> write_all (drop n events)
             >>> (fun c => (o, c))
      else write_all events >>> (fun c => (o, c))
  | None => write_all events >>> (fun c => (o, c))
  end.

Definition synthesizeStreaming (sources : list SynthesisSource) (skillNames : list string)
    : M (string * UsageInfo) :=
  let run := synthesis env sources skillNames in
  (fun c => (context run, c)) >>>
  match skillNames with
  | [] => ret tt
  | _ => write (SKILL_INJECT agentName skillNames "response")
  end >>>
  write (STATUS "synthesizing" "Combining results" agentName) >>>
  write (AGENT_THINK SYNTHESIS_MESSAGE) >>>
  do usage <- await DuringSynthesis (map TEXT_DELTA (deltas run)) (final_usage run);
  ret (String.concat EmptyString (deltas run), usage).

(** [if (cid && text) await ctx.storage.conversations.append(...)] *)
Definition saveAssistantResponse (text : string) : M unit :=
  match conversationId req, text with
  | None, _ => ret tt
  | Some _, EmptyString => ret tt
  | Some _, _ => await DuringSave [] (saving env)
  end.

Definition run_tasks (tasks : list Task) : M (list TaskResult) :=
  (fun c => (Returned tt, note_executed tasks c)) >>>
  await DuringTasks (map FORWARDED (forwarded env))
    (Returned (executeTasksSettled (executing env) tasks)).

(** Execute the tasks, synthesize, save and report: the tail shared by the
    approved-plan shortcut ([before = []]) and by the autonomous plan
    ([before = [planUsage]]). *)
Definition execute_plan (before : list UsageInfo) (tasks : list Task) : M unit :=
  do results <- run_tasks tasks;
  let responseSkills := collectResponseSkills results in
  let sources := taskResultsToSources results in
  do synth <- synthesizeStreaming sources responseSkills;
  saveAssistantResponse synth.1 >>>
  let totalUsage := total_usage (before ++ subAgentUsages results ++ [synth.2]) (elapsed env) in
  write (AGENT_END agentName) >>>
  write (DONE {| d_toolsUsed := tools_of results; d_conversationId := convId;
                 d_awaitingResponse := false; d_awaitingApproval := false;
                 d_items := None; d_plan := None;
                 d_tasks := Some (map summarize_result results);
                 d_usage := totalUsage |}).

Definition approved_body : M unit :=
  write (AGENT_START agentName) >>>
  write (STATUS "executing-tasks" "Executing approved plan tasks" agentName) >>>
  execute_plan [] (approved_tasks req).

Fixpoint result_sources (i : nat) (results : list ToolResult) : list SynthesisSource :=
  match results with
  | [] => []
  | tr :: rest =>
      let resolved := match tr_output tr with
                      | Some o => Some o
                      | None => tr_result tr
                      end in
      {| label := "Result " +:+ pretty (S i);
         src_response := default EmptyString (from_option out_response None resolved) |}
      :: result_sources (S i) rest
  end.

Definition direct_body (plan : PlanResult) : M unit :=
  let planUsage := plan_usage plan in
  match route_results plan with
  | [] =>
      match text plan with
      | EmptyString => ret tt
      | t => write (TEXT_DELTA t) >>> saveAssistantResponse t
      end >>>
      write (AGENT_END agentName) >>>
      write (DONE (done (uniq (map tc_toolName (flat_map toolCalls (steps plan)))) convId
                     (with_duration planUsage (elapsed env))))
  | routeResults =>
      let outputs := omap tr_output routeResults in
      let responseSkills := uniq (flat_map (fun o => default [] (out_responseSkills o)) outputs) in
      let sources := result_sources 0 routeResults in
      do synth <- synthesizeStreaming sources responseSkills;
      saveAssistantResponse synth.1 >>>
      let routeToolsUsed := flat_map (fun o => default [] (out_toolsUsed o)) outputs in
      let usages := omap out_usage outputs in
      let totalUsage := total_usage (planUsage :: usages ++ [synth.2]) (elapsed env) in
      write (AGENT_END agentName) >>>
      write (DONE (done (uniq (ROUTE_TO_AGENT :: routeToolsUsed)) convId totalUsage))
  end.

Definition main_body : M unit :=
  write (AGENT_START agentName) >>>
  write (STATUS "thinking" "Analyzing query and routing" agentName) >>>
  do plan <- await DuringPlanning (map FORWARDED (routed env)) (planning env);
  let planUsage := plan_usage plan in
  match (if is_autonomous then None else find_clarification plan) with
  | Some output =>
      let taggedItems := map (fun item => (item, routed_agent plan))
                             (default [] (out_items output)) in
      let totalUsage := match out_usage output with
                        | Some sub => total_usage [planUsage; sub] (elapsed env)
                        | None => with_duration planUsage (elapsed env)
                        end in
      write (ASK_USER taggedItems) >>>
      write (AGENT_END agentName) >>>
      write (DONE {| d_toolsUsed := [ROUTE_TO_AGENT]; d_conversationId := convId;
                     d_awaitingResponse := true; d_awaitingApproval := false;
                     d_items := Some taggedItems; d_plan := None; d_tasks := None;
                     d_usage := totalUsage |})
  | None =>
      match collectTasksFromSteps (steps plan) with
      | [] => direct_body plan
      | tasks =>
          write (STATUS "planning" "Building task plan" agentName) >>>
          write (AGENT_PLAN tasks) >>>
          if is_autonomous
          then write (STATUS "executing-tasks" "Executing parallel tasks" agentName) >>>
               execute_plan [planUsage] tasks
          else write (AGENT_END agentName) >>>
               write (DONE {| d_toolsUsed := [CREATE_TASK]; d_conversationId := convId;
                              d_awaitingResponse := false; d_awaitingApproval := true;
                              d_items := None; d_plan := Some tasks; d_tasks := None;
                              d_usage := with_duration planUsage (elapsed env) |})
      end
  end.

(** [try { body } catch (err) { cancelled or error } finally { unregister }] *)
Definition guarded (body : M unit) : M unit :=
  fun c =>
    let (o, c1) := body c in
    let c2 := match o with
              | Returned _ => c1
              | Threw err =>
                  if bool_decide (thrown_name err = Some "AbortError") || signal_aborted c1
                  then write_event (CANCELLED convId) c1
                  else write_event (ERROR convId (thrown_message err)) c1
              end in
    (Returned tt, unregister convId c2).

(** The waits between [registerRequest] and the stream: the system
    prompt, the history when the request names a conversation, and, unless
    the request carries an approved plan, the tools.  None of them is
    inside a [try]: when one throws, the handler rejects. *)
Definition prepared : Outcome unit :=
  match building_prompt env with
  | Threw t => Threw t
  | Returned _ =>
      match (match conversationId req with
             | Some _ => loading_history env
             | None => Returned tt
             end) with
      | Threw t => Threw t
      | Returned _ =>
          match approved_tasks req with
          | [] => building_tools env
          | _ => Returned tt
          end
      end
  end.

(** [registerRequest], and a cancellation that arrives before the stream
    exists. *)
Definition request_registered (registry0 : Requests.State) : Conn :=
  let registered := Requests.registerRequest convId registry0 in
  let c0 := {| registry := registered.2; controller := registered.1;
               listening := false; closed := false;
               written := []; wire := []; executed := [] |} in
  match cancel with
  | Some (BeforeStream, _) => cancel_arrives convId c0
  | _ => c0
  end.

(** [createSSEStream] with its abort listener, the handler, and the
    [close] that follows it. *)
Definition stream_response (registry0 : Requests.State) : Conn :=
  let c1 := request_registered registry0 in
  let c2 := {| registry := registry c1; controller := controller c1;
               listening := negb (signal_aborted c1); closed := closed c1;
               written := written c1; wire := wire c1; executed := executed c1 |} in
  let body := match approved_tasks req with
              | [] => main_body
              | _ => approved_body
              end in
  close_stream ((write (SESSION_START convId) >>> guarded body) c2).2.

(** The whole request.  When a wait before the stream throws there is no
    stream: nothing is written and nothing is unregistered. *)
Definition buildSseHandler (registry0 : Requests.State) : Conn :=
  match prepared with
  | Threw _ => request_registered registry0
  | Returned _ => stream_response registry0
  end.

(** What the handler's promise settles to: the streaming response, or the
    exception of the wait that threw. *)
Definition handler_outcome : Outcome unit := prepared.
End SseHandler.

(** ** The JSON handler *)

Record JsonResponse := {
  j_response : string;
  j_toolsUsed : list string;
  j_agentsUsed : option (list string);
  j_tasks : option (list TaskSummary);
  j_conversationId : string;
  j_usage : UsageInfo
}.

Section JsonHandler.
Variable agentName : string.
Variable defaultAutonomous : bool.
Variable env : Env.
Variable req : Request.

(** Execute, synthesize and answer; the first component lists the tasks
    handed to [executeTask]. *)
Definition json_execute (before : list UsageInfo) (with_agents : bool) (tasks : list Task)
    : list Task * Outcome JsonResponse :=
  let results := executeTasksSettled (executing env) tasks in
  let responseSkills := collectResponseSkills results in
  let sources := taskResultsToSources results in
  match synthesis_json env sources responseSkills with
  | Threw t => (tasks, Threw t)
  | Returned (text, synthUsage) =>
      let totalUsage := total_usage (before ++ subAgentUsages results ++ [synthUsage])
                                    (elapsed env) in
      (tasks,
       Returned {| j_response := text; j_toolsUsed := tools_of results;
                   j_agentsUsed := if with_agents
                                   then Some (uniq (map Delegation.agent results))
                                   else None;
                   j_tasks := Some (map summarize_result results);
                   j_conversationId := default (generated_id env) (conversationId req);
                   j_usage := totalUsage |})
  end.

(** Without an approved plan the system prompt and the two tools are
    built right before the planning call, and nothing is observable in
    between: [planning env] stands here for these waits and the call
    together, the exception of one of them being that of the request. *)
Definition buildJsonHandler : list Task * Outcome JsonResponse :=
  let autonomous := default defaultAutonomous (autonomous req) in
  match approved_tasks req with
  | _ :: _ => json_execute [] false (approved_tasks req)
  | [] =>
      match planning env with
      | Threw t => ([], Threw t)
      | Returned result =>
          match collectTasksFromSteps (steps result) with
          | (_ :: _) as tasks => json_execute [plan_usage result] true tasks
          | [] =>
              let orchestratorUsage := plan_usage result in
              let routeResultUsages :=
                omap (fun tr => from_option out_usage None (tr_output tr)) (route_results result) in
              let calls := flat_map toolCalls (steps result) in
              ([],
               Returned {| j_response := text result;
                           j_toolsUsed := uniq (map tc_toolName calls);
                           j_agentsUsed :=
                             Some (uniq (omap (fun tc =>
                                           from_option (fun i => truthy_string (in_agent i))
                                                       None (tc_input tc)) calls));
                           j_tasks := None;
                           j_conversationId := default (generated_id env) (conversationId req);
                           j_usage := match routeResultUsages with
                                      | [] => orchestratorUsage
                                      | _ => mergeUsage (orchestratorUsage :: routeResultUsages)
                                      end |})
          end
      end
  end.
End JsonHandler.


(** ** How the stream behaves *)

(** Hand [es] to the writer, one after the other. *)
Definition push (es : list SseEvent) (c : Conn) : Conn :=
  {| registry := registry c; controller := controller c; listening := listening c;
     closed := closed c;
     written := written c ++ es;
     wire := if closed c then wire c else wire c ++ es;
     executed := executed c |}.

Lemma push_nil c : push [] c = c.
Proof. destruct c as [r k l cl w wi ex]. unfold push. simpl. rewrite !app_nil_r. destruct cl; reflexivity. Qed.

Lemma push_push es1 es2 c : push es2 (push es1 c) = push (es1 ++ es2) c.
Proof. unfold push. simpl. rewrite !app_assoc. destruct (closed c); reflexivity. Qed.

Lemma write_all_push es c : write_all es c = (Returned tt, push es c).
Proof.
  revert c. induction es as [|e es IH]; intros c; simpl.
  - unfold ret. rewrite push_nil. reflexivity.
  - unfold bind, write. rewrite IH. change (write_event e c) with (push [e] c).
    rewrite push_push. reflexivity.
Qed.

Lemma write_push e c : write e c = (Returned tt, push [e] c).
Proof. reflexivity. Qed.

(** A computation that cannot reopen a closed stream nor put anything on
    its wire. *)
Definition quiet_when_closed {A} (m : M A) : Prop :=
  forall c, closed c = true -> closed (m c).2 = true /\ wire (m c).2 = wire c.

Lemma quiet_ret {A} (a : A) : quiet_when_closed (ret a).
Proof. intros c H. split; [exact H|reflexivity]. Qed.

Lemma quiet_lift {A} (o : Outcome A) : quiet_when_closed (fun c => (o, c)).
Proof. intros c H. split; [exact H|reflexivity]. Qed.

Lemma quiet_bind {A B} (m : M A) (k : A -> M B) :
  quiet_when_closed m -> (forall a, quiet_when_closed (k a)) -> quiet_when_closed (bind m k).
Proof.
  intros Hm Hk c H. unfold bind. destruct (Hm c H) as [H1 H2].
  destruct (m c) as [[a|t] c']; simpl in *.
  - destruct (Hk a c' H1) as [H3 H4]. split; [exact H3|congruence].
  - split; assumption.
Qed.

Lemma quiet_push es c : closed c = true -> closed (push es c) = true /\ wire (push es c) = wire c.
Proof. intros H. unfold push. simpl. rewrite H. split; reflexivity. Qed.

Lemma quiet_write e : quiet_when_closed (write e).
Proof. intros c H. rewrite write_push. apply quiet_push, H. Qed.

Lemma quiet_write_all es : quiet_when_closed (write_all es).
Proof. intros c H. rewrite write_all_push. apply quiet_push, H. Qed.

Lemma quiet_note tasks : quiet_when_closed (fun c => (Returned tt, note_executed tasks c)).
Proof. intros c H. split; [exact H|reflexivity]. Qed.

Section Quiet.
Variable agentName : string.
Variable defaultAutonomous : bool.
Variable env : Env.
Variable req : Request.
Variable cancel : option (Await * nat).

Lemma quiet_arrive : quiet_when_closed (arrive env req).
Proof. intros c H. unfold arrive, cancel_arrives. simpl. rewrite H. split; reflexivity. Qed.

Lemma quiet_await {A} p events (o : Outcome A) :
  quiet_when_closed (await env req cancel p events o).
Proof.
  unfold await. destruct cancel as [[p' n]|];
    [destruct (decide (p' = p))|];
    repeat (apply quiet_bind; [|intros ?]);
    auto using quiet_write_all, quiet_arrive, quiet_lift.
Qed.

Lemma quiet_synthesize sources skillNames :
  quiet_when_closed (synthesizeStreaming agentName env req cancel sources skillNames).
Proof.
  unfold synthesizeStreaming.
  repeat (apply quiet_bind; [|intros ?]);
    try destruct skillNames;
    auto using quiet_write, quiet_await, quiet_lift, quiet_ret.
Qed.

Lemma quiet_save text : quiet_when_closed (saveAssistantResponse env req cancel text).
Proof.
  unfold saveAssistantResponse. destruct (conversationId req), text;
    auto using quiet_ret, quiet_await.
Qed.

Lemma quiet_execute_plan before tasks :
  quiet_when_closed (execute_plan agentName env req cancel before tasks).
Proof.
  unfold execute_plan, run_tasks.
  repeat first [progress cbv zeta | apply quiet_synthesize | apply quiet_save
               | apply quiet_await | apply quiet_write | apply quiet_note
               | apply quiet_bind; [|intros ?]].
Qed.

Lemma quiet_direct plan : quiet_when_closed (direct_body agentName env req cancel plan).
Proof.
  unfold direct_body. destruct (route_results plan).
  - repeat (apply quiet_bind; [|intros ?]); auto using quiet_write.
    destruct (text plan); [apply quiet_ret|].
    apply quiet_bind; [apply quiet_write|intros ?; apply quiet_save].
  - repeat first [progress cbv zeta | apply quiet_synthesize | apply quiet_save
                 | apply quiet_write | apply quiet_bind; [|intros ?]].
Qed.

Lemma quiet_main_after_planning plan :
  quiet_when_closed
    (match (if is_autonomous defaultAutonomous req then None else find_clarification plan) with
     | Some output =>
         let taggedItems := map (fun item => (item, routed_agent plan))
                                (default [] (out_items output)) in
         let totalUsage := match out_usage output with
                           | Some sub => total_usage [plan_usage plan; sub] (elapsed env)
                           | None => with_duration (plan_usage plan) (elapsed env)
                           end in
         write (ASK_USER taggedItems) >>>
         write (AGENT_END agentName) >>>
         write (DONE {| d_toolsUsed := [ROUTE_TO_AGENT]; d_conversationId := convId env req;
                        d_awaitingResponse := true; d_awaitingApproval := false;
                        d_items := Some taggedItems; d_plan := None; d_tasks := None;
                        d_usage := totalUsage |})
     | None =>
         match collectTasksFromSteps (steps plan) with
         | [] => direct_body agentName env req cancel plan
         | tasks =>
             write (STATUS "planning" "Building task plan" agentName) >>>
             write (AGENT_PLAN tasks) >>>
             if is_autonomous defaultAutonomous req
             then write (STATUS "executing-tasks" "Executing parallel tasks" agentName) >>>
                  execute_plan agentName env req cancel [plan_usage plan] tasks
             else write (AGENT_END agentName) >>>
                  write (DONE {| d_toolsUsed := [CREATE_TASK]; d_conversationId := convId env req;
                                 d_awaitingResponse := false; d_awaitingApproval := true;
                                 d_items := None; d_plan := Some tasks; d_tasks := None;
                                 d_usage := with_duration (plan_usage plan) (elapsed env) |})
         end
     end).
Proof.
  destruct (if is_autonomous defaultAutonomous req then None else find_clarification plan).
  - cbv zeta. repeat (apply quiet_bind; [|intros ?]); auto using quiet_write.
  - destruct (collectTasksFromSteps (steps plan)); [apply quiet_direct|].
    repeat (apply quiet_bind; [|intros ?]); auto using quiet_write.
    destruct (is_autonomous defaultAutonomous req);
      repeat first [apply quiet_execute_plan | apply quiet_write
                   | apply quiet_bind; [|intros ?]].
Qed.
End Quiet.

(** ** Cancellation while the planning call is in flight *)

Lemma registered_live cid registry0 :
  Requests.activeRequests (Requests.registerRequest cid registry0).2 !! cid
  = Some (Requests.registerRequest cid registry0).1
  /\ Requests.aborted (Requests.registerRequest cid registry0).2
       (Requests.registerRequest cid registry0).1 = false.
Proof.
  unfold Requests.registerRequest, Requests.aborted. simpl.
  rewrite !lookup_insert_eq. split; reflexivity.
Qed.

Lemma cancel_arrives_closes cid c :
  Requests.activeRequests (registry c) !! cid = Some (controller c) ->
  listening c = true ->
  closed (cancel_arrives cid c) = true
  /\ signal_aborted (cancel_arrives cid c) = true
  /\ wire (cancel_arrives cid c) = wire c
  /\ written (cancel_arrives cid c) = written c.
Proof.
  intros Hreg Hlisten.
  assert (Ha : Requests.aborted (Requests.cancelRequest cid (registry c)).2 (controller c) = true).
  { unfold Requests.cancelRequest, Requests.aborted. rewrite Hreg. simpl.
    rewrite lookup_insert_eq. reflexivity. }
  unfold cancel_arrives, signal_aborted. simpl. rewrite Hlisten, Ha.
  rewrite orb_true_r. repeat split; reflexivity.
Qed.

Section CancelledPlanning.
Variable agentName : string.
Variable defaultAutonomous : bool.
Variable env : Env.
Variable req : Request.
Variable n : nat.

Let cancel : option (Await * nat) := Some (DuringPlanning, n).
Let cid : string := convId env req.

Definition thinking : list SseEvent :=
  [AGENT_START agentName; STATUS "thinking" "Analyzing query and routing" agentName].

(** The bus events bridged to the stream during the planning call. *)
Definition planned : list SseEvent := map FORWARDED (routed env).

Lemma main_body_cancelled c :
  closed c = false ->
  listening c = true ->
  Requests.activeRequests (registry c) !! cid = Some (controller c) ->
  let r := main_body agentName defaultAutonomous env req cancel c in
  closed r.2 = true
  /\ wire r.2 = wire c ++ thinking ++ take n planned
  /\ (forall t, planning env = Threw t ->
        r.1 = Threw t /\ written r.2 = written c ++ thinking ++ planned
        /\ signal_aborted r.2 = true).
Proof.
  intros Hopen Hlisten Hreg.
  set (c1 := push (thinking ++ take n planned) c).
  assert (Hc1 : closed c1 = false /\ wire c1 = wire c ++ thinking ++ take n planned
                /\ written c1 = written c ++ thinking ++ take n planned
                /\ listening c1 = true /\ registry c1 = registry c
                /\ controller c1 = controller c).
  { unfold c1, push. simpl. rewrite Hopen. repeat split; assumption. }
  destruct Hc1 as (Hopen1 & Hwire1 & Hwritten1 & Hlisten1 & Hreg1 & Hctrl1).
  assert (Hreg1' : Requests.activeRequests (registry c1) !! cid = Some (controller c1)).
  { rewrite Hreg1, Hctrl1. exact Hreg. }
  destruct (cancel_arrives_closes cid c1 Hreg1' Hlisten1) as (Hclosed & Haborted & Hwire & Hwritten).
  set (c2 := cancel_arrives cid c1) in *.
  set (c3 := push (drop n planned) c2).
  assert (Hc3 : closed c3 = true /\ wire c3 = wire c2
                /\ written c3 = written c2 ++ drop n planned
                /\ signal_aborted c3 = true).
  { split; [exact (proj1 (quiet_push _ c2 Hclosed))|].
    split; [exact (proj2 (quiet_push _ c2 Hclosed))|].
    split; [reflexivity|exact Haborted]. }
  destruct Hc3 as (Hclosed3 & Hwire3 & Hwritten3 & Haborted3).
  assert (Hstep : forall (k : PlanResult -> M unit),
            (write (AGENT_START agentName) >>>
             write (STATUS "thinking" "Analyzing query and routing" agentName) >>>
             do plan <- await env req cancel DuringPlanning planned (planning env); k plan) c
            = match planning env with
              | Returned plan => k plan c3
              | Threw t => (Threw t, c3)
              end).
  { intros k. unfold bind at 1. rewrite write_push. unfold bind at 1. rewrite write_push.
    rewrite push_push.
    unfold bind at 1. unfold await, cancel.
    destruct (decide (DuringPlanning = DuringPlanning)) as [_|Hne]; [|congruence].
    unfold bind. rewrite write_all_push, push_push, <- app_assoc.
    change ([AGENT_START agentName] ++ [STATUS "thinking" "Analyzing query and routing" agentName])
      with thinking.
    fold c1. unfold arrive. fold cid. fold c2. rewrite write_all_push. fold c3.
    destruct (planning env); reflexivity. }
  cbv zeta. unfold main_body. fold planned. rewrite Hstep.
  destruct (planning env) as [plan|t] eqn:Hplan.
  - destruct (quiet_main_after_planning agentName defaultAutonomous env req cancel plan c3 Hclosed3)
      as [Hq1 Hq2].
    split; [exact Hq1|]. split.
    + transitivity (wire c3); [exact Hq2|]. rewrite Hwire3, Hwire. exact Hwire1.
    + intros t Ht. discriminate Ht.
  - cbn [fst snd]. split; [exact Hclosed3|]. split.
    + rewrite Hwire3, Hwire. exact Hwire1.
    + intros t' [= <-]. split; [reflexivity|]. split; [|exact Haborted3].
      rewrite Hwritten3, Hwritten, Hwritten1, <- !app_assoc, take_drop. reflexivity.
Qed.

Lemma cancelled_planning_run registry0 :
  approved_tasks req = [] ->
  let c := stream_response agentName defaultAutonomous env req cancel registry0 in
  wire c = SESSION_START cid :: thinking ++ take n planned
  /\ (forall t, planning env = Threw t ->
        written c = SESSION_START cid :: thinking ++ planned ++ [CANCELLED cid]).
Proof.
  intros Happroved. unfold stream_response, request_registered. rewrite Happroved. fold cid.
  destruct (registered_live cid registry0) as [Hreg Hlive].
  set (registered := Requests.registerRequest cid registry0) in *.
  unfold cancel. cbv iota beta zeta.
  set (c0 := {| registry := registered.2; controller := registered.1;
                listening := false; closed := false;
                written := []; wire := []; executed := [] |}).
  assert (Hsig : signal_aborted c0 = false) by exact Hlive.
  rewrite Hsig. subst c0. cbn [negb registry controller closed written wire executed].
  set (c2 := {| registry := registered.2; controller := registered.1;
                listening := true; closed := false;
                written := []; wire := []; executed := [] |}).
  unfold bind. rewrite write_push.
  set (c3 := push [SESSION_START cid] c2).
  destruct (main_body_cancelled c3) as (Hclosed & Hwire & Hthrow);
    [reflexivity|reflexivity|exact Hreg|].
  unfold guarded. fold cancel.
  destruct (main_body agentName defaultAutonomous env req cancel c3) as [o c4] eqn:Hrun.
  cbn [fst snd] in *.
  split.
  - cbn [close_stream wire unregister snd].
    destruct o as [u|err]; [exact Hwire|].
    destruct (bool_decide (thrown_name err = Some "AbortError") || signal_aborted c4);
      unfold write_event; cbn [wire]; rewrite Hclosed; exact Hwire.
  - intros t Ht. destruct (Hthrow t Ht) as (Ho & Hwritten & Haborted). subst o.
    cbv iota beta. rewrite Haborted, orb_true_r.
    cbn [close_stream written unregister snd write_event]. rewrite Hwritten.
    cbn [c3 push written c2 app]. rewrite <- !app_assoc. reflexivity.
Qed.
End CancelledPlanning.

(** ** Requests that nobody cancels *)

Lemma bind_write {B} e (k : unit -> M B) c : bind (write e) k c = k tt (push [e] c).
Proof. reflexivity. Qed.

Lemma bind_write_all {B} es (k : unit -> M B) c : bind (write_all es) k c = k tt (push es c).
Proof. unfold bind. rewrite write_all_push. reflexivity. Qed.

Lemma bind_assoc {A B C} (m : M A) (f : A -> M B) (g : B -> M C) c :
  bind (bind m f) g c = bind m (fun x => bind (f x) g) c.
Proof. unfold bind. destruct (m c) as [[a|t] c']; reflexivity. Qed.


Lemma bind_note {B} tasks (k : unit -> M B) c :
  bind (fun c' => (Returned tt, note_executed tasks c')) k c = k tt (note_executed tasks c).
Proof. reflexivity. Qed.

Lemma closed_push es c : closed (push es c) = closed c.
Proof. reflexivity. Qed.

Lemma wire_push es c : closed c = false -> wire (push es c) = wire c ++ es.
Proof. intros H. unfold push. simpl. rewrite H. reflexivity. Qed.

Lemma executed_push es c : executed (push es c) = executed c.
Proof. reflexivity. Qed.

Section Uncancelled.
Variable agentName : string.
Variable defaultAutonomous : bool.
Variable env : Env.
Variable req : Request.

Let cid : string := convId env req.

Lemma await_uncancelled {A B} p events (o : Outcome A) (k : A -> M B) c :
  bind (await env req None p events o) k c
  = match o with
    | Returned a => k a (push events c)
    | Threw t => (Threw t, push events c)
    end.
Proof.
  unfold await. unfold bind at 1. rewrite bind_write_all. destruct o; reflexivity.
Qed.

(** The events of a synthesis that succeeds. *)
Definition synthesis_events (skillNames : list string) (run : SynthesisRun) : list SseEvent :=
  match skillNames with
  | [] => []
  | _ => [SKILL_INJECT agentName skillNames "response"]
  end
  ++ [STATUS "synthesizing" "Combining results" agentName; AGENT_THINK SYNTHESIS_MESSAGE]
  ++ map TEXT_DELTA (deltas run).

Lemma synthesize_uncancelled {B} sources skillNames usage (k : string * UsageInfo -> M B) c :
  context (synthesis env sources skillNames) = Returned tt ->
  final_usage (synthesis env sources skillNames) = Returned usage ->
  bind (synthesizeStreaming agentName env req None sources skillNames) k c
  = k (String.concat EmptyString (deltas (synthesis env sources skillNames)), usage)
      (push (synthesis_events skillNames (synthesis env sources skillNames)) c).
Proof.
  intros Hctx Husage. unfold synthesizeStreaming, synthesis_events.
  unfold bind at 1. unfold bind at 1. rewrite Hctx.
  unfold bind at 1.
  destruct skillNames as [|s rest].
  - unfold ret. unfold bind at 1. rewrite write_push. unfold bind at 1. rewrite write_push.
    rewrite await_uncancelled, Husage. unfold ret. rewrite !push_push. reflexivity.
  - rewrite write_push. unfold bind at 1. rewrite write_push. unfold bind at 1.
    rewrite write_push. rewrite await_uncancelled, Husage. unfold ret.
    rewrite !push_push. reflexivity.
Qed.

Lemma save_uncancelled {B} text (k : unit -> M B) c :
  saving env = Returned tt ->
  bind (saveAssistantResponse env req None text) k c = k tt c.
Proof.
  intros Hsave. unfold saveAssistantResponse.
  destruct (conversationId req), text; try reflexivity;
    rewrite await_uncancelled, Hsave, push_nil; reflexivity.
Qed.

(** What [execute_plan] reports at the end. *)
Definition plan_report (before : list UsageInfo) (results : list TaskResult)
    (usage : UsageInfo) : DonePayload :=
  {| d_toolsUsed := tools_of results; d_conversationId := cid;
     d_awaitingResponse := false; d_awaitingApproval := false;
     d_items := None; d_plan := None;
     d_tasks := Some (map summarize_result results);
     d_usage := total_usage (before ++ subAgentUsages results ++ [usage]) (elapsed env) |}.

Lemma execute_plan_uncancelled before tasks usage c :
  let results := executeTasksSettled (executing env) tasks in
  let run := synthesis env (taskResultsToSources results) (collectResponseSkills results) in
  context run = Returned tt ->
  final_usage run = Returned usage ->
  saving env = Returned tt ->
  closed c = false ->
  let r := execute_plan agentName env req None before tasks c in
  r.1 = Returned tt
  /\ executed r.2 = executed c ++ tasks
  /\ closed r.2 = false
  /\ registry r.2 = registry c
  /\ last (wire r.2) = Some (DONE (plan_report before results usage)).
Proof.
  intros results run Hctx Husage Hsave Hopen. cbv zeta.
  unfold execute_plan, run_tasks.
  rewrite bind_assoc, bind_note, await_uncancelled.
  fold results. rewrite (synthesize_uncancelled _ _ usage) by assumption.
  fold run. cbn [fst snd]. rewrite save_uncancelled by exact Hsave.
  rewrite bind_write. rewrite write_push. cbn [fst snd].
  split; [reflexivity|]. split; [reflexivity|].
  split; [rewrite !closed_push; exact Hopen|]. split; [reflexivity|].
  rewrite wire_push by (rewrite !closed_push; exact Hopen).
  rewrite last_snoc. reflexivity.
Qed.

(** What the handler reports when it stops to ask for approval. *)
Definition approval_request (plan : PlanResult) : DonePayload :=
  {| d_toolsUsed := [CREATE_TASK]; d_conversationId := cid;
     d_awaitingResponse := false; d_awaitingApproval := true;
     d_items := None; d_plan := Some (collectTasksFromSteps (steps plan)); d_tasks := None;
     d_usage := with_duration (plan_usage plan) (elapsed env) |}.

Lemma main_body_awaits_approval plan c :
  planning env = Returned plan ->
  is_autonomous defaultAutonomous req = false ->
  find_clarification plan = None ->
  collectTasksFromSteps (steps plan) <> [] ->
  closed c = false ->
  let r := main_body agentName defaultAutonomous env req None c in
  r.1 = Returned tt
  /\ executed r.2 = executed c
  /\ last (wire r.2) = Some (DONE (approval_request plan)).
Proof.
  intros Hplan Hauto Hclar Htasks Hopen. cbv zeta.
  unfold main_body. rewrite !bind_write, await_uncancelled, Hplan, Hauto, Hclar.
  unfold approval_request.
  destruct (collectTasksFromSteps (steps plan)) as [|t ts]; [congruence|].
  rewrite !bind_write, write_push. cbn [fst snd].
  split; [reflexivity|]. split; [reflexivity|].
  rewrite wire_push by (rewrite !closed_push; exact Hopen).
  rewrite last_snoc. reflexivity.
Qed.

Lemma main_body_autonomous plan usage c :
  let tasks := collectTasksFromSteps (steps plan) in
  let results := executeTasksSettled (executing env) tasks in
  let run := synthesis env (taskResultsToSources results) (collectResponseSkills results) in
  planning env = Returned plan ->
  is_autonomous defaultAutonomous req = true ->
  tasks <> [] ->
  context run = Returned tt ->
  final_usage run = Returned usage ->
  saving env = Returned tt ->
  closed c = false ->
  let r := main_body agentName defaultAutonomous env req None c in
  r.1 = Returned tt
  /\ executed r.2 = executed c ++ tasks
  /\ last (wire r.2) = Some (DONE (plan_report [plan_usage plan] results usage)).
Proof.
  intros tasks results run Hplan Hauto Htasks Hctx Husage Hsave Hopen. cbv zeta.
  unfold main_body. rewrite !bind_write, await_uncancelled, Hplan, Hauto.
  fold tasks. destruct tasks as [|t ts] eqn:Etasks; [congruence|].
  rewrite !bind_write.
  match goal with
  | |- context [execute_plan _ _ _ _ _ _ ?c'] =>
      destruct (execute_plan_uncancelled [plan_usage plan] (t :: ts) usage c'
                  Hctx Husage Hsave) as (H1 & H2 & _ & _ & H5)
  end.
  { rewrite !closed_push. exact Hopen. }
  split; [exact H1|]. split; [exact H2|exact H5].
Qed.






Lemma approved_body_executes usage c :
  let tasks := approved_tasks req in
  let results := executeTasksSettled (executing env) tasks in
  let run := synthesis env (taskResultsToSources results) (collectResponseSkills results) in
  context run = Returned tt ->
  final_usage run = Returned usage ->
  saving env = Returned tt ->
  closed c = false ->
  let r := approved_body agentName env req None c in
  r.1 = Returned tt
  /\ executed r.2 = executed c ++ tasks
  /\ last (wire r.2) = Some (DONE (plan_report [] results usage)).
Proof.
  intros tasks results run Hctx Husage Hsave Hopen. cbv zeta.
  unfold approved_body. rewrite !bind_write.
  match goal with
  | |- context [execute_plan _ _ _ _ _ _ ?c'] =>
      destruct (execute_plan_uncancelled [] tasks usage c' Hctx Husage Hsave)
        as (H1 & H2 & _ & _ & H5)
  end.
  { rewrite !closed_push. exact Hopen. }
  split; [exact H1|]. split; [exact H2|exact H5].
Qed.

(** A request that is not cancelled: the handler body runs on an open
    stream, and what it leaves on the wire is what the client receives. *)
Lemma stream_response_uncancelled registry0 :
  exists c,
    closed c = false /\ executed c = [] /\
    let body := match approved_tasks req with
                | [] => main_body agentName defaultAutonomous env req None
                | _ => approved_body agentName env req None
                end in
    forall c', body c = (Returned tt, c') ->
      wire (stream_response agentName defaultAutonomous env req None registry0) = wire c'
      /\ executed (stream_response agentName defaultAutonomous env req None registry0)
         = executed c'.
Proof.
  destruct (registered_live cid registry0) as [_ Hlive].
  set (registered := Requests.registerRequest cid registry0) in *.
  set (c2 := {| registry := registered.2; controller := registered.1;
                listening := true; closed := false;
                written := []; wire := []; executed := [] |}).
  exists (push [SESSION_START cid] c2).
  split; [reflexivity|]. split; [reflexivity|].
  intros body c' Hrun. unfold stream_response, request_registered. fold cid. fold registered.
  cbv iota beta zeta.
  change (signal_aborted _) with (Requests.aborted registered.2 registered.1).
  rewrite Hlive. cbn [negb registry controller closed written wire executed].
  fold c2. fold body. rewrite bind_write. unfold guarded. rewrite Hrun.
  split; reflexivity.
Qed.

(** When the waits before the stream return, the request is the stream. *)
Lemma buildSseHandler_streams cancel registry0 :
  prepared env req = Returned tt ->
  buildSseHandler agentName defaultAutonomous env req cancel registry0
  = stream_response agentName defaultAutonomous env req cancel registry0.
Proof. intros H. unfold buildSseHandler. rewrite H. reflexivity. Qed.

(** When one of them throws, nothing is written, nothing is executed, and
    the registration stays unless a cancellation has removed it. *)
Lemma buildSseHandler_rejects cancel registry0 failure :
  prepared env req = Threw failure ->
  let final := buildSseHandler agentName defaultAutonomous env req cancel registry0 in
  written final = [] /\ wire final = [] /\ executed final = [] /\ closed final = false
  /\ ((forall k, cancel <> Some (BeforeStream, k)) ->
      Requests.activeRequests (registry final) !! cid = Some (controller final)
      /\ signal_aborted final = false).
Proof.
  intros H. cbv zeta. unfold buildSseHandler, request_registered. rewrite H.
  destruct (registered_live cid registry0) as [Hreg Hlive].
  destruct cancel as [[[] k]|]; cbn [written wire executed closed cancel_arrives orb andb].
  all: split; [reflexivity|]; split; [reflexivity|]; split; [reflexivity|].
  all: split; [reflexivity|]; intros Hnot.
  all: try (exfalso; apply (Hnot k); reflexivity).
  all: split; [exact Hreg|exact Hlive].
Qed.
End Uncancelled.

(** ** A sample request *)

Definition stage (tokens : Z) (price : float) (ms : Z) : UsageInfo :=
  {| inputTokens := tokens; outputTokens := tokens; totalTokens := 2 * tokens;
     cost := Some price; durationMs := ms |}.

Definition task (a q : string) : Task := {| t_agent := a; t_query := q; t_skills := None |}.

Definition call_of (t : Task) : ToolCall :=
  {| tc_toolName := CREATE_TASK;
     tc_input := Some {| in_agent := Some (t_agent t); in_query := Some (t_query t);
                         in_skills := t_skills t |} |}.

(** A planning result that declares [tasks] and routes nothing. *)
Definition plan_of (tasks : list Task) : PlanResult :=
  {| steps := [{| toolCalls := map call_of tasks; toolResults := [] |}];
     text := EmptyString; plan_usage := stage 100 0.5 100 |}.

Definition two_tasks : list Task := [task "weather" "rain in Oslo?"; task "news" "headlines"].

Definition answer (t : Task) (reply : string) (u : UsageInfo) : TaskResult :=
  {| Delegation.agent := t_agent t; Delegation.query := t_query t;
     Delegation.result := {| Delegation.response := reply; Delegation.items := None;
                             Delegation.toolsUsed := ["getWeather"];
                             Delegation.usage := Some u |};
     Delegation.responseSkills := None |}.

(** The weather task succeeds; every other task rejects. *)
Definition sample_executing (t : Task) : Outcome TaskResult :=
  if String.eqb (t_agent t) "weather"
  then Returned (answer t "Light rain." (stage 50 0.25 200))
  else Threw (ThrownError (mkError "Error" "agent crashed")).

Definition sample_env (plan : Outcome PlanResult) : Env :=
  {| building_prompt := Returned tt;
     loading_history := Returned tt;
     building_tools := Returned tt;
     planning := plan;
     routed := [];
     executing := sample_executing;
     forwarded := [B_DELEGATE_START; B_TOOL_CALL; B_DELEGATE_END];
     synthesis := fun _ _ => {| context := Returned tt; deltas := ["Rain. "; "No news."];
                                final_usage := Returned (stage 30 0.125 300) |};
     synthesis_json := fun _ _ => Returned ("Rain. No news.", stage 30 0.125 300);
     saving := Returned tt;
     elapsed := 650;
     generated_id := "conv_generated" |}.

Definition sample_request (auto : option bool) (approved : option (list Task)) : Request :=
  {| message := "weather and news"; conversationId := Some "conv_1";
     planMode := false; approvedPlan := approved; autonomous := auto |}.

(** The planning call rejects with an [AbortError], as the model client
    does when its abort signal fires. *)
Definition aborted_planning : Outcome PlanResult :=
  Threw (ThrownError (mkError "AbortError" "The operation was aborted")).


(** ** Isolation of the tasks of a plan *)

(** Every task of the plan gets a result, at its own position; a task
    that rejects gets an error result and leaves the results of the others
    as they are. *)
Lemma executeTasksSettled_isolates executing tasks :
  length (executeTasksSettled executing tasks) = length tasks
  /\ (forall i t, tasks !! i = Some t ->
        executeTasksSettled executing tasks !! i = Some (settle t (executing t)))
  /\ (forall t value, executing t = Returned value -> settle t (executing t) = value)
  /\ (forall t reason, executing t = Threw reason ->
        settle t (executing t)
        = Delegation.errorResult (t_agent t) (t_query t)
            ("Task failed: " +:+ reason_message reason)).
Proof.
  unfold executeTasksSettled. split; [apply length_map|].
  split; [intros i t H; rewrite list_lookup_fmap, H; reflexivity|].
  split; intros t x ->; reflexivity.
Qed.

(** ** Usage reported at the end of a request *)








(** A request that is only routed, answered by the JSON handler: the
    planning call took 100 ms and the routed agent reports 200 ms; the
    response says 200, whatever the time from start to end was. *)
Definition routing_plan : PlanResult :=
  {| steps := [{| toolCalls := [{| tc_toolName := ROUTE_TO_AGENT;
                                   tc_input := Some {| in_agent := Some "weather";
                                                       in_query := Some "rain in Oslo?";
                                                       in_skills := None |} |}];
                  toolResults := [{| tr_toolName := ROUTE_TO_AGENT;
                                     tr_output := Some {| out_response := Some "Light rain.";
                                                          out_items := None;
                                                          out_toolsUsed := Some ["getWeather"];
                                                          out_usage := Some (stage 50 0.25 200);
                                                          out_responseSkills := None |};
                                     tr_result := None |}] |}];
     text := "Light rain."; plan_usage := stage 100 0.5 100 |}.

Lemma json_routed_duration_is_the_maximum :
  (j_usage <$> (match (buildJsonHandler true (sample_env (Returned routing_plan))
                         (sample_request None None)).2 with
                | Returned response => Some response
                | Threw _ => None
                end))
  = Some {| inputTokens := 150; outputTokens := 150; totalTokens := 300;
            cost := Some 0.75%float; durationMs := 200 |}
  /\ elapsed (sample_env (Returned routing_plan)) = 650.
Proof. split; vm_compute; reflexivity. Qed.

(** ** Plans and approval *)

(** The streaming handler: a declared plan is returned for approval when
    the request is not autonomous, executed in full when it is, and an
    approved plan is executed in full. *)
Lemma sse_handler_plan agentName defaultAutonomous env req plan usage registry0 :
  let tasks := collectTasksFromSteps (steps plan) in
  let final := buildSseHandler agentName defaultAutonomous env req None registry0 in
  prepared env req = Returned tt ->
  approved_tasks req = [] ->
  planning env = Returned plan ->
  tasks <> [] ->
  (is_autonomous defaultAutonomous req = false ->
   find_clarification plan = None ->
   executed final = []
   /\ last (wire final) = Some (DONE (approval_request env req plan)))
  /\ (is_autonomous defaultAutonomous req = true ->
      let results := executeTasksSettled (executing env) tasks in
      context (synthesis env (taskResultsToSources results) (collectResponseSkills results))
      = Returned tt ->
      final_usage (synthesis env (taskResultsToSources results) (collectResponseSkills results))
      = Returned usage ->
      saving env = Returned tt ->
      executed final = tasks
      /\ last (wire final) = Some (DONE (plan_report env req [plan_usage plan] results usage))).
Proof.
  intros tasks final Hprep Happroved Hplan Htasks. subst final.
  rewrite (buildSseHandler_streams _ _ _ _ _ _ Hprep).
  set (final := stream_response agentName defaultAutonomous env req None registry0).
  destruct (stream_response_uncancelled agentName defaultAutonomous env req registry0)
    as (c & Hopen & Hnone & Hrun).
  rewrite Happroved in Hrun. cbv zeta in Hrun.
  split.
  - intros Hauto Hclar.
    destruct (main_body_awaits_approval agentName defaultAutonomous env req plan c
                Hplan Hauto Hclar Htasks Hopen) as (H1 & H2 & H3).
    destruct (main_body agentName defaultAutonomous env req None c) as [o c'] eqn:Hbody.
    cbn [fst snd] in H1, H2, H3. subst o.
    destruct (Hrun c' eq_refl) as [Hwire Hexec].
    subst final. rewrite Hwire, Hexec, H2, Hnone. split; [reflexivity|exact H3].
  - intros Hauto results Hctx Husage Hsave.
    destruct (main_body_autonomous agentName defaultAutonomous env req plan usage c
                Hplan Hauto Htasks Hctx Husage Hsave Hopen) as (H1 & H2 & H3).
    destruct (main_body agentName defaultAutonomous env req None c) as [o c'] eqn:Hbody.
    cbn [fst snd] in H1, H2, H3. subst o.
    destruct (Hrun c' eq_refl) as [Hwire Hexec].
    subst final. rewrite Hwire, Hexec, H2, Hnone. split; [reflexivity|exact H3].
Qed.

(** An approved plan is executed in full by the streaming handler and by
    the JSON handler. *)
Lemma approved_plan_executed agentName defaultAutonomous env req usage registry0 :
  let tasks := approved_tasks req in
  let results := executeTasksSettled (executing env) tasks in
  tasks <> [] ->
  (prepared env req = Returned tt ->
   context (synthesis env (taskResultsToSources results) (collectResponseSkills results))
   = Returned tt ->
   final_usage (synthesis env (taskResultsToSources results) (collectResponseSkills results))
   = Returned usage ->
   saving env = Returned tt ->
   executed (buildSseHandler agentName defaultAutonomous env req None registry0) = tasks)
  /\ (buildJsonHandler defaultAutonomous env req).1 = tasks.
Proof.
  intros tasks results Htasks. subst results tasks. split.
  - intros Hprep Hctx Husage Hsave. rewrite (buildSseHandler_streams _ _ _ _ _ _ Hprep).
    destruct (stream_response_uncancelled agentName defaultAutonomous env req registry0)
      as (c & Hopen & Hnone & Hrun).
    destruct (approved_body_executes agentName env req usage c Hctx Husage Hsave Hopen)
      as (H1 & H2 & _).
    destruct (approved_body agentName env req None c) as [o c'] eqn:Hbody.
    cbn [fst snd] in H1, H2. subst o. cbv zeta in Hrun.
    destruct (approved_tasks req) as [|t ts] eqn:Etasks; [congruence|].
    destruct (Hrun c' Hbody) as [_ Hexec].
    rewrite Hexec, H2, Hnone. reflexivity.
  - unfold buildJsonHandler.
    destruct (approved_tasks req) as [|t ts] eqn:Etasks; [congruence|].
    unfold json_execute. destruct (synthesis_json _ _ _) as [[? ?]|]; reflexivity.
Qed.

(** C3 fails on the JSON handler: it computes [autonomous] and never looks
    at it.  A plan declared by the planning step is executed in full
    whatever the request and the configuration say about autonomy; the
    response lists the executed tasks and has no field that asks for
    approval. *)
Theorem buildJsonHandler_ignores_autonomous defaultAutonomous env req plan :
  let tasks := collectTasksFromSteps (steps plan) in
  approved_tasks req = [] ->
  planning env = Returned plan ->
  tasks <> [] ->
  (buildJsonHandler defaultAutonomous env req).1 = tasks
  /\ (forall response,
        (buildJsonHandler defaultAutonomous env req).2 = Returned response ->
        j_tasks response
        = Some (map summarize_result (executeTasksSettled (executing env) tasks)))
  /\ (forall defaultAutonomous' autonomous',
        buildJsonHandler defaultAutonomous' env
          {| message := message req; conversationId := conversationId req;
             planMode := planMode req; approvedPlan := approvedPlan req;
             autonomous := autonomous' |}
        = buildJsonHandler defaultAutonomous env req).
Proof.
  intros tasks Happroved Hplan Htasks.
  assert (Hrun : forall d r, approved_tasks r = [] ->
            buildJsonHandler d env r
            = json_execute env r [plan_usage plan] true tasks).
  { intros d r Hr. unfold buildJsonHandler. rewrite Hr, Hplan. fold tasks.
    destruct tasks; [congruence|reflexivity]. }
  rewrite (Hrun _ _ Happroved).
  split; [unfold json_execute; destruct (synthesis_json _ _ _) as [[? ?]|]; reflexivity|].
  split.
  - unfold json_execute. destruct (synthesis_json _ _ _) as [[? ?]|]; [|discriminate].
    intros response [= <-]. reflexivity.
  - intros d' a'.
    exact (Hrun d' {| message := message req; conversationId := conversationId req;
                      planMode := planMode req; approvedPlan := approvedPlan req;
                      autonomous := a' |} Happroved).
Qed.

(** The sample plan, sent to the JSON handler of an orchestrator that is
    not autonomous, in a request that asks for approval: both tasks run. *)
Lemma buildJsonHandler_ignores_autonomous_witness :
  (buildJsonHandler false (sample_env (Returned (plan_of two_tasks)))
     (sample_request (Some false) None)).1 = two_tasks.
Proof.
  apply (proj1 (buildJsonHandler_ignores_autonomous false
                  (sample_env (Returned (plan_of two_tasks)))
                  (sample_request (Some false) None) (plan_of two_tasks)
                  eq_refl eq_refl ltac:(discriminate))).
Defined.

(** ** Cancellation *)

(** The [catch] block never reports a cancellation as an error: when the
    body throws an [AbortError], or throws anything once the signal is
    aborted, the one event it hands to the writer is [cancelled]. *)
Lemma guarded_reports_cancellation env req (body : M unit) c err c1 :
  body c = (Threw err, c1) ->
  thrown_name err = Some "AbortError" \/ signal_aborted c1 = true ->
  written (guarded env req body c).2 = written c1 ++ [CANCELLED (convId env req)].
Proof.
  intros Hbody Hcancel. unfold guarded. rewrite Hbody.
  assert (H : bool_decide (thrown_name err = Some "AbortError") || signal_aborted c1 = true).
  { destruct Hcancel as [H|H]; [rewrite (bool_decide_eq_true_2 _ H)|rewrite H, orb_true_r];
      reflexivity. }
  rewrite H. reflexivity.
Qed.

Lemma forwarded_not_terminal (events : list Bridged) :
  List.filter is_cancelled (map FORWARDED events) = []
  /\ List.filter is_error (map FORWARDED events) = [].
Proof. induction events as [|e events [IH1 IH2]]; split; try reflexivity; assumption. Qed.

(** C4 fails once the stream exists: aborting the controller runs the
    abort listener of [createSSEStream], which closes the stream before the
    handler gets to its [catch] block.  When the cancellation arrives while
    the planning call is in flight, the client receives the events
    written until then (the session start, the agent start, the status and
    the bus events bridged so far) and nothing else: no [cancelled] event.
    The handler does hand a [cancelled] event to the writer when the
    planning call throws, but [enqueue] on the closed stream throws and
    [writeSSE] swallows it.  (When a wait before the stream has thrown, the
    request has no stream and no event at all.) *)
Theorem cancel_during_planning_drops_cancelled agentName defaultAutonomous env req n registry0 :
  let final := buildSseHandler agentName defaultAutonomous env req (Some (DuringPlanning, n))
                 registry0 in
  approved_tasks req = [] ->
  (prepared env req = Returned tt ->
   wire final
   = SESSION_START (convId env req) :: thinking agentName
       ++ take n (map FORWARDED (routed env)))
  /\ List.filter is_cancelled (wire final) = []
  /\ List.filter is_error (wire final) = []
  /\ (prepared env req = Returned tt ->
      forall t, planning env = Threw t ->
        written final
        = wire final ++ drop n (map FORWARDED (routed env)) ++ [CANCELLED (convId env req)]).
Proof.
  intros final Happroved.
  destruct (cancelled_planning_run agentName defaultAutonomous env req n registry0 Happroved)
    as [Hwire Hwritten].
  unfold planned in Hwire, Hwritten.
  destruct (forwarded_not_terminal (take n (routed env))) as [Hnone1 Hnone2].
  rewrite <- firstn_map in Hnone1, Hnone2.
  destruct (prepared env req) as [[]|failure] eqn:Hprep.
  - assert (Hfinal : final = stream_response agentName defaultAutonomous env req
                               (Some (DuringPlanning, n)) registry0).
    { subst final. apply buildSseHandler_streams, Hprep. }
    rewrite Hfinal.
    split; [intros _; exact Hwire|].
    split; [rewrite Hwire; cbn; exact Hnone1|].
    split; [rewrite Hwire; cbn; exact Hnone2|].
    intros _ t Ht. rewrite (Hwritten t Ht), Hwire. cbn [app]. f_equal.
    rewrite <- !app_assoc. f_equal. rewrite app_assoc, take_drop. reflexivity.
  - destruct (buildSseHandler_rejects agentName defaultAutonomous env req
                (Some (DuringPlanning, n)) registry0 failure Hprep) as (_ & Hempty & _).
    fold final in Hempty. rewrite Hempty.
    split; [discriminate|]. split; [reflexivity|]. split; [reflexivity|discriminate].
Qed.

(** The sample request, cancelled while the planning call is in flight;
    the call rejects with an [AbortError]. *)
Lemma cancel_during_planning_drops_cancelled_witness :
  let final := buildSseHandler "supervisor" true (sample_env aborted_planning)
                 (sample_request None None) (Some (DuringPlanning, 0%nat)) Requests.initial in
  wire final = [SESSION_START "conv_1"; AGENT_START "supervisor";
                STATUS "thinking" "Analyzing query and routing" "supervisor"]
  /\ written final = wire final ++ [CANCELLED "conv_1"].
Proof.
  destruct (cancel_during_planning_drops_cancelled "supervisor" true
              (sample_env aborted_planning) (sample_request None None) 0%nat
              Requests.initial eq_refl) as (Hwire & _ & _ & Hwritten).
  split; [exact (Hwire eq_refl)|]. apply (Hwritten eq_refl _ eq_refl).
Defined.

(** A cancellation that arrives before the stream exists finds no listener
    to run: the [cancelled] event then reaches the client, once and last. *)
Lemma cancel_before_stream_is_reported :
  wire (buildSseHandler "supervisor" true (sample_env aborted_planning)
          (sample_request None None) (Some (BeforeStream, 0%nat)) Requests.initial)
  = [SESSION_START "conv_1"; AGENT_START "supervisor";
     STATUS "thinking" "Analyzing query and routing" "supervisor"; CANCELLED "conv_1"].
Proof. vm_compute. reflexivity. Qed.

(** ** The tasks of a plan and their results *)

(** The tasks of a plan are exactly the [createTask] calls that name an
    agent and a query: a call of another tool, a call without input, or
    one whose agent or query is missing or empty yields no task. *)
Theorem collected_tasks_are_complete_calls (plan_steps : list Step) (t : Task) :
  t ∈ collectTasksFromSteps plan_steps
  <-> exists step tc input,
        step ∈ plan_steps /\ tc ∈ toolCalls step
        /\ tc_toolName tc = CREATE_TASK /\ tc_input tc = Some input
        /\ in_agent input = Some (t_agent t) /\ t_agent t <> EmptyString
        /\ in_query input = Some (t_query t) /\ t_query t <> EmptyString
        /\ in_skills input = t_skills t.
Proof.
  unfold collectTasksFromSteps. rewrite list_elem_of_In, in_flat_map. split.
  - intros (step & Hstep & Hin). apply in_flat_map in Hin as (tc & Htc & Hin).
    exists step, tc. unfold collect_call, truthy_string in Hin.
    destruct (tc_input tc) as [input|]; [|destruct Hin].
    exists input.
    destruct (String.eqb_spec (tc_toolName tc) CREATE_TASK) as [Hname|_]; [|destruct Hin].
    destruct (in_agent input) as [[|a0 a]|]; destruct (in_query input) as [[|q0 q]|];
      cbn in Hin; try contradiction.
    destruct Hin as [<-|[]]; cbn.
    apply list_elem_of_In in Hstep, Htc.
    repeat split; try assumption; try reflexivity; discriminate.
  - intros (step & tc & input & Hstep & Htc & Hname & Hinput & Hagent & Ha & Hquery & Hq
            & Hskills).
    exists step. split; [apply list_elem_of_In, Hstep|].
    apply in_flat_map. exists tc. split; [apply list_elem_of_In, Htc|].
    unfold collect_call. rewrite Hinput, Hname, String.eqb_refl, Hagent, Hquery.
    destruct t as [a q sk]; cbn in *. subst sk.
    destruct a; [contradiction|]. destruct q; [contradiction|]. left. reflexivity.
Qed.

(** The results of a plan follow the plan: there is one per task, in the
    order of the plan, and each names the agent and the query of its task,
    whether [executeTask] answered, refused the call or threw. *)
Theorem plan_results_follow_plan (ctx : Delegation.PluginContext)
    (runAgent : Delegation.AgentConfig -> string -> Delegation.DelegationContext
                -> Outcome Delegation.AgentResult)
    (parentCtx : option Delegation.DelegationContext) (tasks : list Task) :
  let executing := fun t =>
    (Delegation.executeTask ctx runAgent parentCtx (t_agent t) (t_query t) (t_skills t)).2 in
  map Delegation.agent (executeTasksSettled executing tasks) = map t_agent tasks
  /\ map Delegation.query (executeTasksSettled executing tasks) = map t_query tasks
  /\ map ts_agent (map summarize_result (executeTasksSettled executing tasks))
     = map t_agent tasks.
Proof.
  cbv zeta. unfold executeTasksSettled. rewrite !map_map.
  assert (Hnames : forall t,
            Delegation.agent
              (settle t (Delegation.executeTask ctx runAgent parentCtx (t_agent t)
                           (t_query t) (t_skills t)).2) = t_agent t
            /\ Delegation.query
                 (settle t (Delegation.executeTask ctx runAgent parentCtx (t_agent t)
                              (t_query t) (t_skills t)).2) = t_query t).
  { intros t.
    destruct ((Delegation.executeTask ctx runAgent parentCtx (t_agent t) (t_query t)
                 (t_skills t)).2) as [res|reason] eqn:Hrun; [|split; reflexivity].
    apply (Delegation.executeTask_names_call _ _ _ _ _ _ _ Hrun). }
  repeat split; apply map_ext; intros t; apply Hnames.
Qed.

Lemma elem_of_uniq_from (seen xs : list string) (x : string) :
  x ∈ uniq_from seen xs <-> x ∈ xs /\ x ∉ seen.
Proof.
  revert seen. induction xs as [|x0 xs IH]; intros seen; cbn [uniq_from].
  - split; [intros H; apply elem_of_nil in H; contradiction|].
    intros [H _]. apply elem_of_nil in H. contradiction.
  - destruct (bool_decide (x0 ∈ seen)) eqn:Hseen.
    + apply bool_decide_eq_true in Hseen. rewrite IH, elem_of_cons. split.
      * intros [Hin Hnot]. split; [right; exact Hin|exact Hnot].
      * intros [[->|Hin] Hnot]; [contradiction|split; assumption].
    + apply bool_decide_eq_false in Hseen. rewrite !elem_of_cons, IH, elem_of_cons. split.
      * intros [->|[Hin Hnot]]; [split; [left; reflexivity|exact Hseen]|].
        split; [right; exact Hin|]. intros H. apply Hnot. right. exact H.
      * intros [[->|Hin] Hnot]; [left; reflexivity|].
        destruct (decide (x = x0)) as [->|Hne]; [left; reflexivity|].
        right. split; [exact Hin|]. intros [H|H]; contradiction.
Qed.

Lemma NoDup_uniq_from (seen xs : list string) : NoDup (uniq_from seen xs).
Proof.
  revert seen. induction xs as [|x0 xs IH]; intros seen; cbn [uniq_from]; [constructor|].
  destruct (bool_decide (x0 ∈ seen)); [apply IH|].
  constructor; [|apply IH].
  rewrite elem_of_uniq_from. intros [_ Hnot]. apply Hnot. left.
Qed.

(** The names an orchestrator reports are reported once each: the tools
    used and the response skills of a plan hold every name that some task
    result carries, and none twice. *)
Theorem reported_names_are_unique (results : list TaskResult) (x : string) :
  NoDup (tools_of results) /\ NoDup (collectResponseSkills results)
  /\ (x ∈ tools_of results
      <-> exists r, r ∈ results /\ x ∈ Delegation.toolsUsed (Delegation.result r))
  /\ (x ∈ collectResponseSkills results
      <-> exists r skills, r ∈ results /\ Delegation.responseSkills r = Some skills
                           /\ x ∈ skills).
Proof.
  unfold tools_of, collectResponseSkills, uniq.
  split; [apply NoDup_uniq_from|]. split; [apply NoDup_uniq_from|].
  rewrite !elem_of_uniq_from, !list_elem_of_In, !in_flat_map. split.
  - split.
    + intros [(r & Hr & Hx) _]. exists r. rewrite !list_elem_of_In. split; assumption.
    + intros (r & Hr & Hx). split; [|first [apply not_elem_of_nil | intros []]].
      exists r. rewrite !list_elem_of_In in *. split; assumption.
  - split.
    + intros [(r & Hr & Hx) _]. destruct (Delegation.responseSkills r) as [skills|] eqn:Hs;
        [|destruct Hx].
      exists r, skills. rewrite !list_elem_of_In. repeat split; assumption.
    + intros (r & skills & Hr & Hs & Hx). split; [|first [apply not_elem_of_nil | intros []]].
      exists r. rewrite Hs. rewrite !list_elem_of_In in *. split; assumption.
Qed.

(** A JSON request does not fail because a task failed.  When the
    planning call (needed unless the request carries an approved plan) and
    the synthesis call return, the handler answers, whatever [executeTask]
    does: the answer lists one summary per task executed, and a task whose
    execution threw is summarized as ["Task failed: "] and the error's
    message.  A planning call that throws fails the request before any
    task is executed. *)
Theorem json_request_survives_task_failures (defaultAutonomous : bool) (env : Env)
    (req : Request) :
  (forall sources skills, exists answer, synthesis_json env sources skills = Returned answer) ->
  (approved_tasks req = [] ->
   forall failure, planning env = Threw failure ->
     buildJsonHandler defaultAutonomous env req = ([], Threw failure))
  /\ ((approved_tasks req = [] -> exists plan, planning env = Returned plan) ->
      exists resp,
        (buildJsonHandler defaultAutonomous env req).2 = Returned resp
        /\ j_conversationId resp = default (generated_id env) (conversationId req)
        /\ ((buildJsonHandler defaultAutonomous env req).1 <> [] ->
            exists summaries,
              j_tasks resp = Some summaries
              /\ length summaries = length (buildJsonHandler defaultAutonomous env req).1
              /\ forall i t reason,
                   (buildJsonHandler defaultAutonomous env req).1 !! i = Some t ->
                   executing env t = Threw reason ->
                   summaries !! i
                   = Some {| ts_agent := t_agent t; ts_query := t_query t;
                             ts_summary := slice0 Delegation.SUMMARY_LENGTH_LIMIT
                                             ("Task failed: " +:+ reason_message reason) |})).
Proof.
  intros Hsynthesis.
  assert (Hexecute : forall before with_agents tasks,
            exists resp,
              (json_execute env req before with_agents tasks).2 = Returned resp
              /\ (json_execute env req before with_agents tasks).1 = tasks
              /\ j_conversationId resp = default (generated_id env) (conversationId req)
              /\ exists summaries,
                   j_tasks resp = Some summaries
                   /\ length summaries = length tasks
                   /\ forall i t reason,
                        tasks !! i = Some t -> executing env t = Threw reason ->
                        summaries !! i
                        = Some {| ts_agent := t_agent t; ts_query := t_query t;
                                  ts_summary := slice0 Delegation.SUMMARY_LENGTH_LIMIT
                                                  ("Task failed: " +:+ reason_message reason) |}).
  { intros before with_agents tasks. unfold json_execute. cbv zeta.
    destruct (Hsynthesis
                (taskResultsToSources (executeTasksSettled (executing env) tasks))
                (collectResponseSkills (executeTasksSettled (executing env) tasks)))
      as [[text synthUsage] ->].
    eexists. split; [reflexivity|]. split; [reflexivity|]. split; [reflexivity|].
    eexists. split; [reflexivity|]. unfold executeTasksSettled.
    split; [rewrite !length_map; reflexivity|].
    intros i t reason Hi Hfail.
    change (map summarize_result (map (fun t0 => settle t0 (executing env t0)) tasks))
      with (summarize_result <$> ((fun t0 => settle t0 (executing env t0)) <$> tasks)).
    rewrite !list_lookup_fmap, Hi. cbn [fmap option_fmap option_map].
    rewrite Hfail. reflexivity. }
  unfold buildJsonHandler. cbv zeta.
  destruct (approved_tasks req) as [|t0 approved] eqn:Happroved.
  - split.
    + intros _ failure ->. reflexivity.
    + intros Hplan. destruct (Hplan eq_refl) as [plan ->].
      destruct (collectTasksFromSteps (steps plan)) as [|t1 tasks] eqn:Htasks.
      * eexists. split; [reflexivity|]. split; [reflexivity|].
        intros Hne. contradiction Hne. reflexivity.
      * destruct (Hexecute [plan_usage plan] true (t1 :: tasks))
          as (resp & Hresp & Hrun & Hid & summaries & Hsome & Hlen & Hfailed).
        exists resp. split; [exact Hresp|]. split; [exact Hid|].
        intros _. exists summaries. rewrite Hrun. repeat split; assumption.
  - split; [discriminate|]. intros _.
    destruct (Hexecute [] false (t0 :: approved))
      as (resp & Hresp & Hrun & Hid & summaries & Hsome & Hlen & Hfailed).
    exists resp. split; [exact Hresp|]. split; [exact Hid|].
    intros _. exists summaries. rewrite Hrun. repeat split; assumption.
Qed.

Lemma json_request_survives_task_failures_witness :
  exists resp,
    (buildJsonHandler true
       {| building_prompt := Returned tt; loading_history := Returned tt;
          building_tools := Returned tt; planning := Returned (plan_of two_tasks);
          routed := [];
          executing := fun _ => Threw (ThrownError (mkError "Error" "agent down"));
          forwarded := [];
          synthesis := synthesis (sample_env (Returned (plan_of two_tasks)));
          synthesis_json := fun _ _ => Returned ("Sorry.", empty_usage);
          saving := Returned tt; elapsed := 7; generated_id := "conv_9" |}
       (sample_request None None)).2 = Returned resp.
Proof.
  destruct (json_request_survives_task_failures true
              {| building_prompt := Returned tt; loading_history := Returned tt;
                 building_tools := Returned tt;
                 planning := Returned (plan_of two_tasks); routed := [];
                 executing := fun _ => Threw (ThrownError (mkError "Error" "agent down"));
                 forwarded := [];
                 synthesis := synthesis (sample_env (Returned (plan_of two_tasks)));
                 synthesis_json := fun _ _ => Returned ("Sorry.", empty_usage);
                 saving := Returned tt; elapsed := 7; generated_id := "conv_9" |}
              (sample_request None None)) as [_ Hanswers].
  - intros sources skills. eexists. reflexivity.
  - destruct Hanswers as (resp & Hresp & _).
    + intros _. eexists. reflexivity.
    + exists resp. exact Hresp.
Defined.

(** ** What every request does to its stream and to the registry *)

(** The events that end a stream. *)
Definition is_terminal (e : SseEvent) : bool :=
  match e with
  | DONE _ | CANCELLED _ | ERROR _ _ => true
  | _ => false
  end.

(** What a handler body does to the connection before it ends: it writes
    events that are not terminal, a cancellation of its conversation may
    arrive, and tasks are handed to [executeTask]. *)
Inductive moves (cid : string) (c : Conn) : Conn -> Prop :=
| moves_none : moves cid c c
| moves_push es c' :
    moves cid c c' -> Forall (fun e => is_terminal e = false) es -> moves cid c (push es c')
| moves_cancel c' : moves cid c c' -> moves cid c (cancel_arrives cid c')
| moves_note tasks c' : moves cid c c' -> moves cid c (note_executed tasks c').

Lemma moves_trans cid c1 c2 c3 : moves cid c1 c2 -> moves cid c2 c3 -> moves cid c1 c3.
Proof.
  intros H12 H23. induction H23.
  - exact H12.
  - apply moves_push; assumption.
  - apply moves_cancel; assumption.
  - apply moves_note; assumption.
Qed.

(** A computation that only makes such moves. *)
Definition clean (cid : string) {A} (m : M A) : Prop := forall c, moves cid c (m c).2.

(** A body that, when it returns, has ended the stream with a [done]
    event, and that has written no terminal event when it throws. *)
Definition finishes (cid : string) (m : M unit) : Prop :=
  forall c,
    match m c with
    | (Returned _, c') => exists c'' payload, moves cid c c'' /\ c' = push [DONE payload] c''
    | (Threw _, c') => moves cid c c'
    end.

Lemma clean_bind cid {A B} (m : M A) (k : A -> M B) :
  clean cid m -> (forall a, clean cid (k a)) -> clean cid (bind m k).
Proof.
  intros Hm Hk c. unfold bind. specialize (Hm c).
  destruct (m c) as [[a|t] c']; simpl in *; [|exact Hm].
  apply (moves_trans cid c c' _ Hm), Hk.
Qed.

Lemma finishes_bind cid {A} (m : M A) (k : A -> M unit) :
  clean cid m -> (forall a, finishes cid (k a)) -> finishes cid (bind m k).
Proof.
  intros Hm Hk c. unfold bind. specialize (Hm c).
  destruct (m c) as [[a|t] c']; simpl in *; [|exact Hm].
  specialize (Hk a c'). destruct (k a c') as [[u|t] c''].
  - destruct Hk as (c3 & payload & Hmoves & ->).
    exists c3, payload. split; [exact (moves_trans cid c c' c3 Hm Hmoves)|reflexivity].
  - exact (moves_trans cid c c' c'' Hm Hk).
Qed.

Lemma clean_ret cid {A} (a : A) : clean cid (ret a).
Proof. intros c. apply moves_none. Qed.

Lemma clean_lift cid {A} (o : Outcome A) : clean cid (fun c => (o, c)).
Proof. intros c. apply moves_none. Qed.

Lemma clean_write cid e : is_terminal e = false -> clean cid (write e).
Proof.
  intros He c. rewrite write_push. apply moves_push; [apply moves_none|].
  constructor; [exact He|constructor].
Qed.

Lemma clean_write_all cid es :
  Forall (fun e => is_terminal e = false) es -> clean cid (write_all es).
Proof. intros Hes c. rewrite write_all_push. apply moves_push; [apply moves_none|exact Hes]. Qed.

Lemma clean_note cid tasks : clean cid (fun c => (Returned tt, note_executed tasks c)).
Proof. intros c. apply moves_note, moves_none. Qed.

Lemma finishes_done cid payload : finishes cid (write (DONE payload)).
Proof. intros c. exists c, payload. split; [apply moves_none|reflexivity]. Qed.

Section Discipline.
Variable agentName : string.
Variable defaultAutonomous : bool.
Variable env : Env.
Variable req : Request.
Variable cancel : option (Await * nat).

Let cid : string := convId env req.

Lemma clean_arrive : clean cid (arrive env req).
Proof. intros c. apply moves_cancel, moves_none. Qed.

Lemma clean_await {A} p events (o : Outcome A) :
  Forall (fun e => is_terminal e = false) events ->
  clean cid (await env req cancel p events o).
Proof.
  intros Hevents. unfold await. destruct cancel as [[p' n]|];
    [destruct (decide (p' = p))|];
    repeat (apply clean_bind; [|intros ?]);
    auto using clean_write_all, clean_arrive, clean_lift, Forall_take, Forall_drop.
Qed.

Lemma clean_synthesize sources skillNames :
  clean cid (synthesizeStreaming agentName env req cancel sources skillNames).
Proof.
  unfold synthesizeStreaming. cbv zeta.
  repeat (apply clean_bind; [|intros ?]);
    try (destruct skillNames);
    auto using clean_write, clean_lift, clean_ret;
    apply clean_await; apply Forall_forall; intros e He;
    apply list_elem_of_fmap in He as (delta & -> & _); reflexivity.
Qed.

Lemma clean_save text : clean cid (saveAssistantResponse env req cancel text).
Proof.
  unfold saveAssistantResponse. destruct (conversationId req), text;
    auto using clean_ret, clean_await.
Qed.

Lemma clean_run_tasks tasks : clean cid (run_tasks env req cancel tasks).
Proof.
  unfold run_tasks. apply clean_bind; [apply clean_note|intros _].
  apply clean_await. apply Forall_forall. intros e He.
  apply list_elem_of_fmap in He as (event & -> & _). reflexivity.
Qed.

Lemma finishes_execute_plan before tasks :
  finishes cid (execute_plan agentName env req cancel before tasks).
Proof.
  unfold execute_plan.
  apply finishes_bind; [apply clean_run_tasks|intros results]. cbv zeta.
  apply finishes_bind; [apply clean_synthesize|intros synth].
  apply finishes_bind; [apply clean_save|intros _].
  apply finishes_bind; [apply clean_write; reflexivity|intros _].
  apply finishes_done.
Qed.

Lemma finishes_approved : finishes cid (approved_body agentName env req cancel).
Proof.
  unfold approved_body.
  apply finishes_bind; [apply clean_write; reflexivity|intros _].
  apply finishes_bind; [apply clean_write; reflexivity|intros _].
  apply finishes_execute_plan.
Qed.

Lemma finishes_direct plan : finishes cid (direct_body agentName env req cancel plan).
Proof.
  unfold direct_body. cbv zeta. destruct (route_results plan).
  - apply finishes_bind.
    + destruct (text plan); [apply clean_ret|].
      apply clean_bind; [apply clean_write; reflexivity|intros _; apply clean_save].
    + intros _. apply finishes_bind; [apply clean_write; reflexivity|intros _].
      apply finishes_done.
  - apply finishes_bind; [apply clean_synthesize|intros synth].
    apply finishes_bind; [apply clean_save|intros _].
    apply finishes_bind; [apply clean_write; reflexivity|intros _].
    apply finishes_done.
Qed.

Lemma finishes_main : finishes cid (main_body agentName defaultAutonomous env req cancel).
Proof.
  unfold main_body.
  apply finishes_bind; [apply clean_write; reflexivity|intros _].
  apply finishes_bind; [apply clean_write; reflexivity|intros _].
  apply finishes_bind.
  { apply clean_await. apply Forall_forall. intros e He.
    apply list_elem_of_fmap in He as (event & -> & _). reflexivity. }
  intros plan. cbv zeta.
  destruct (if is_autonomous defaultAutonomous req then None else find_clarification plan).
  - apply finishes_bind; [apply clean_write; reflexivity|intros _].
    apply finishes_bind; [apply clean_write; reflexivity|intros _].
    apply finishes_done.
  - destruct (collectTasksFromSteps (steps plan)); [apply finishes_direct|].
    apply finishes_bind; [apply clean_write; reflexivity|intros _].
    apply finishes_bind; [apply clean_write; reflexivity|intros _].
    destruct (is_autonomous defaultAutonomous req).
    + apply finishes_bind; [apply clean_write; reflexivity|intros _].
      apply finishes_execute_plan.
    + apply finishes_bind; [apply clean_write; reflexivity|intros _].
      apply finishes_done.
Qed.

(** The connection when the stream has just been created. *)
Definition stream_created (registry0 : Requests.State) : Conn :=
  let registered := Requests.registerRequest cid registry0 in
  let c0 := {| registry := registered.2; controller := registered.1;
               listening := false; closed := false;
               written := []; wire := []; executed := [] |} in
  let c1 := match cancel with
            | Some (BeforeStream, _) => cancel_arrives cid c0
            | _ => c0
            end in
  {| registry := registry c1; controller := controller c1;
     listening := negb (signal_aborted c1); closed := closed c1;
     written := written c1; wire := wire c1; executed := executed c1 |}.

(** Every request: the session start, moves, one terminal event, the
    [unregisterRequest] of the [finally] block and the [close]. *)
Lemma stream_response_shape registry0 :
  exists last_conn terminal,
    moves cid (push [SESSION_START cid] (stream_created registry0)) last_conn
    /\ is_terminal terminal = true
    /\ stream_response agentName defaultAutonomous env req cancel registry0
       = close_stream (unregister cid (push [terminal] last_conn)).
Proof.
  set (body := match approved_tasks req with
               | [] => main_body agentName defaultAutonomous env req cancel
               | _ => approved_body agentName env req cancel
               end).
  assert (Hbody : finishes cid body).
  { subst body. destruct (approved_tasks req); [apply finishes_main|apply finishes_approved]. }
  assert (Hrun : stream_response agentName defaultAutonomous env req cancel registry0
                 = close_stream (guarded env req body
                                   (push [SESSION_START cid] (stream_created registry0))).2).
  { unfold stream_response, request_registered. cbv zeta. fold body. rewrite bind_write.
    reflexivity. }
  rewrite Hrun. unfold guarded.
  specialize (Hbody (push [SESSION_START cid] (stream_created registry0))).
  destruct (body _) as [[u|err] c1].
  - destruct Hbody as (c'' & payload & Hmoves & ->).
    exists c'', (DONE payload). split; [exact Hmoves|]. split; reflexivity.
  - destruct (bool_decide (thrown_name err = Some "AbortError") || signal_aborted c1).
    + exists c1, (CANCELLED cid). split; [exact Hbody|]. split; reflexivity.
    + exists c1, (ERROR cid (thrown_message err)). split; [exact Hbody|]. split; reflexivity.
Qed.

End Discipline.

(** *** What the moves keep *)

Definition nonterminal (es : list SseEvent) : Prop :=
  Forall (fun e => is_terminal e = false) es.

Lemma moves_written cid c c' :
  moves cid c c' -> exists es, written c' = written c ++ es /\ nonterminal es.
Proof.
  induction 1 as [|es c' _ (es0 & Hw & Hes0) Hes|c' _ IH|tasks c' _ IH].
  - exists []. rewrite app_nil_r. split; [reflexivity|constructor].
  - exists (es0 ++ es). unfold push. simpl. rewrite Hw, app_assoc.
    split; [reflexivity|apply Forall_app; split; assumption].
  - exact IH.
  - exact IH.
Qed.

(** The wire is a prefix of what was written, and all of it while the
    stream is open. *)
Definition wire_follows (c : Conn) : Prop :=
  (exists dropped, written c = wire c ++ dropped) /\ (closed c = false -> wire c = written c).

Lemma wire_follows_push es c : wire_follows c -> wire_follows (push es c).
Proof.
  intros [[dropped Hprefix] Hopen]. unfold wire_follows, push. simpl.
  destruct (closed c) eqn:Hclosed.
  - split; [|discriminate]. exists (dropped ++ es). rewrite Hprefix, app_assoc. reflexivity.
  - rewrite (Hopen eq_refl). split; [exists []; rewrite app_nil_r|]; reflexivity.
Qed.

Lemma moves_wire_follows cid c c' : moves cid c c' -> wire_follows c -> wire_follows c'.
Proof.
  induction 1 as [|es c' _ IH _|c' _ IH|tasks c' _ IH]; intros Hc.
  - exact Hc.
  - apply wire_follows_push, IH, Hc.
  - destruct (IH Hc) as [Hprefix Hopen]. split; [exact Hprefix|].
    unfold cancel_arrives. simpl. intros Hclosed.
    apply orb_false_elim in Hclosed as [Hclosed _]. apply Hopen, Hclosed.
  - exact (IH Hc).
Qed.

Lemma cancelRequest_other cid other st :
  other <> cid ->
  Requests.activeRequests (Requests.cancelRequest cid st).2 !! other
  = Requests.activeRequests st !! other.
Proof.
  intros Hne. unfold Requests.cancelRequest.
  destruct (Requests.activeRequests st !! cid); [|reflexivity].
  simpl. apply lookup_delete_ne. congruence.
Qed.

Lemma moves_registry_other cid other c c' :
  other <> cid -> moves cid c c' ->
  Requests.activeRequests (registry c') !! other = Requests.activeRequests (registry c) !! other.
Proof.
  intros Hne. induction 1 as [|es c' _ IH _|c' _ IH|tasks c' _ IH]; try exact IH.
  - reflexivity.
  - unfold cancel_arrives. simpl. rewrite cancelRequest_other by exact Hne. exact IH.
Qed.

Lemma moves_listening cid c c' :
  moves cid c c' -> listening c' = listening c /\ controller c' = controller c.
Proof. induction 1; try assumption. split; reflexivity. Qed.

(** Once the abort listener is installed, an aborted signal means a closed
    stream. *)
Definition listener_closes (c : Conn) : Prop :=
  listening c = true -> signal_aborted c = true -> closed c = true.

Lemma moves_listener_closes cid c c' :
  moves cid c c' -> listener_closes c -> listener_closes c'.
Proof.
  induction 1 as [|es c' _ IH _|c' _ IH|tasks c' _ IH]; intros Hc.
  - exact Hc.
  - exact (IH Hc).
  - unfold listener_closes, cancel_arrives, signal_aborted. simpl.
    intros -> ->. apply orb_true_r.
  - exact (IH Hc).
Qed.

Section Streams.
Variable agentName : string.
Variable defaultAutonomous : bool.
Variable env : Env.
Variable req : Request.
Variable cancel : option (Await * nat).
Variable registry0 : Requests.State.

Let cid : string := convId env req.
Let start : Conn := stream_created env req cancel registry0.

Lemma stream_created_fresh :
  written start = [] /\ wire start = [] /\ closed start = false.
Proof.
  subst start. unfold stream_created. destruct cancel as [[[] n]|]; repeat split; reflexivity.
Qed.

Lemma stream_created_listening :
  listening start = negb (signal_aborted start)
  /\ (listening start = false -> exists n, cancel = Some (BeforeStream, n)).
Proof.
  split; [reflexivity|]. subst start. unfold stream_created.
  destruct (registered_live (convId env req) registry0) as [_ Hlive].
  destruct cancel as [[[] n]|]; cbn [listening];
    try (intros _; exists n; reflexivity);
    unfold signal_aborted; cbn [registry controller]; rewrite Hlive; discriminate.
Qed.

Lemma stream_created_registry other :
  other <> cid ->
  Requests.activeRequests (registry start) !! other
  = Requests.activeRequests registry0 !! other.
Proof.
  intros Hne. subst start. unfold stream_created.
  assert (Hreg : Requests.activeRequests (Requests.registerRequest cid registry0).2 !! other
                 = Requests.activeRequests registry0 !! other).
  { unfold Requests.registerRequest. cbn [snd Requests.activeRequests].
    rewrite lookup_insert_ne by congruence. apply cancelRequest_other, Hne. }
  destruct cancel as [[[] n]|]; cbn [registry]; try exact Hreg.
  unfold cancel_arrives. cbn [registry]. rewrite cancelRequest_other by exact Hne. exact Hreg.
Qed.

End Streams.

(** *** Once the stream exists *)

Lemma stream_ends_with_one_terminal_event_streamed (agentName : string) (defaultAutonomous : bool)
    (env : Env) (req : Request) (cancel : option (Await * nat))
    (registry0 : Requests.State) :
  let final := stream_response agentName defaultAutonomous env req cancel registry0 in
  exists es terminal,
    written final = SESSION_START (convId env req) :: es ++ [terminal]
    /\ Forall (fun e => is_terminal e = false) es
    /\ is_terminal terminal = true
    /\ closed final = true.
Proof.
  cbv zeta.
  destruct (stream_response_shape agentName defaultAutonomous env req cancel registry0)
    as (last_conn & terminal & Hmoves & Hterminal & ->).
  destruct (moves_written _ _ _ Hmoves) as (es & Hwritten & Hes).
  destruct (stream_created_fresh env req cancel registry0) as (Hfresh & _ & _).
  exists es, terminal. split; [|split; [exact Hes|split; [exact Hterminal|reflexivity]]].
  cbn [close_stream unregister push written]. rewrite Hwritten.
  cbn [push written]. rewrite Hfresh. reflexivity.
Qed.

Lemma client_receives_a_prefix_streamed (agentName : string) (defaultAutonomous : bool)
    (env : Env) (req : Request) (cancel : option (Await * nat))
    (registry0 : Requests.State) :
  let final := stream_response agentName defaultAutonomous env req cancel registry0 in
  (exists dropped, written final = wire final ++ dropped)
  /\ (forall e, e ∈ wire final -> is_terminal e = true -> wire final = written final).
Proof.
  cbv zeta.
  destruct (stream_response_shape agentName defaultAutonomous env req cancel registry0)
    as (last_conn & terminal & Hmoves & Hterminal & ->).
  destruct (moves_written _ _ _ Hmoves) as (es & Hwritten & Hes).
  destruct (stream_created_fresh env req cancel registry0) as (Hfresh & Hwire & Hclosed).
  assert (Hstart : wire_follows (push [SESSION_START (convId env req)]
                                   (stream_created env req cancel registry0))).
  { apply wire_follows_push. split; [exists []; rewrite Hfresh, Hwire; reflexivity|].
    intros _. rewrite Hfresh, Hwire. reflexivity. }
  pose proof (wire_follows_push [terminal] _ (moves_wire_follows _ _ _ Hmoves Hstart))
    as [[dropped Hprefix] _].
  change (wire (close_stream (unregister (convId env req) (push [terminal] last_conn))))
    with (wire (push [terminal] last_conn)).
  change (written (close_stream (unregister (convId env req) (push [terminal] last_conn))))
    with (written (push [terminal] last_conn)).
  split; [exists dropped; exact Hprefix|].
  intros e He Hend. rewrite Hprefix.
  destruct dropped as [|d dropped _] using rev_ind; [rewrite app_nil_r; reflexivity|].
  exfalso. rewrite app_assoc in Hprefix.
  change (written (push [terminal] last_conn)) with (written last_conn ++ [terminal])
    in Hprefix.
  apply app_inj_tail in Hprefix as [Hbefore _].
  assert (Hin : e ∈ written last_conn).
  { rewrite Hbefore. apply elem_of_app. left. exact He. }
  rewrite Hwritten in Hin. cbn [push written] in Hin. rewrite Hfresh in Hin.
  apply elem_of_app in Hin as [Hin|Hin].
  - apply list_elem_of_singleton in Hin. subst e. discriminate Hend.
  - unfold nonterminal in Hes. rewrite Forall_forall in Hes. rewrite (Hes e Hin) in Hend. discriminate Hend.
Qed.

Lemma request_cleans_up_registry_streamed (agentName : string) (defaultAutonomous : bool)
    (env : Env) (req : Request) (cancel : option (Await * nat))
    (registry0 : Requests.State) :
  let final := stream_response agentName defaultAutonomous env req cancel registry0 in
  Requests.activeRequests (registry final) !! convId env req = None
  /\ (forall other, other <> convId env req ->
        Requests.activeRequests (registry final) !! other
        = Requests.activeRequests registry0 !! other).
Proof.
  cbv zeta.
  destruct (stream_response_shape agentName defaultAutonomous env req cancel registry0)
    as (last_conn & terminal & Hmoves & _ & ->).
  cbn [close_stream unregister push registry Requests.unregisterRequest
       Requests.activeRequests].
  split; [apply lookup_delete_eq|].
  intros other Hne. rewrite lookup_delete_ne by congruence.
  rewrite (moves_registry_other _ other _ _ Hne Hmoves). cbn [push registry].
  apply stream_created_registry, Hne.
Qed.

Lemma cancelled_reaches_client_only_early_streamed (agentName : string) (defaultAutonomous : bool)
    (env : Env) (req : Request) (cancel : option (Await * nat))
    (registry0 : Requests.State) (conversation : string) :
  let final := stream_response agentName defaultAutonomous env req cancel registry0 in
  CANCELLED conversation ∈ wire final ->
  (exists n, cancel = Some (BeforeStream, n)) \/ signal_aborted final = false.
Proof.
  cbv zeta.
  destruct (stream_response_shape agentName defaultAutonomous env req cancel registry0)
    as (last_conn & terminal & Hmoves & Hterminal & ->).
  destruct (moves_written _ _ _ Hmoves) as (es & Hwritten & Hes).
  destruct (stream_created_fresh env req cancel registry0) as (Hfresh & Hwire & Hclosed).
  destruct (stream_created_listening env req cancel registry0) as [Hlisten Hearly].
  destruct (moves_listening _ _ _ Hmoves) as [Hsame _]. cbn [push listening] in Hsame.
  assert (Hstart : wire_follows (push [SESSION_START (convId env req)]
                                   (stream_created env req cancel registry0))).
  { apply wire_follows_push. split; [exists []; rewrite Hfresh, Hwire; reflexivity|].
    intros _. rewrite Hfresh, Hwire. reflexivity. }
  destruct (moves_wire_follows _ _ _ Hmoves Hstart) as [[dropped Hprefix] _].
  assert (Hcloses : listener_closes last_conn).
  { apply (moves_listener_closes _ _ _ Hmoves).
    unfold listener_closes, signal_aborted. cbn [push listening registry controller closed].
    intros Hon Haborted. rewrite Hlisten in Hon. unfold signal_aborted in Hon.
    rewrite Haborted in Hon. discriminate Hon. }
  change (wire (close_stream (unregister (convId env req) (push [terminal] last_conn))))
    with (if closed last_conn then wire last_conn else wire last_conn ++ [terminal]).
  change (signal_aborted (close_stream (unregister (convId env req)
                                          (push [terminal] last_conn))))
    with (signal_aborted last_conn).
  assert (Hquiet : CANCELLED conversation ∉ wire last_conn).
  { intros Hin. assert (Hin' : CANCELLED conversation ∈ written last_conn).
    { rewrite Hprefix. apply elem_of_app. left. exact Hin. }
    rewrite Hwritten in Hin'. cbn [push written] in Hin'. rewrite Hfresh in Hin'.
    apply elem_of_app in Hin' as [Hin'|Hin'].
    - apply list_elem_of_singleton in Hin'. discriminate Hin'.
    - unfold nonterminal in Hes. rewrite Forall_forall in Hes. specialize (Hes _ Hin'). discriminate Hes. }
  destruct (closed last_conn) eqn:Hopen; [intros Hin; contradiction|].
  intros _.
  destruct (listening (stream_created env req cancel registry0)) eqn:Hon.
  - right. destruct (signal_aborted last_conn) eqn:Haborted; [|reflexivity].
    unfold listener_closes in Hcloses. rewrite Hsame in Hcloses.
    specialize (Hcloses eq_refl Haborted). congruence.
  - left. apply Hearly. reflexivity.
Qed.

(** *** The whole request *)

(** When the waits before the stream return, the events a request hands
    to its stream are, whatever the other collaborators answer and whenever
    a cancellation arrives, the session start, events that are not
    terminal, and then exactly one terminal event ([done], [cancelled] or
    [error]), which is the last; the stream is closed afterwards.  When one
    of those waits throws, the handler rejects with what it threw: there is
    no stream, and no event at all, not even the session start. *)
Theorem stream_ends_with_one_terminal_event (agentName : string) (defaultAutonomous : bool)
    (env : Env) (req : Request) (cancel : option (Await * nat))
    (registry0 : Requests.State) :
  let final := buildSseHandler agentName defaultAutonomous env req cancel registry0 in
  match handler_outcome env req with
  | Returned _ =>
      exists es terminal,
        written final = SESSION_START (convId env req) :: es ++ [terminal]
        /\ Forall (fun e => is_terminal e = false) es
        /\ is_terminal terminal = true
        /\ closed final = true
  | Threw _ => written final = [] /\ wire final = [] /\ closed final = false
  end.
Proof.
  cbv zeta. unfold handler_outcome.
  destruct (prepared env req) as [[]|failure] eqn:Hprep.
  - rewrite (buildSseHandler_streams _ _ _ _ _ _ Hprep).
    apply stream_ends_with_one_terminal_event_streamed.
  - destruct (buildSseHandler_rejects agentName defaultAutonomous env req cancel registry0
                failure Hprep) as (H1 & H2 & _ & H4 & _).
    split; [exact H1|]. split; [exact H2|exact H4].
Qed.

(** The client receives a prefix of what the handler wrote: events are
    dropped only from the moment the stream is closed on, never in between.
    A terminal event reaches the client only as the end of a stream from
    which nothing was dropped. *)
Theorem client_receives_a_prefix (agentName : string) (defaultAutonomous : bool)
    (env : Env) (req : Request) (cancel : option (Await * nat))
    (registry0 : Requests.State) :
  let final := buildSseHandler agentName defaultAutonomous env req cancel registry0 in
  (exists dropped, written final = wire final ++ dropped)
  /\ (forall e, e ∈ wire final -> is_terminal e = true -> wire final = written final).
Proof.
  cbv zeta. destruct (prepared env req) as [[]|failure] eqn:Hprep.
  - rewrite (buildSseHandler_streams _ _ _ _ _ _ Hprep).
    apply client_receives_a_prefix_streamed.
  - destruct (buildSseHandler_rejects agentName defaultAutonomous env req cancel registry0
                failure Hprep) as (H1 & H2 & _).
    rewrite H1, H2. split; [exists []; reflexivity|reflexivity].
Qed.

(** A request never touches the registry entries of other conversations.
    Its own entry is removed by the [finally] block of the stream, on every
    path that gets that far: normal end, error and cancellation.  When a
    wait before the stream throws there is no [finally]: unless a
    cancellation has removed it, the entry stays in the registry, with a
    controller that is not aborted, after the request has failed. *)
Theorem request_cleans_up_registry (agentName : string) (defaultAutonomous : bool)
    (env : Env) (req : Request) (cancel : option (Await * nat))
    (registry0 : Requests.State) :
  let final := buildSseHandler agentName defaultAutonomous env req cancel registry0 in
  (forall other, other <> convId env req ->
     Requests.activeRequests (registry final) !! other
     = Requests.activeRequests registry0 !! other)
  /\ match handler_outcome env req with
     | Returned _ => Requests.activeRequests (registry final) !! convId env req = None
     | Threw _ =>
         ((forall k, cancel <> Some (BeforeStream, k)) ->
          Requests.activeRequests (registry final) !! convId env req
          = Some (controller final)
          /\ signal_aborted final = false)
         /\ (forall k, cancel = Some (BeforeStream, k) ->
               Requests.activeRequests (registry final) !! convId env req = None)
     end.
Proof.
  cbv zeta. unfold handler_outcome.
  destruct (prepared env req) as [[]|failure] eqn:Hprep.
  - rewrite (buildSseHandler_streams _ _ _ _ _ _ Hprep).
    destruct (request_cleans_up_registry_streamed agentName defaultAutonomous env req cancel
                registry0) as [Hown Hothers].
    split; [exact Hothers|exact Hown].
  - destruct (buildSseHandler_rejects agentName defaultAutonomous env req cancel registry0
                failure Hprep) as (_ & _ & _ & _ & Hstays).
    assert (Hfinal : buildSseHandler agentName defaultAutonomous env req cancel registry0
                     = request_registered env req cancel registry0).
    { unfold buildSseHandler. rewrite Hprep. reflexivity. }
    split; [|split; [exact Hstays|]].
    + intros other Hne. rewrite Hfinal. unfold request_registered.
      assert (Hreg : Requests.activeRequests
                       (Requests.registerRequest (convId env req) registry0).2 !! other
                     = Requests.activeRequests registry0 !! other).
      { unfold Requests.registerRequest. cbn [snd Requests.activeRequests].
        rewrite lookup_insert_ne by congruence. apply cancelRequest_other, Hne. }
      destruct cancel as [[[] k]|]; cbn [registry]; try exact Hreg.
      unfold cancel_arrives. cbn [registry]. rewrite cancelRequest_other by exact Hne.
      exact Hreg.
    + intros k ->. rewrite Hfinal. unfold request_registered, cancel_arrives.
      cbn [registry]. unfold Requests.cancelRequest.
      destruct (registered_live (convId env req) registry0) as [Hreg _].
      rewrite Hreg. cbn [snd Requests.activeRequests]. apply lookup_delete_eq.
Qed.

(** When a [cancelled] event reaches the client, either the cancellation
    came before the stream existed, or the abort signal of the request was
    never set (some call failed with an [AbortError] of its own).  A
    request whose signal is aborted once its stream exists is never
    reported to the client as cancelled, wherever the handler was waiting. *)
Theorem cancelled_reaches_client_only_early (agentName : string) (defaultAutonomous : bool)
    (env : Env) (req : Request) (cancel : option (Await * nat))
    (registry0 : Requests.State) (conversation : string) :
  let final := buildSseHandler agentName defaultAutonomous env req cancel registry0 in
  CANCELLED conversation ∈ wire final ->
  (exists n, cancel = Some (BeforeStream, n)) \/ signal_aborted final = false.
Proof.
  cbv zeta. destruct (prepared env req) as [[]|failure] eqn:Hprep.
  - rewrite (buildSseHandler_streams _ _ _ _ _ _ Hprep).
    apply cancelled_reaches_client_only_early_streamed.
  - destruct (buildSseHandler_rejects agentName defaultAutonomous env req cancel registry0
                failure Hprep) as (_ & H2 & _).
    rewrite H2. intros Hin. apply elem_of_nil in Hin. contradiction.
Qed.

Lemma cancelled_reaches_client_only_early_witness :
  (exists n, Some (BeforeStream, 0%nat) = Some (BeforeStream, n))
  \/ signal_aborted
       (buildSseHandler "supervisor" true (sample_env aborted_planning)
          (sample_request None None) (Some (BeforeStream, 0%nat)) Requests.initial) = false.
Proof.
  apply (cancelled_reaches_client_only_early "supervisor" true (sample_env aborted_planning)
           (sample_request None None) (Some (BeforeStream, 0%nat)) Requests.initial
           "conv_1").
  vm_compute. do 3 right. left.
Defined.

End Orchestrator.

(** * Card extractors (utils/card-registry.ts) *)

Module Cards.

Section Registry.
(** Tool results and cards are opaque here. *)
Variables ToolResult CardData : Type.

(** An extractor is a function object of the host: [reference] tells two
    function objects apart, as [indexOf] does, and [run] is what a call of
    it answers ([null] is [None]) or throws. *)
Record CardExtractor := {
  reference : nat;
  run : string -> ToolResult -> Outcome (option CardData)
}.

(** The [extractors] array. *)
Definition CardRegistry : Type := list CardExtractor.

(** [this.extractors.push(extractor)] *)
Definition register (extractor : CardExtractor) (r : CardRegistry) : CardRegistry :=
  r ++ [extractor].

(** The function [register] returns: [indexOf], then [splice(idx, 1)]. *)
Fixpoint unsubscribe (extractor : CardExtractor) (r : CardRegistry) : CardRegistry :=
  match r with
  | [] => []
  | first :: rest =>
      if Nat.eqb (reference first) (reference extractor) then rest
      else first :: unsubscribe extractor rest
  end.

(** [extract(toolName, result)]: an extractor that throws ends the loop. *)
Fixpoint extract (r : CardRegistry) (toolName : string) (result : ToolResult)
    : Outcome (list CardData) :=
  match r with
  | [] => Returned []
  | extractor :: rest =>
      match run extractor toolName result with
      | Threw t => Threw t
      | Returned card =>
          match extract rest toolName result with
          | Threw t => Threw t
          | Returned cards =>
              Returned (match card with Some c => c :: cards | None => cards end)
          end
      end
  end.

Definition registered (extractor : CardExtractor) (r : CardRegistry) : Prop :=
  Exists (fun e => reference e = reference extractor) r.

Lemma unsubscribe_unregistered extractor r :
  ~ registered extractor r -> unsubscribe extractor r = r.
Proof.
  induction r as [|first rest IH]; intros Hnot; [reflexivity|]. cbn [unsubscribe].
  destruct (Nat.eqb_spec (reference first) (reference extractor)) as [Heq|Hne].
  - contradiction Hnot. constructor. exact Heq.
  - f_equal. apply IH. intros H. apply Hnot. apply Exists_cons_tl. exact H.
Qed.

Lemma unsubscribe_app extractor r more :
  registered extractor r ->
  unsubscribe extractor (r ++ more) = unsubscribe extractor r ++ more.
Proof.
  induction r as [|first rest IH]; intros Hin; [inversion Hin|].
  cbn [unsubscribe app].
  destruct (Nat.eqb_spec (reference first) (reference extractor)) as [Heq|Hne];
    [reflexivity|].
  cbn [app]. f_equal. apply IH. inversion Hin; [contradiction|assumption].
Qed.

Lemma unsubscribe_length extractor r :
  registered extractor r -> S (length (unsubscribe extractor r)) = length r.
Proof.
  induction r as [|first rest IH]; intros Hin; [inversion Hin|].
  cbn [unsubscribe].
  destruct (Nat.eqb_spec (reference first) (reference extractor)) as [Heq|Hne];
    [reflexivity|].
  cbn [length]. f_equal. apply IH. inversion Hin; [contradiction|assumption].
Qed.

(** Unsubscribing removes one registration, the oldest one of that
    extractor.  Registering an extractor and unsubscribing it again leaves
    the registry as it was when the extractor was not registered before;
    when it was, the earlier registration is the one removed, so that the
    extractor has moved to the end of the list and its cards come last.
    Unsubscribing an extractor that is not registered changes nothing. *)
Theorem unsubscribe_removes_oldest_registration (extractor : CardExtractor)
    (r : CardRegistry) :
  (~ registered extractor r ->
   unsubscribe extractor r = r /\ unsubscribe extractor (register extractor r) = r)
  /\ (registered extractor r ->
      unsubscribe extractor (register extractor r) = unsubscribe extractor r ++ [extractor]
      /\ S (length (unsubscribe extractor r)) = length r)
  /\ (forall before after,
        ~ registered extractor before ->
        unsubscribe extractor (before ++ extractor :: after) = before ++ after).
Proof.
  split; [|split].
  - intros Hnot. split; [apply unsubscribe_unregistered, Hnot|].
    unfold register. induction r as [|first rest IH].
    + cbn. rewrite Nat.eqb_refl. reflexivity.
    + cbn [unsubscribe app].
      destruct (Nat.eqb_spec (reference first) (reference extractor)) as [Heq|Hne].
      * contradiction Hnot. constructor. exact Heq.
      * f_equal. apply IH. intros H. apply Hnot. apply Exists_cons_tl. exact H.
  - intros Hin. split; [apply unsubscribe_app, Hin|apply unsubscribe_length, Hin].
  - intros before after Hnot. induction before as [|first rest IH].
    + cbn. rewrite Nat.eqb_refl. reflexivity.
    + cbn [unsubscribe app].
      destruct (Nat.eqb_spec (reference first) (reference extractor)) as [Heq|Hne].
      * contradiction Hnot. constructor. exact Heq.
      * f_equal. apply IH. intros H. apply Hnot. apply Exists_cons_tl. exact H.
Qed.

(** When no extractor throws, [extract] returns the cards of the
    extractors that answered with one, in the order of registration; when
    one throws, [extract] throws what the first such extractor threw. *)
Theorem extract_in_registration_order (r : CardRegistry) (toolName : string)
    (result : ToolResult) :
  (forall answers : CardExtractor -> option CardData,
     (forall e, e ∈ r -> run e toolName result = Returned (answers e)) ->
     extract r toolName result = Returned (omap answers r))
  /\ (forall before failing after failure (answers : CardExtractor -> option CardData),
        r = before ++ failing :: after ->
        (forall e, e ∈ before -> run e toolName result = Returned (answers e)) ->
        run failing toolName result = Threw failure ->
        extract r toolName result = Threw failure).
Proof.
  split.
  - intros answers. induction r as [|first rest IH]; intros Hruns; [reflexivity|].
    cbn [extract omap list_omap].
    rewrite (Hruns first) by (apply elem_of_cons; left; reflexivity).
    rewrite IH by (intros e He; apply Hruns, elem_of_cons; right; exact He).
    destruct (answers first); reflexivity.
  - intros before failing after failure answers -> Hruns Hfails.
    induction before as [|first rest IH]; cbn [extract app].
    + rewrite Hfails. reflexivity.
    + rewrite (Hruns first) by (apply elem_of_cons; left; reflexivity).
      rewrite IH by (intros e He; apply Hruns, elem_of_cons; right; exact He).
      reflexivity.
Qed.

End Registry.

End Cards.
